(** * The validator coordinator of [ethvalidator/coordinator.go]

    A shallow embedding of the coordinator-side engine: the message
    ingress queue, the client manager's event loop with its signature
    gathering, and the create / unanimous round protocols of the
    controller, followed by the properties of the specification that
    can be stated over them.

    Conventions.  A Go [[32]byte] hash and a [common.Address] are read as
    natural numbers ([N]); machine integers are [Z] with their width
    written out where the code narrows them; a Go [error] is the message
    it carries.  A panic (index out of range, failed type assertion, nil
    dereference) is an outcome of its own, never a default value. *)

From stdpp Require Import base option list gmap strings.
From Stdlib Require Import ZArith Lia.

Open Scope Z_scope.

Definition Hash := N.
Definition Address := N.
Definition error := string.

Bind Scope N_scope with Hash Address.

(** [math.MaxUint64] *)
Definition MaxUint64 : Z := 2 ^ 64 - 1.

(** [time.Second], in nanoseconds as in package [time]. *)
Definition time_Second : Z := 1000000000.

(* ===================================================================== *)
(** ** The message ingress queue ([MessageProcessingQueue]) *)
(* ===================================================================== *)

Module MessageProcessingQueue.
Section Queue.
(** The element type is [OffchainMessage]; the queue never looks inside. *)
Context {OffchainMessage : Type}.

Record t := Build { queuedMessages : list OffchainMessage }.

(** What travels on [m.requests]: the dynamic type of the value picks the
    operation.  [Fetch] and [HasMessages] each send a fresh reply channel
    of capacity one, [Return] sends the batch, [Send] the message.  The
    [default] branch of the type switch ([log.Fatalf]) is not reachable
    through these four methods. *)
Inductive request :=
| ReqFetch                                       (* chan []OffchainMessage *)
| ReqReturn (messages : list OffchainMessage)    (* []OffchainMessage *)
| ReqSend (message : OffchainMessage)            (* OffchainMessage *)
| ReqHasMessages.                                (* chan bool *)

(** The value put on the reply channel, when the request carries one. *)
Inductive reply :=
| Batch (messages : list OffchainMessage)
| Flag (b : bool).

Definition NewMessageProcessingQueue : t := Build [].

(** One iteration of the loop of [run]: the body of the type switch. *)
Definition run (m : t) (req : request) : t * option reply :=
  match req with
  | ReqFetch => (Build [], Some (Batch (queuedMessages m)))
  | ReqReturn messages => (Build (messages ++ queuedMessages m), None)
  | ReqSend message => (Build (queuedMessages m ++ [message]), None)
  | ReqHasMessages =>
      (m, Some (Flag (bool_decide (0 < length (queuedMessages m))%nat)))
  end.

(** The loop over the requests in their order of arrival on the channel,
    with the replies it produced, oldest first. *)
Fixpoint serve (m : t) (reqs : list request) : t * list reply :=
  match reqs with
  | [] => (m, [])
  | req :: reqs =>
      let '(m1, r) := run m req in
      let '(m2, rs) := serve m1 reqs in
      (m2, match r with Some x => x :: rs | None => rs end)
  end.

End Queue.
Arguments t : clear implicits.
Arguments request : clear implicits.
Arguments reply : clear implicits.
End MessageProcessingQueue.

(* ===================================================================== *)
(** ** Records on the wire and the collaborators outside this file *)
(* ===================================================================== *)

(** Types and conversions of the packages [protocol], [value] and
    [valmessage] that the coordinator passes around without looking
    inside. *)
Class Wire := {
  Message : Type;                         (* protocol.Message *)
  MessageBuf : Type;                      (* *protocol.MessageBuf *)
  NewMessageBuf : Message → MessageBuf;   (* protocol.NewMessageBuf *)
  HashBuf : Type;                         (* *value.HashBuf *)
  NewHashBuf : Hash → HashBuf;            (* value.NewHashBuf *)
  NewHashFromBuf : HashBuf → Hash;        (* value.NewHashFromBuf *)
  TimeBounds : Type;                      (* protocol.TimeBounds *)
  TimeBoundsBuf : Type;
  NewTimeBoundsBuf : TimeBounds → TimeBoundsBuf;
  VMConfiguration : Type;                 (* valmessage.VMConfiguration *)
  Assertion : Type;                       (* *protocol.Assertion *)
  OutMsgs : Assertion → list Message;     (* its field OutMsgs *)
}.

Section Records.
Context `{W : Wire}.

(** [valmessage.Signature]: [R], [S] are [[32]byte], [V] is a [uint8]. *)
Record Signature := { sig_R : Hash; sig_S : Hash; sig_V : Z }.

(** The zero value that [make([]valmessage.Signature, n)] fills in. *)
Definition zeroSignature : Signature := {| sig_R := 0%N; sig_S := 0%N; sig_V := 0 |}.

(** The protobuf [*Signature]: [V] is a [uint32]. *)
Record RawSignature := { raw_R : HashBuf; raw_S : HashBuf; raw_V : Z }.

Record OffchainMessage := {
  om_Message : Message;
  om_Signature : list Byte.byte;
}.

Record SignedMessage := {
  sm_Message : MessageBuf;
  sm_Signature : list Byte.byte;
}.

Record CreateVMValidatorRequest := {
  cv_Config : VMConfiguration;
  cv_VmId : HashBuf;
  cv_VmState : HashBuf;
  cv_ChallengeManagerNum : Z;
}.

Record CreateVMFinalizedValidatorNotification := { Approved : bool }.

Record UnanimousAssertionValidatorRequest := {
  uv_BeforeHash : HashBuf;
  uv_BeforeInbox : HashBuf;
  uv_SequenceNum : Z;
  uv_TimeBounds : TimeBoundsBuf;
  uv_SignedMessages : list SignedMessage;
}.

(** [Signatures] is a [[]*Signature]: a slot never written holds nil. *)
Record UnanimousAssertionValidatorNotification := {
  un_Accepted : bool;
  un_Signatures : list (option RawSignature);
}.

Inductive isValidatorRequest_Request :=
| ValidatorRequest_Create (c : CreateVMValidatorRequest)
| ValidatorRequest_CreateNotification (n : CreateVMFinalizedValidatorNotification)
| ValidatorRequest_Unanimous (u : UnanimousAssertionValidatorRequest)
| ValidatorRequest_UnanimousNotification (n : UnanimousAssertionValidatorNotification).

(** [RequestId] is left unset (nil) by the create round. *)
Record ValidatorRequest := {
  vr_RequestId : option HashBuf;
  vr_Request : isValidatorRequest_Request;
}.

(** The payloads of a follower's answer.  [Signature] is a pointer and is
    nil when the follower left it out. *)
Record CreateVMFollowerResponse := {
  cf_Accepted : bool;
  cf_Signature : option RawSignature;
}.

Record UnanimousAssertionFollowerResponse := {
  uf_Accepted : bool;
  uf_Signature : option RawSignature;
  uf_AssertionHash : HashBuf;
}.

Inductive isFollowerResponse_Response :=
| FollowerResponse_Create (Create : CreateVMFollowerResponse)
| FollowerResponse_Unanimous (Unanimous : UnanimousAssertionFollowerResponse).

Record FollowerResponse := {
  RequestId : HashBuf;
  Response : isFollowerResponse_Response;
}.

Record LabeledFollowerResponse := {
  address : Address;
  response : FollowerResponse;
}.

(** [valmessage.UnanimousRequest] embeds [UnanimousRequestData]. *)
Record UnanimousRequestData := {
  ur_BeforeHash : Hash;
  ur_BeforeInbox : Hash;
  ur_SequenceNum : Z;
  ur_TimeBounds : TimeBounds;
}.

Record UnanimousRequest := {
  UnanimousRequestData_ : UnanimousRequestData;
  NewMessages : list Message;
}.

(** [valmessage.UnanimousUpdateResults], the fields the round reads. *)
Record UnanimousUpdateResults := {
  uu_SequenceNum : Z;
  uu_BeforeHash : Hash;
  uu_TimeBounds : TimeBounds;
  uu_NewInboxHash : Hash;
  uu_OriginalInboxHash : Hash;
  uu_Assertion : Assertion;
}.

(** What [Bot.RequestVMState] delivers. *)
Record VMStateData := {
  st_Config : VMConfiguration;
  st_MachineState : Hash;
}.

(** The entry of [EthValidator.Validators].  The type is declared outside
    this file; [indexNum] is the one field the coordinator reads, a Go
    [int].  A Go map lookup of a missing key yields the zero value. *)
Record validatorInfo := { indexNum : Z }.

Definition zeroValidatorInfo : validatorInfo := {| indexNum := 0 |}.

End Records.

(* ===================================================================== *)
(** ** The client manager ([ClientManager]) *)
(* ===================================================================== *)

Module ClientManager.
Section Manager.
Context `{W : Wire}.

(** A [*Client] and a channel are known by their identity. *)
Definition ClientId := positive.
Definition ChanId := positive.

(** The part of a [Client] the manager touches: its address and the
    buffer of [ToClient] (capacity 128, see [NewClient]). *)
Record Client := {
  Address_ : Address;
  ToClient : list ValidatorRequest;
}.

Definition ToClient_cap : nat := 128.
Definition broadcast_cap : nat := 10.

Record GatherSignatureRequest := {
  request : ValidatorRequest;
  responseChan : ChanId;
  requestID : Hash;
}.

(** The manager's record, with the buffers of the channels its loop sends
    on.  [sinks] holds the buffered contents of the response channels made
    by [gatherSignatures] (an identity not yet sent to has an empty
    buffer); [woken] the wait channels that were sent [true]; [closed] the
    clients whose [ToClient] was closed.  [key] and [vmId] play no part in
    the loop. *)
Record t := {
  clients : gmap ClientId Client;
  broadcast : list ValidatorRequest;
  waitingChans : gset ChanId;
  responses : gmap Hash ChanId;
  validators : gmap Address validatorInfo;
  sinks : gmap ChanId (list LabeledFollowerResponse);
  woken : gset ChanId;
  closed : gset ClientId;
}.

Definition NewClientManager (validators : gmap Address validatorInfo) : t := {|
  clients := ∅; broadcast := []; waitingChans := ∅; responses := ∅;
  validators := validators; sinks := ∅; woken := ∅; closed := ∅;
|}.

(** [len(m.validators)-1] *)
Definition followerCount (m : t) : Z := Z.of_nat (size (validators m)) - 1.

(** The value a [select] case of [Run] received. *)
Inductive event :=
| waitRequest (waitChan : ChanId)                 (* <-m.waitRequestChan *)
| aggResponse (response : LabeledFollowerResponse) (* <-aggResponseChan *)
| sigRequest (req : GatherSignatureRequest)       (* <-m.sigRequestChan *)
| register (client : ClientId) (c : Client)       (* <-m.register *)
| unregister (client : ClientId)                  (* <-m.unregister *)
| broadcastMessage.                               (* <-m.broadcast *)

(** Why a case body cannot go on.  A send on a nil channel never
    completes; a send on a full channel waits for a receiver. *)
Inductive blocked := SendOnNilChan | SendOnFullChan | NothingToReceive.

Inductive outcome :=
| Stepped (m : t)
| Blocked (why : blocked).

Definition set_clients (m : t) (x : gmap ClientId Client) (cl : gset ClientId) : t := {|
  clients := x; broadcast := broadcast m; waitingChans := waitingChans m;
  responses := responses m; validators := validators m; sinks := sinks m;
  woken := woken m; closed := cl;
|}.

(** The non-blocking send of the broadcast case on one client: [None] is
    the [default] branch, which closes and evicts. *)
Definition offer (message : ValidatorRequest) (c : Client) : option Client :=
  if bool_decide (length (ToClient c) < ToClient_cap)%nat
  then Some {| Address_ := Address_ c; ToClient := ToClient c ++ [message] |}
  else None.

(** One iteration of the loop of [Run]: the body of the selected case. *)
Definition Run (m : t) (ev : event) : outcome :=
  match ev with
  | waitRequest w =>
      if bool_decide (Z.of_nat (size (clients m)) = followerCount m)
      then Stepped {|
        clients := clients m; broadcast := broadcast m;
        waitingChans := waitingChans m; responses := responses m;
        validators := validators m; sinks := sinks m;
        woken := {[w]} ∪ woken m; closed := closed m |}
      else Stepped {|
        clients := clients m; broadcast := broadcast m;
        waitingChans := {[w]} ∪ waitingChans m; responses := responses m;
        validators := validators m; sinks := sinks m;
        woken := woken m; closed := closed m |}
  | aggResponse r =>
      match responses m !! NewHashFromBuf (RequestId (response r)) with
      | None => Blocked SendOnNilChan
      | Some ch =>
          let buf := default [] (sinks m !! ch) in
          if bool_decide (Z.of_nat (length buf) < followerCount m)
          then Stepped {|
            clients := clients m; broadcast := broadcast m;
            waitingChans := waitingChans m; responses := responses m;
            validators := validators m; sinks := <[ch := buf ++ [r]]> (sinks m);
            woken := woken m; closed := closed m |}
          else Blocked SendOnFullChan
      end
  | sigRequest req =>
      if bool_decide (length (broadcast m) < broadcast_cap)%nat
      then Stepped {|
        clients := clients m; broadcast := broadcast m ++ [request req];
        waitingChans := waitingChans m;
        responses := <[requestID req := responseChan req]> (responses m);
        validators := validators m; sinks := sinks m;
        woken := woken m; closed := closed m |}
      else Blocked SendOnFullChan
  | register client c =>
      let clients' := <[client := c]> (clients m) in
      if bool_decide (Z.of_nat (size clients') = followerCount m)
      then Stepped {|
        clients := clients'; broadcast := broadcast m;
        waitingChans := ∅; responses := responses m;
        validators := validators m; sinks := sinks m;
        woken := waitingChans m ∪ woken m; closed := closed m |}
      else Stepped (set_clients m clients' (closed m))
  | unregister client =>
      match clients m !! client with
      | Some _ => Stepped (set_clients m (delete client (clients m)) ({[client]} ∪ closed m))
      | None => Stepped m
      end
  | broadcastMessage =>
      match broadcast m with
      | [] => Blocked NothingToReceive
      | message :: rest =>
          let kept := omap (offer message) (clients m) in
          Stepped {|
            clients := kept; broadcast := rest;
            waitingChans := waitingChans m; responses := responses m;
            validators := validators m; sinks := sinks m;
            woken := woken m;
            closed := (dom (clients m) ∖ dom kept) ∪ closed m |}
      end
  end.

(** The loop over the events its [select] picks, in order.  Once a case
    body is blocked the loop stands still: the events after it stay
    unprocessed, and their number is reported with the state reached. *)
Fixpoint RunLoop (m : t) (evs : list event) : t * option (blocked * nat) :=
  match evs with
  | [] => (m, None)
  | ev :: evs =>
      match Run m ev with
      | Stepped m' => RunLoop m' evs
      | Blocked why => (m, Some (why, length evs))
      end
  end.

(** Another goroutine's receive on a response channel: [gatherSignatures]
    taking the oldest buffered response of its [responseChan]. *)
Definition recvResponse (ch : ChanId) (m : t) : option (LabeledFollowerResponse * t) :=
  match default [] (sinks m !! ch) with
  | [] => None
  | r :: buf => Some (r, {|
      clients := clients m; broadcast := broadcast m;
      waitingChans := waitingChans m; responses := responses m;
      validators := validators m; sinks := <[ch := buf]> (sinks m);
      woken := woken m; closed := closed m |})
  end.

(** [timer := time.NewTimer(20 * time.Second)] *)
Definition gatherTimer : Z := 20 * time_Second.

(** What one [select] of [gatherSignatures] received. *)
Inductive selected :=
| fromResponseChan (response : LabeledFollowerResponse)
| fromTimer.

Record gathered := {
  responseList : list LabeledFollowerResponse;
  timedOut : bool;
  unread : list selected;
}.

(** The [for] loop of [gatherSignatures] over what its [select] receives:
    the test stands after the [select], so each turn consumes one value
    first.  [None]: the values given so far do not end the loop, it is
    still waiting in [select]. *)
Fixpoint gatherLoop (n : Z) (sel : list selected)
  (responseList : list LabeledFollowerResponse) (timedOut : bool) : option gathered :=
  match sel with
  | [] => None
  | s :: sel =>
      let '(responseList, timedOut) :=
        match s with
        | fromResponseChan response => (responseList ++ [response], timedOut)
        | fromTimer => (responseList, true)
        end in
      if bool_decide (Z.of_nat (length responseList) = n) || timedOut
      then Some {| responseList := responseList; timedOut := timedOut; unread := sel |}
      else gatherLoop n sel responseList timedOut
  end.

(** [gatherSignatures]: the request put on [sigRequestChan] with the fresh
    response channel, and the list the loop returns.  The manager record is
    only read ([len(m.validators)]). *)
Definition gatherSignatures (m : t) (request : ValidatorRequest) (requestID : Hash)
  (responseChan : ChanId) (sel : list selected)
  : GatherSignatureRequest * option gathered :=
  ({| request := request; responseChan := responseChan; requestID := requestID |},
   gatherLoop (followerCount m) sel [] false).

End Manager.
End ClientManager.

(* ===================================================================== *)
(** ** The controller ([ValidatorCoordinator]) *)
(* ===================================================================== *)

(** The validator behind [m.Val], as far as the rounds use it: its
    identity, the validator table, signing and the digests. *)
Class EthValidator `{W : Wire} := {
  VmId : Hash;
  Validators : gmap Address validatorInfo;
  Val_Address : Address;                                   (* m.Val.Address() *)
  Sign : Hash → Signature * option error;
  UnanimousAssertHash :
    Z → Hash → TimeBounds → Hash → Hash → Assertion → Hash * option error;
  CreateVMHash : CreateVMValidatorRequest → Hash;
  UnanimousRequest_Hash : UnanimousRequest → Hash;        (* unanRequest.Hash() *)
}.

(** How a statement ends: it falls through to the next one, the function
    returns, or the goroutine panics. *)
Inductive Flow (R A : Type) :=
| Next (a : A)
| Return (r : R)
| Panic (why : string).
Arguments Next {R A} a.
Arguments Return {R A} r.
Arguments Panic {R A} why.

Section Controller.
Context `{V : EthValidator}.

(** Modelled from the spec: [EthValidator.ValidatorCount], whose body is
    not in this file; the spec's N is the size of the validator set, the
    table the client manager is built from ([NewClientManager(key, vmId,
    c.Validators)]). *)
Definition ValidatorCount : Z := Z.of_nat (size Validators).

(** [m.Val.Validators[a].indexNum] *)
Definition indexOf (a : Address) : Z :=
  indexNum (default zeroValidatorInfo (Validators !! a)).

(** What the controller does to the world outside, in program order. *)
Inductive Event :=
| WaitForFollowers (timeout : Z)
| Bot_RequestVMState
| cm_gatherSignatures (request : ValidatorRequest) (requestID : Hash)
| cm_broadcast (request : ValidatorRequest)           (* m.cm.broadcast <- request *)
| Val_Sign (h : Hash)
| Val_CreateVM (createData : CreateVMValidatorRequest) (signatures : list Signature)
| Bot_InitiateUnanimousRequest (maxSteps : Z) (newMessages : list Message) (forceFinal : bool)
| Val_UnanimousAssertHash (sequenceNum : Z) (beforeHash : Hash) (timeBounds : TimeBounds)
    (newInboxHash originalInboxHash : Hash) (assertion : Assertion)
| Bot_ConfirmOffchainUnanimousAssertion (data : UnanimousRequestData)
    (signatures : list Signature)
| Bot_CloseUnanimousAssertionRequest
| mpq_Fetch
| mpq_Return (messages : list OffchainMessage).

Record World := {
  trace : list Event;
  mpq : MessageProcessingQueue.t OffchainMessage;
}.

Definition Ctl (R A : Type) : Type := World → World * Flow R A.

Definition ctl_ret {R A} (a : A) : Ctl R A := λ w, (w, Next a).

Definition ctl_bind {R A B} (m : Ctl R A) (k : A → Ctl R B) : Ctl R B :=
  λ w, match m w with
       | (w', Next a) => k a w'
       | (w', Return r) => (w', Return r)
       | (w', Panic why) => (w', Panic why)
       end.

Definition return_ {R A} (r : R) : Ctl R A := λ w, (w, Return r).
Definition panic {R A} (why : string) : Ctl R A := λ w, (w, Panic why).

Definition emit {R} (e : Event) : Ctl R unit :=
  λ w, ({| trace := trace w ++ [e]; mpq := mpq w |}, Next tt).

(** A request served by the queue's goroutine; the reply, when there is
    one, is what the caller reads from the reply channel. *)
Definition ask {R} (req : MessageProcessingQueue.request OffchainMessage)
  : Ctl R (option (MessageProcessingQueue.reply OffchainMessage)) :=
  λ w, let '(q, r) := MessageProcessingQueue.run (mpq w) req in
       ({| trace := trace w; mpq := q |}, Next r).

(** A call of a function with its own result type. *)
Definition call {R R'} (m : Ctl R' R') : Ctl R R' :=
  λ w, match m w with
       | (w', Next r) | (w', Return r) => (w', Next r)
       | (w', Panic why) => (w', Panic why)
       end.

End Controller.

Notation "x <- m ;; k" := (ctl_bind m (λ x, k))
  (at level 100, m at next level, right associativity, only parsing).
Notation "m ;;; k" := (ctl_bind m (λ _, k))
  (at level 100, right associativity, only parsing).

(** The result pair of the round functions: [(bool, error)], a nil error
    being [None]. *)
Abbreviation Result := (bool * option error)%type.

Section Rounds.
Context `{V : EthValidator}.


(** [make([]T, n)] *)
Definition make {A} (zero : A) (n : Z) : list A := replicate (Z.to_nat n) zero.

(** [s[i] = x] on a slice: out of range is a run-time panic. *)
Definition store {R A} (s : list A) (i : Z) (x : A) : Ctl R (list A) :=
  if bool_decide (0 ≤ i < Z.of_nat (length s))
  then ctl_ret (<[Z.to_nat i := x]> s)
  else panic "index out of range".

(** [valmessage.Signature{NewHashFromBuf(s.R), NewHashFromBuf(s.S), uint8(s.V)}] *)
Definition fromRaw (s : RawSignature) : Signature := {|
  sig_R := NewHashFromBuf (raw_R s);
  sig_S := NewHashFromBuf (raw_S s);
  sig_V := raw_V s mod 256;
|}.

(** [&Signature{R: NewHashBuf(sig.R), S: NewHashBuf(sig.S), V: uint32(sig.V)}] *)
Definition toRaw (sig : Signature) : RawSignature := {|
  raw_R := NewHashBuf (sig_R sig);
  raw_S := NewHashBuf (sig_S sig);
  raw_V := sig_V sig;
|}.

(** *** Create *)

(** What the collaborators answer during one call of [createVMImpl]. *)
Record CreateEnv := {
  gotAll : bool;                                  (* m.cm.WaitForFollowers(timeout) *)
  stateData : VMStateData;                        (* <-stateDataChan *)
  createResponses : list LabeledFollowerResponse; (* m.cm.gatherSignatures(...) *)
  createErr : option error;                       (* the error of m.Val.CreateVM *)
}.

Definition notifyCreate {R} (allSigned : bool) : Ctl R unit :=
  emit (cm_broadcast {|
    vr_RequestId := None;
    vr_Request := ValidatorRequest_CreateNotification {| Approved := allSigned |} |}).

(** The [for _, response := range responses] loop of [createVMImpl]. *)
Fixpoint createSignatures (responses : list LabeledFollowerResponse)
  (signatures : list Signature) : Ctl Result (list Signature) :=
  match responses with
  | [] => ctl_ret signatures
  | rsp :: responses =>
      match Response (response rsp) with
      | FollowerResponse_Create r =>
          if negb (cf_Accepted r)
          then return_ (false, Some "some Validators refused to sign")
          else
            match cf_Signature r with
            | None => panic "nil pointer dereference"
            | Some s =>
                signatures <- store signatures (indexOf (address rsp)) (fromRaw s) ;;
                createSignatures responses signatures
            end
      | _ => panic "interface conversion"
      end
  end.

Definition createVMImpl (env : CreateEnv) (timeout : Z) : Ctl Result Result :=
  emit (WaitForFollowers timeout) ;;;
  if negb (gotAll env)
  then return_ (false,
         Some "coordinator can only create VM when connected to all other validators")
  else
    emit Bot_RequestVMState ;;;
    let createData := {|
      cv_Config := st_Config (stateData env);
      cv_VmId := NewHashBuf VmId;
      cv_VmState := NewHashBuf (st_MachineState (stateData env));
      cv_ChallengeManagerNum := 0 |} in
    let createHash := CreateVMHash createData in
    emit (cm_gatherSignatures
            {| vr_RequestId := None; vr_Request := ValidatorRequest_Create createData |}
            createHash) ;;;
    let responses := createResponses env in
    if bool_decide (Z.of_nat (length responses) ≠ ValidatorCount - 1)
    then notifyCreate false ;;;
         return_ (false, Some "some Validators didn't respond")
    else
      let signatures := make zeroSignature ValidatorCount in
      emit (Val_Sign createHash) ;;;
      let '(sig, err) := Sign createHash in
      signatures <- store signatures (indexOf Val_Address) sig ;;
      match err with
      | Some e => return_ (false, Some e)
      | None =>
          signatures <- createSignatures responses signatures ;;
          emit (Val_CreateVM createData signatures) ;;;
          return_ (true, createErr env)
      end.

(** *** Unanimous *)

(** What the collaborators answer during one unanimous round.  Each
    [select] takes whichever channel the Bot made ready. *)
Record UnanimousEnv := {
  botRequest : UnanimousRequest + error;          (* requestChan or unanErrChan *)
  botResults : UnanimousUpdateResults + error;    (* resultsChan or unanErrChan *)
  unanResponses : list LabeledFollowerResponse;   (* <-responsesChan *)
  botConfirm : option error;                      (* confRetChan, or confErrChan *)
  botClosed : bool;                               (* <-closedChan *)
  arrivals : list OffchainMessage;  (* Send requests the queue served during the round *)
}.

(** The loop building [requestMessages]: [queuedMessages[i]] has no bounds
    check of its own, so an index past the end panics. *)
Fixpoint signMessages (queuedMessages : list OffchainMessage) (i : nat)
  (newMessages : list Message) (requestMessages : list SignedMessage)
  : option (list SignedMessage) :=
  match newMessages with
  | [] => Some requestMessages
  | msg :: newMessages =>
      match queuedMessages !! i with
      | None => None
      | Some q =>
          signMessages queuedMessages (S i) newMessages
            (requestMessages ++
               [{| sm_Message := NewMessageBuf msg; sm_Signature := om_Signature q |}])
      end
  end.

Definition notifyUnanimous {R} (hashId : Hash)
  (msg : UnanimousAssertionValidatorNotification) : Ctl R unit :=
  emit (cm_broadcast {|
    vr_RequestId := Some (NewHashBuf hashId);
    vr_Request := ValidatorRequest_UnanimousNotification msg |}).

Definition rejected : UnanimousAssertionValidatorNotification :=
  {| un_Accepted := false; un_Signatures := [] |}.

(** The [for _, response := range responses] loop of the unanimous round. *)
Fixpoint unanimousSignatures (hashId unanHash : Hash)
  (responses : list LabeledFollowerResponse)
  (signatures : list Signature) (rawSignatures : list (option RawSignature))
  : Ctl Result (list Signature * list (option RawSignature)) :=
  match responses with
  | [] => ctl_ret (signatures, rawSignatures)
  | rsp :: responses =>
      match Response (response rsp) with
      | FollowerResponse_Unanimous r =>
          if negb (uf_Accepted r)
          then notifyUnanimous hashId rejected ;;;
               return_ (false, Some "some Validators refused to sign")
          else if bool_decide (NewHashFromBuf (uf_AssertionHash r) ≠ unanHash)
          then notifyUnanimous hashId rejected ;;;
               return_ (false, Some "some Validators signed the wrong assertion")
          else
            rawSignatures <- store rawSignatures (indexOf (address rsp))
                               (uf_Signature r) ;;
            match uf_Signature r with
            | None => panic "nil pointer dereference"
            | Some s =>
                signatures <- store signatures (indexOf (address rsp)) (fromRaw s) ;;
                unanimousSignatures hashId unanHash responses signatures rawSignatures
            end
      | _ => panic "interface conversion"
      end
  end.

Definition _initiateUnanimousAssertionImpl (env : UnanimousEnv)
  (queuedMessages : list OffchainMessage) (forceFinal : bool) : Ctl Result Result :=
  let newMessages := om_Message <$> queuedMessages in
  emit (Bot_InitiateUnanimousRequest 10000 newMessages forceFinal) ;;;
  match botRequest env with
  | inr err => return_ (false, Some err)
  | inl unanRequest =>
      match signMessages queuedMessages 0 (NewMessages unanRequest) [] with
      | None => panic "index out of range"
      | Some requestMessages =>
          let hashId := UnanimousRequest_Hash unanRequest in
          let data := UnanimousRequestData_ unanRequest in
          (* go func() { ... responsesChan <- m.cm.gatherSignatures(...) }() *)
          emit (cm_gatherSignatures
                  {| vr_RequestId := Some (NewHashBuf hashId);
                     vr_Request := ValidatorRequest_Unanimous {|
                       uv_BeforeHash := NewHashBuf (ur_BeforeHash data);
                       uv_BeforeInbox := NewHashBuf (ur_BeforeInbox data);
                       uv_SequenceNum := ur_SequenceNum data;
                       uv_TimeBounds := NewTimeBoundsBuf (ur_TimeBounds data);
                       uv_SignedMessages := requestMessages |} |}
                  hashId) ;;;
          match botResults env with
          | inr err =>
              notifyUnanimous hashId rejected ;;;
              return_ (false, Some err)
          | inl unanUpdate =>
              (* Force onchain assertion if there are outgoing messages *)
              let SequenceNum :=
                if bool_decide (0 < length (OutMsgs (uu_Assertion unanUpdate)))%nat
                then MaxUint64 else uu_SequenceNum unanUpdate in
              emit (Val_UnanimousAssertHash SequenceNum (uu_BeforeHash unanUpdate)
                      (uu_TimeBounds unanUpdate) (uu_NewInboxHash unanUpdate)
                      (uu_OriginalInboxHash unanUpdate) (uu_Assertion unanUpdate)) ;;;
              let '(unanHash, err) :=
                UnanimousAssertHash SequenceNum (uu_BeforeHash unanUpdate)
                  (uu_TimeBounds unanUpdate) (uu_NewInboxHash unanUpdate)
                  (uu_OriginalInboxHash unanUpdate) (uu_Assertion unanUpdate) in
              match err with
              | Some e => notifyUnanimous hashId rejected ;;; return_ (false, Some e)
              | None =>
                  emit (Val_Sign unanHash) ;;;
                  let '(sig, err) := Sign unanHash in
                  match err with
                  | Some e => notifyUnanimous hashId rejected ;;; return_ (false, Some e)
                  | None =>
                      let responses := unanResponses env in
                      if bool_decide (Z.of_nat (length responses) ≠ ValidatorCount - 1)
                      then notifyUnanimous hashId rejected ;;;
                           return_ (false, Some "some Validators didn't respond")
                      else
                        let signatures := make zeroSignature ValidatorCount in
                        let rawSignatures := make None ValidatorCount in
                        signatures <- store signatures (indexOf Val_Address) sig ;;
                        rawSignatures <- store rawSignatures (indexOf Val_Address)
                                           (Some (toRaw sig)) ;;
                        sigs <- unanimousSignatures hashId unanHash responses
                                  signatures rawSignatures ;;
                        notifyUnanimous hashId
                          {| un_Accepted := true; un_Signatures := sigs.2 |} ;;;
                        emit (Bot_ConfirmOffchainUnanimousAssertion data sigs.1) ;;;
                        match botConfirm env with
                        | Some e => return_ (false, Some e)
                        | None => return_ (bool_decide (SequenceNum = MaxUint64), None)
                        end
                  end
              end
          end
      end
  end.

(** The queue's goroutine serving the [Send] requests that reached it
    while the round was under way. *)
Definition concurrentSends {R} (sent : list OffchainMessage) : Ctl R unit :=
  λ w, ({| trace := trace w;
           mpq := (MessageProcessingQueue.serve (mpq w)
                     (MessageProcessingQueue.ReqSend <$> sent)).1 |}, Next tt).

Definition initiateUnanimousAssertionImpl (env : UnanimousEnv) (forceFinal : bool)
  : Ctl Result Result :=
  emit mpq_Fetch ;;;
  fetched <- ask MessageProcessingQueue.ReqFetch ;;
  let queuedMessages :=
    match fetched with
    | Some (MessageProcessingQueue.Batch messages) => messages
    | _ => []
    end in
  r <- call (_initiateUnanimousAssertionImpl env queuedMessages forceFinal) ;;
  concurrentSends (arrivals env) ;;;
  let '(isFinal, err) := r in
  match err with
  | Some e =>
      emit (mpq_Return queuedMessages) ;;;
      ask (MessageProcessingQueue.ReqReturn queuedMessages) ;;;
      return_ (false, Some e)
  | None =>
      if isFinal
      then emit Bot_CloseUnanimousAssertionRequest ;;;
           return_ (botClosed env, None)
      else return_ (true, None)
  end.

End Rounds.

(* ===================================================================== *)
(** ** A small concrete validator set, to run the model on *)
(* ===================================================================== *)

Module Sample.

(** Opaque payloads are numbers; the buffers hold the hash itself. *)
#[export] Instance wire : Wire := {|
  Message := N; MessageBuf := N; NewMessageBuf := id;
  HashBuf := N; NewHashBuf := id; NewHashFromBuf := id;
  TimeBounds := N; TimeBoundsBuf := N; NewTimeBoundsBuf := id;
  VMConfiguration := N;
  Assertion := list N; OutMsgs := id;
|}.

(** Three validators: the coordinator 10 at index 0, followers 11 and 12
    at indices 1 and 2. *)
Definition table : gmap Address validatorInfo :=
  {[ 10%N := {| indexNum := 0 |};
     11%N := {| indexNum := 1 |};
     12%N := {| indexNum := 2 |} ]}.

#[export] Instance val : EthValidator := {|
  VmId := 7%N;
  Validators := table;
  Val_Address := 10%N;
  Sign := λ h, ({| sig_R := h; sig_S := (h + 1)%N; sig_V := 27 |}, None);
  UnanimousAssertHash := λ seq before _ newInbox _ _,
    ((Z.to_N seq + before + newInbox)%N, None);
  CreateVMHash := λ c, (cv_VmId c + cv_VmState c)%N;
  UnanimousRequest_Hash := λ r, ur_BeforeHash (UnanimousRequestData_ r);
|}.

Definition rawSig (r s : N) (v : Z) : RawSignature := {| raw_R := r; raw_S := s; raw_V := v |}.

(** A follower's answer to a create request. *)
Definition createReply (a : Address) (id : Hash) (accepted : bool)
  (s : option RawSignature) : LabeledFollowerResponse := {|
  address := a;
  response := {|
    RequestId := id;
    Response := FollowerResponse_Create {| cf_Accepted := accepted; cf_Signature := s |} |} |}.

(** A follower's answer to a unanimous request. *)
Definition unanimousReply (a : Address) (id : Hash) (accepted : bool)
  (s : option RawSignature) (h : Hash) : LabeledFollowerResponse := {|
  address := a;
  response := {|
    RequestId := id;
    Response := FollowerResponse_Unanimous
      {| uf_Accepted := accepted; uf_Signature := s; uf_AssertionHash := h |} |} |}.

Definition state : VMStateData := {| st_Config := 0%N; st_MachineState := 5%N |}.

Definition msg (m : N) (b : Byte.byte) : OffchainMessage :=
  {| om_Message := m; om_Signature := [b] |}.

Definition unanRequest (msgs : list N) : UnanimousRequest := {|
  UnanimousRequestData_ := {|
    ur_BeforeHash := 40%N; ur_BeforeInbox := 41%N;
    ur_SequenceNum := 3; ur_TimeBounds := 0%N |};
  NewMessages := msgs |}.

Definition unanUpdate (seq : Z) (out : list N) : UnanimousUpdateResults := {|
  uu_SequenceNum := seq; uu_BeforeHash := 40%N; uu_TimeBounds := 0%N;
  uu_NewInboxHash := 2%N; uu_OriginalInboxHash := 1%N; uu_Assertion := out |}.


(** *** Create rounds *)

Definition createHash : Hash := 12%N.   (* CreateVMHash of the payload below *)

(** Only one follower is connected. *)
Definition missing : CreateEnv := {|
  gotAll := false; stateData := state; createResponses := []; createErr := None |}.

(** Both followers answer, 12 with [Accepted = false]. *)
Definition refusing : CreateEnv := {|
  gotAll := true; stateData := state;
  createResponses :=
    [createReply 11 createHash true (Some (rawSig 1 2 27));
     createReply 12 createHash false None];
  createErr := None |}.

(** Both followers accept. *)
Definition created : CreateEnv := {|
  gotAll := true; stateData := state;
  createResponses :=
    [createReply 12 createHash true (Some (rawSig 5 6 28));
     createReply 11 createHash true (Some (rawSig 1 2 27))];
  createErr := None |}.

(** Follower 11 answers twice, follower 12 not at all. *)
Definition duplicated : CreateEnv := {|
  gotAll := true; stateData := state;
  createResponses :=
    [createReply 11 createHash true (Some (rawSig 1 2 27));
     createReply 11 createHash true (Some (rawSig 3 4 28))];
  createErr := None |}.

(** Follower 11 answers, follower 12 does not before the timer. *)
Definition short : CreateEnv := {|
  gotAll := true; stateData := state;
  createResponses := [createReply 11 createHash true (Some (rawSig 1 2 27))];
  createErr := None |}.

(** *** Unanimous rounds *)

Definition batch : list OffchainMessage := [msg 100 Byte.x01; msg 101 Byte.x02].

(** The digest of [unanUpdate 4 [9]], whose out-message forces the
    sequence number, and that of [unanUpdate 4 []]. *)
Definition finalHash : Hash := (Z.to_N MaxUint64 + 42)%N.
Definition openHash : Hash := 46%N.

Definition accepting (h : Hash) : list LabeledFollowerResponse :=
  [unanimousReply 11 40 true (Some (rawSig 1 2 27)) h;
   unanimousReply 12 40 true (Some (rawSig 5 6 28)) h].

(** The Bot's results carry an out-message; everybody signs. *)
Definition closing : UnanimousEnv := {|
  botRequest := inl (unanRequest [100; 101]%N);
  botResults := inl (unanUpdate 4 [9%N]);
  unanResponses := accepting finalHash;
  botConfirm := None; botClosed := true; arrivals := [msg 102 Byte.x03] |}.

(** The Bot reports an error instead of a request. *)
Definition botFails : UnanimousEnv := {|
  botRequest := inr "bot failed";
  botResults := inl (unanUpdate 4 []);
  unanResponses := []; botConfirm := None; botClosed := false; arrivals := [] |}.

(** Follower 12 refuses; the round started on an empty queue. *)
Definition refused : UnanimousEnv := {|
  botRequest := inl (unanRequest []);
  botResults := inl (unanUpdate 4 []);
  unanResponses :=
    [unanimousReply 11 40 true (Some (rawSig 1 2 27)) openHash;
     unanimousReply 12 40 false None openHash];
  botConfirm := None; botClosed := false; arrivals := [] |}.

(** Follower 12 signed another assertion hash. *)
Definition mismatch : UnanimousEnv := {|
  botRequest := inl (unanRequest [100; 101]%N);
  botResults := inl (unanUpdate 4 []);
  unanResponses :=
    [unanimousReply 11 40 true (Some (rawSig 1 2 27)) openHash;
     unanimousReply 12 40 true (Some (rawSig 5 6 28)) 47];
  botConfirm := None; botClosed := false; arrivals := [msg 102 Byte.x03] |}.

(** *** The client manager *)

(** The request of a round under digest 40, with response channel 1. *)
Definition sig40 : ClientManager.GatherSignatureRequest := {|
  ClientManager.request := {|
    vr_RequestId := Some 40%N;
    vr_Request := ValidatorRequest_UnanimousNotification rejected |};
  ClientManager.responseChan := 1%positive;
  ClientManager.requestID := 40%N |}.

Definition reply11 : LabeledFollowerResponse :=
  unanimousReply 11 40 true (Some (rawSig 1 2 27)) openHash.
Definition reply12 : LabeledFollowerResponse :=
  unanimousReply 12 40 true (Some (rawSig 5 6 28)) openHash.

(** A response naming digest 99, which no round registered. *)
Definition stray : LabeledFollowerResponse :=
  unanimousReply 12 99 true (Some (rawSig 5 6 28)) openHash.

End Sample.

(* ===================================================================== *)
(** * Properties *)
(* ===================================================================== *)

(** ** The message ingress queue *)

Section QueueProperties.
Context {OffchainMessage : Type}.
Import MessageProcessingQueue.
Implicit Types m q : MessageProcessingQueue.t OffchainMessage.

Lemma serve_app m reqs1 reqs2 :
  serve m (reqs1 ++ reqs2) =
  let '(m1, rs1) := serve m reqs1 in
  let '(m2, rs2) := serve m1 reqs2 in (m2, rs1 ++ rs2).
Proof.
  revert m. induction reqs1 as [|req reqs1 IH]; intros m; simpl.
  - by destruct (serve m reqs2).
  - destruct (run m req) as [m1 r]. rewrite IH.
    destruct (serve m1 reqs1) as [m2 rs1], (serve m2 reqs2) as [m3 rs2].
    by destruct r.
Qed.

Lemma serve_sends m (sent : list OffchainMessage) :
  serve m (ReqSend <$> sent) = (Build (queuedMessages m ++ sent), []).
Proof.
  revert m. induction sent as [|x sent IH]; intros [l]; simpl.
  - by rewrite app_nil_r.
  - rewrite IH. simpl. by rewrite <- app_assoc.
Qed.

(** [C6]  Queue round trip.  On every queue state: [Fetch] replies with
    the whole contents and leaves the queue empty; [Send] appends at the
    tail; [Return] puts its batch, in its own order, in front of what the
    queue holds.  So [Fetch] directly followed by [Return] of the fetched
    batch restores the queue, a later [Fetch] gets the same reply as the
    first one, and when messages were sent in between, the returned batch
    stands ahead of them. *)
Theorem fetch_return_roundtrip m :
  let batch := queuedMessages m in
  let m1 := (run m ReqFetch).1 in
  (run m ReqFetch).2 = Some (Batch batch) ∧ queuedMessages m1 = [] ∧
  (∀ (x : OffchainMessage) q,
     queuedMessages (run q (ReqSend x)).1 = queuedMessages q ++ [x]) ∧
  (∀ (b : list OffchainMessage) q,
     queuedMessages (run q (ReqReturn b)).1 = b ++ queuedMessages q) ∧
  (run m1 (ReqReturn batch)).1 = m ∧
  (run (run m1 (ReqReturn batch)).1 ReqFetch).2 = (run m ReqFetch).2 ∧
  (∀ sent,
     (serve m (ReqFetch :: (ReqSend <$> sent) ++ [ReqReturn batch; ReqFetch])).2
     = [Batch batch; Batch (batch ++ sent)]).
Proof.
  destruct m as [l]; simpl. repeat split.
  - by rewrite app_nil_r.
  - by rewrite app_nil_r.
  - intros sent. rewrite serve_app, serve_sends. reflexivity.
Qed.

End QueueProperties.

(** ** The control monad *)

Section ControlLemmas.
Context `{V : EthValidator}.

(** A world with nothing recorded yet, around a given queue. *)
Definition start (q : list OffchainMessage) : World :=
  {| trace := []; mpq := MessageProcessingQueue.Build q |}.

Lemma store_inv {R A} (s : list A) (i : Z) (x : A) (w : World) :
  (0 ≤ i < Z.of_nat (length s) ∧
   store (R:=R) s i x w = (w, Next (<[Z.to_nat i := x]> s))) ∨
  (¬ 0 ≤ i < Z.of_nat (length s) ∧
   store (R:=R) s i x w = (w, Panic "index out of range")).
Proof. unfold store. case_bool_decide; [left|right]; done. Qed.

Lemma length_make {A} (zero : A) (n : Z) :
  0 ≤ n → Z.of_nat (length (make zero n)) = n.
Proof. intros. unfold make. rewrite length_replicate. lia. Qed.

Lemma ValidatorCount_nonneg : 0 ≤ ValidatorCount.
Proof. unfold ValidatorCount. lia. Qed.

End ControlLemmas.

(** ** Slices written slot by slot *)

Section Assemble.
Context {A : Type}.
Implicit Types (slots : list A) (ws : list (Z * A)).

(** The slice after the writes [slots[i] = x] of [ws], in order. *)
Definition assemble slots ws : list A :=
  foldl (λ acc p, <[Z.to_nat p.1 := p.2]> acc) slots ws.

Definition inRange slots (i : Z) : Prop := 0 ≤ i < Z.of_nat (length slots).

Lemma assemble_length slots ws : length (assemble slots ws) = length slots.
Proof.
  revert slots. induction ws as [|p ws IH]; intros slots; simpl; [done|].
  unfold assemble in IH. by rewrite IH, length_insert.
Qed.

Lemma assemble_lookup_other slots ws (i : nat) :
  (∀ p, p ∈ ws → Z.to_nat p.1 ≠ i) → assemble slots ws !! i = slots !! i.
Proof.
  revert slots. induction ws as [|p ws IH]; intros slots Hne; simpl; [done|].
  unfold assemble in IH. rewrite IH.
  - apply list_lookup_insert_ne. apply Hne. left.
  - intros q Hq. apply Hne. by right.
Qed.

(** With pairwise distinct in-range indices each write is still there at
    the end. *)
Lemma assemble_lookup slots ws (i : Z) (x : A) :
  NoDup ws.*1 → Forall (inRange slots) ws.*1 → (i, x) ∈ ws →
  assemble slots ws !! Z.to_nat i = Some x.
Proof.
  revert slots. induction ws as [|[j y] ws IH]; intros slots Hnd Hin Hel.
  { by apply elem_of_nil in Hel. }
  simpl in *. apply NoDup_cons in Hnd as [Hj Hnd].
  apply Forall_cons in Hin as [Hrj Hin].
  apply elem_of_cons in Hel as [Heq|Hel].
  - inversion Heq; subst j y. fold (assemble (<[Z.to_nat i := x]> slots) ws).
    rewrite assemble_lookup_other.
    + apply list_lookup_insert_eq. unfold inRange in Hrj. lia.
    + intros [k z] Hk Heq'. simpl in Heq'. apply Hj.
      rewrite Forall_forall in Hin.
      assert (inRange slots k) as Hrk.
      { apply Hin. apply list_elem_of_fmap. by exists (k, z). }
      unfold inRange in *. assert (k = i) as -> by lia.
      apply list_elem_of_fmap. by exists (i, z).
  - fold (assemble (<[Z.to_nat j := y]> slots) ws). apply IH; [done| |done].
    eapply Forall_impl; [exact Hin|]. unfold inRange. intros k.
    by rewrite length_insert.
Qed.

End Assemble.

(** [n] pairwise distinct indices below [n] are all of them. *)
Lemma distinct_indices_cover (l : list Z) (n : nat) :
  NoDup l → Forall (λ i, 0 ≤ i < Z.of_nat n) l → length l = n →
  ∀ i : nat, (i < n)%nat → Z.of_nat i ∈ l.
Proof.
  intros Hnd Hin Hlen i Hi.
  assert (l ⊆+ (Z.of_nat <$> seq 0 n)) as Hsub.
  { apply NoDup_submseteq; [done|]. intros k Hk.
    rewrite Forall_forall in Hin. specialize (Hin k Hk).
    apply list_elem_of_fmap. exists (Z.to_nat k). split; [lia|].
    apply elem_of_seq. lia. }
  apply submseteq_length_Permutation in Hsub.
  - rewrite Hsub. apply list_elem_of_fmap. exists i. split; [done|].
    apply elem_of_seq. lia.
  - rewrite length_fmap, length_seq. lia.
Qed.

(** ** The assembled signature vector *)

Section Vector.
Context `{V : EthValidator}.
Implicit Types (responses : list LabeledFollowerResponse) (rsp : LabeledFollowerResponse).

(** The validator indices of the responders, in the order of the list. *)
Definition indices responses : list Z := (λ rsp, indexOf (address rsp)) <$> responses.

(** The signature an accepted create response carries, as the round
    stores it. *)
Definition createSignatureOf rsp : option Signature :=
  match Response (response rsp) with
  | FollowerResponse_Create r =>
      if cf_Accepted r then fromRaw <$> cf_Signature r else None
  | _ => None
  end.

(** The same for an accepted unanimous response over the digest [unanHash]. *)
Definition unanimousSignatureOf (unanHash : Hash) rsp : option Signature :=
  match Response (response rsp) with
  | FollowerResponse_Unanimous r =>
      if uf_Accepted r && bool_decide (NewHashFromBuf (uf_AssertionHash r) = unanHash)
      then fromRaw <$> uf_Signature r else None
  | _ => None
  end.

(** A vector handed to the Bot is complete: one slot per validator, the
    coordinator's signature in its own slot, every response accepted and
    its signature in the responder's slot, and no slot left unwritten. *)
Definition assembled (signatures : list Signature) (own : Signature)
  responses (sigOf : LabeledFollowerResponse → option Signature) : Prop :=
  Z.of_nat (length signatures) = ValidatorCount ∧
  Z.of_nat (length responses) = ValidatorCount - 1 ∧
  signatures !! Z.to_nat (indexOf Val_Address) = Some own ∧
  (∀ rsp, rsp ∈ responses →
     ∃ s, sigOf rsp = Some s ∧
          signatures !! Z.to_nat (indexOf (address rsp)) = Some s) ∧
  (∀ i : nat, (i < length signatures)%nat →
     i = Z.to_nat (indexOf Val_Address) ∨
     ∃ rsp, rsp ∈ responses ∧ i = Z.to_nat (indexOf (address rsp))).

Lemma assembled_intro (own : Signature) responses (ss : list Signature) sigOf :
  let slots := make zeroSignature ValidatorCount in
  Z.of_nat (length responses) = ValidatorCount - 1 →
  inRange slots (indexOf Val_Address) →
  Forall (inRange slots) (indices responses) →
  Forall2 (λ rsp s, sigOf rsp = Some s) responses ss →
  NoDup (indexOf Val_Address :: indices responses) →
  assembled
    (assemble (<[Z.to_nat (indexOf Val_Address) := own]> slots)
       (zip (indices responses) ss))
    own responses sigOf.
Proof.
  intros slots Hlen Hown Hin Hss Hnd.
  pose proof ValidatorCount_nonneg as HN.
  assert (Z.of_nat (length slots) = ValidatorCount) as Hslots
    by (apply length_make; lia).
  assert ((zip (indices responses) ss).*1 = indices responses) as Hfst.
  { apply fst_zip. apply Forall2_length in Hss.
    unfold indices. rewrite length_fmap. lia. }
  apply NoDup_cons in Hnd as [Hown_ne Hnd].
  unfold inRange in Hown.
  repeat split.
  - rewrite assemble_length, length_insert. lia.
  - done.
  - rewrite assemble_lookup_other.
    + apply list_lookup_insert_eq. lia.
    + intros [k z] Hk Heq. simpl in Heq. apply Hown_ne.
      assert (k ∈ indices responses) as Hk'.
      { rewrite <- Hfst. apply list_elem_of_fmap. by exists (k, z). }
      rewrite Forall_forall in Hin. specialize (Hin k Hk').
      unfold inRange in Hin. by assert (indexOf Val_Address = k) as -> by lia.
  - intros rsp Hrsp.
    apply list_elem_of_lookup in Hrsp as [n Hn].
    destruct (Forall2_lookup_l _ _ _ _ _ Hss Hn) as (s & Hs & Hsig).
    exists s. split; [done|].
    apply assemble_lookup.
    + by rewrite Hfst.
    + rewrite Hfst. eapply Forall_impl; [exact Hin|].
      unfold inRange. intros k. by rewrite length_insert.
    + apply list_elem_of_lookup. exists n. apply lookup_zip_with_Some.
      exists (indexOf (address rsp)), s. repeat split; [|done].
      unfold indices. by rewrite list_lookup_fmap, Hn.
  - intros i Hi. rewrite assemble_length, length_insert in Hi.
    assert (Z.of_nat i ∈ indexOf Val_Address :: indices responses) as Hcov.
    { apply (distinct_indices_cover _ (length slots)).
      - by apply NoDup_cons.
      - apply Forall_cons. split; [exact Hown|exact Hin].
      - simpl. unfold indices. rewrite length_fmap. lia.
      - done. }
    apply elem_of_cons in Hcov as [Heq|Hcov]; [left; lia|right].
    apply list_elem_of_fmap in Hcov as (rsp & Heq & Hrsp).
    exists rsp. split; [done|lia].
Qed.

End Vector.

(** ** The create round *)

Section CreateProperties.
Context `{V : EthValidator}.
Implicit Types (responses : list LabeledFollowerResponse) (rsp : LabeledFollowerResponse).

(** The payload and the digest of the round, as [createVMImpl] builds them. *)
Definition createDataOf (env : CreateEnv) : CreateVMValidatorRequest := {|
  cv_Config := st_Config (stateData env);
  cv_VmId := NewHashBuf VmId;
  cv_VmState := NewHashBuf (st_MachineState (stateData env));
  cv_ChallengeManagerNum := 0 |}.

Definition createRequestOf (env : CreateEnv) : ValidatorRequest :=
  {| vr_RequestId := None; vr_Request := ValidatorRequest_Create (createDataOf env) |}.

Definition createNotification (allSigned : bool) : ValidatorRequest :=
  {| vr_RequestId := None;
     vr_Request := ValidatorRequest_CreateNotification {| Approved := allSigned |} |}.

Definition record (w : World) (events : list Event) : World :=
  {| trace := trace w ++ events; mpq := mpq w |}.

(** The three ways the loop over the responses ends. *)
Lemma createSignatures_cases responses : ∀ (signatures : list Signature) (w : World),
  (∃ ss, createSignatures responses signatures w
           = (w, Next (assemble signatures (zip (indices responses) ss))) ∧
         Forall (inRange signatures) (indices responses) ∧
         Forall2 (λ rsp s, createSignatureOf rsp = Some s) responses ss) ∨
  (createSignatures responses signatures w
     = (w, Return (false, Some "some Validators refused to sign")) ∧
   ∃ rsp r, rsp ∈ responses ∧ Response (response rsp) = FollowerResponse_Create r ∧
            cf_Accepted r = false) ∨
  (∃ why, createSignatures responses signatures w = (w, Panic why)).
Proof.
  induction responses as [|rsp responses IH]; intros signatures w.
  { left. exists []. simpl. repeat split; constructor. }
  simpl. destruct (Response (response rsp)) as [r|u] eqn:Hr;
    [|right; right; by eexists].
  destruct (cf_Accepted r) eqn:Hacc; simpl.
  2:{ right; left. split; [done|]. exists rsp, r. repeat split; [left|done..]. }
  destruct (cf_Signature r) as [s|] eqn:Hs; [|right; right; by eexists].
  unfold ctl_bind.
  destruct (store_inv (R:=Result) signatures (indexOf (address rsp)) (fromRaw s) w)
    as [[Hin ->]|[Hout ->]]; [|right; right; by eexists].
  destruct (IH (<[Z.to_nat (indexOf (address rsp)) := fromRaw s]> signatures) w)
    as [(ss & -> & Hrange & Hss)|[[-> (rsp' & r' & Hel & Hr' & Hacc')]|[why ->]]].
  - left. exists (fromRaw s :: ss). repeat split.
    + constructor; [done|]. eapply Forall_impl; [exact Hrange|].
      unfold inRange. intros k. by rewrite length_insert.
    + constructor; [|done]. unfold createSignatureOf. by rewrite Hr, Hacc, Hs.
  - right; left. split; [done|]. exists rsp', r'. repeat split; [by right|done..].
  - right; right. by eexists.
Qed.

(** Every way [createVMImpl] ends, with the events it leaves behind. *)
Lemma createVMImpl_cases (env : CreateEnv) (timeout : Z) (w : World) :
  let createHash := CreateVMHash (createDataOf env) in
  let begun := [WaitForFollowers timeout; Bot_RequestVMState;
                cm_gatherSignatures (createRequestOf env) createHash] in
  (gotAll env = false ∧
   createVMImpl env timeout w =
     (record w [WaitForFollowers timeout],
      Return (false,
        Some "coordinator can only create VM when connected to all other validators"))) ∨
  (gotAll env = true ∧
   Z.of_nat (length (createResponses env)) ≠ ValidatorCount - 1 ∧
   createVMImpl env timeout w =
     (record w (begun ++ [cm_broadcast (createNotification false)]),
      Return (false, Some "some Validators didn't respond"))) ∨
  (gotAll env = true ∧
   Z.of_nat (length (createResponses env)) = ValidatorCount - 1 ∧
   ∃ fl, createVMImpl env timeout w = (record w (begun ++ [Val_Sign createHash]), fl) ∧
         ((∃ why, fl = Panic why) ∨ (∃ e, fl = Return (false, Some e)))) ∨
  (gotAll env = true ∧
   Z.of_nat (length (createResponses env)) = ValidatorCount - 1 ∧
   inRange (make zeroSignature ValidatorCount) (indexOf Val_Address) ∧
   (Sign createHash).2 = None ∧
   ∃ ss, Forall (inRange (make zeroSignature ValidatorCount))
           (indices (createResponses env)) ∧
         Forall2 (λ rsp s, createSignatureOf rsp = Some s) (createResponses env) ss ∧
         createVMImpl env timeout w =
           (record w (begun ++
              [Val_Sign createHash;
               Val_CreateVM (createDataOf env)
                 (assemble
                    (<[Z.to_nat (indexOf Val_Address) := (Sign createHash).1]>
                       (make zeroSignature ValidatorCount))
                    (zip (indices (createResponses env)) ss))]),
            Return (true, createErr env))).
Proof.
  intros createHash begun. unfold createVMImpl, record, begun.
  unfold ctl_bind at 1. unfold emit at 1.
  destruct (gotAll env) eqn:Hgot; simpl; [right|by left].
  unfold ctl_bind, emit, notifyCreate, return_; simpl.
  fold (createDataOf env). fold createHash.
  case_bool_decide as Hlen; simpl.
  { left. repeat split; [done|]. by rewrite <- !app_assoc. }
  right.
  destruct (Sign createHash) as [sig err] eqn:Hsign; simpl.
  set (w1 := {| trace := _; mpq := _ |}).
  assert (w1 = record w (begun ++ [Val_Sign createHash])) as Hw1.
  { unfold w1, record, begun. by rewrite <- !app_assoc. }
  destruct (store_inv (R:=Result) (make zeroSignature ValidatorCount)
              (indexOf Val_Address) sig w1) as [[Hin ->]|[Hout ->]].
  2:{ left. repeat split; [done|]. eexists. split; [by rewrite Hw1|]. left. by eexists. }
  destruct err as [e|].
  { left. repeat split; [done|]. eexists. split; [by rewrite Hw1|]. right. by eexists. }
  destruct (createSignatures_cases (createResponses env)
              (<[Z.to_nat (indexOf Val_Address) := sig]>
                 (make zeroSignature ValidatorCount)) w1)
    as [(ss & -> & Hrange & Hss)|[[-> _]|[why ->]]].
  - right. do 2 (split; [done|]). split; [exact Hin|]. split; [done|].
    exists ss. split; [|split].
    + eapply Forall_impl; [exact Hrange|]. unfold inRange. intros k.
      by rewrite length_insert.
    + done.
    + unfold w1, createRequestOf. simpl. by rewrite <- !app_assoc.
  - left. repeat split; [done|]. eexists. split; [by rewrite Hw1|]. right. by eexists.
  - left. repeat split; [done|]. eexists. split; [by rewrite Hw1|]. left. by eexists.
Qed.

End CreateProperties.

(** ** The unanimous round *)

Section UnanimousProperties.
Context `{V : EthValidator}.
Implicit Types (responses : list LabeledFollowerResponse) (rsp : LabeledFollowerResponse).
Implicit Types (env : UnanimousEnv) (queued : list OffchainMessage).

(** The sequence number the round goes on with after the override. *)
Definition effectiveSequenceNum (u : UnanimousUpdateResults) : Z :=
  if bool_decide (0 < length (OutMsgs (uu_Assertion u)))%nat
  then MaxUint64 else uu_SequenceNum u.

(** The call of [m.Val.UnanimousAssertHash] and its result. *)
Definition assertHashEvent (u : UnanimousUpdateResults) : Event :=
  Val_UnanimousAssertHash (effectiveSequenceNum u) (uu_BeforeHash u) (uu_TimeBounds u)
    (uu_NewInboxHash u) (uu_OriginalInboxHash u) (uu_Assertion u).

Definition assertHashOf (u : UnanimousUpdateResults) : Hash * option error :=
  UnanimousAssertHash (effectiveSequenceNum u) (uu_BeforeHash u) (uu_TimeBounds u)
    (uu_NewInboxHash u) (uu_OriginalInboxHash u) (uu_Assertion u).

Definition unanimousRequestOf (req : UnanimousRequest)
  (requestMessages : list SignedMessage) : ValidatorRequest :=
  let data := UnanimousRequestData_ req in
  {| vr_RequestId := Some (NewHashBuf (UnanimousRequest_Hash req));
     vr_Request := ValidatorRequest_Unanimous {|
       uv_BeforeHash := NewHashBuf (ur_BeforeHash data);
       uv_BeforeInbox := NewHashBuf (ur_BeforeInbox data);
       uv_SequenceNum := ur_SequenceNum data;
       uv_TimeBounds := NewTimeBoundsBuf (ur_TimeBounds data);
       uv_SignedMessages := requestMessages |} |}.

Definition unanimousNotification (hashId : Hash)
  (msg : UnanimousAssertionValidatorNotification) : ValidatorRequest :=
  {| vr_RequestId := Some (NewHashBuf hashId);
     vr_Request := ValidatorRequest_UnanimousNotification msg |}.

(** Why the loop over the responses turned the round down. *)
Definition turnedDown (unanHash : Hash) responses (e : error) : Prop :=
  (e = "some Validators refused to sign" ∧
   ∃ rsp r, rsp ∈ responses ∧ Response (response rsp) = FollowerResponse_Unanimous r ∧
            uf_Accepted r = false) ∨
  (e = "some Validators signed the wrong assertion" ∧
   ∃ rsp r, rsp ∈ responses ∧ Response (response rsp) = FollowerResponse_Unanimous r ∧
            uf_Accepted r = true ∧ NewHashFromBuf (uf_AssertionHash r) ≠ unanHash).

Lemma turnedDown_cons unanHash rsp responses e :
  turnedDown unanHash responses e → turnedDown unanHash (rsp :: responses) e.
Proof.
  intros [[-> (x & r & ? & ? & ?)]|[-> (x & r & ? & ? & ? & ?)]]; [left|right];
    (split; [done|]); exists x, r; repeat split; try done; by right.
Qed.

(** The three ways the loop over the responses ends. *)
Lemma unanimousSignatures_cases hashId unanHash responses :
  ∀ (signatures : list Signature) (rawSignatures : list (option RawSignature)) (w : World),
  (∃ ss raws, unanimousSignatures hashId unanHash responses signatures rawSignatures w
                = (w, Next (assemble signatures (zip (indices responses) ss), raws)) ∧
              Forall (inRange signatures) (indices responses) ∧
              Forall2 (λ rsp s, unanimousSignatureOf unanHash rsp = Some s) responses ss) ∨
  (∃ e, unanimousSignatures hashId unanHash responses signatures rawSignatures w
          = (record w [cm_broadcast (unanimousNotification hashId rejected)],
             Return (false, Some e)) ∧
        turnedDown unanHash responses e) ∨
  (∃ why, unanimousSignatures hashId unanHash responses signatures rawSignatures w
            = (w, Panic why)).
Proof.
  induction responses as [|rsp responses IH]; intros signatures rawSignatures w.
  { left. exists [], rawSignatures. simpl. repeat split; constructor. }
  simpl. destruct (Response (response rsp)) as [c|r] eqn:Hr;
    [right; right; by eexists|].
  destruct (uf_Accepted r) eqn:Hacc; simpl.
  2:{ right; left. eexists. split; [done|]. left. split; [done|].
      exists rsp, r. repeat split; [left|done..]. }
  case_bool_decide as Hhash; simpl.
  { right; left. eexists. split; [done|]. right. split; [done|].
    exists rsp, r. repeat split; [left|done..]. }
  unfold ctl_bind.
  destruct (store_inv (R:=Result) rawSignatures (indexOf (address rsp)) (uf_Signature r) w)
    as [[Hin' ->]|[Hout' ->]]; [|right; right; by eexists].
  destruct (uf_Signature r) as [s|] eqn:Hs; [|right; right; by eexists].
  destruct (store_inv (R:=Result) signatures (indexOf (address rsp)) (fromRaw s) w)
    as [[Hin ->]|[Hout ->]]; [|right; right; by eexists].
  destruct (IH (<[Z.to_nat (indexOf (address rsp)) := fromRaw s]> signatures)
              (<[Z.to_nat (indexOf (address rsp)) := Some s]> rawSignatures) w)
    as [(ss & raws & -> & Hrange & Hss)|[(e & -> & Hdown)|[why ->]]].
  - left. exists (fromRaw s :: ss), raws. repeat split.
    + constructor; [done|]. eapply Forall_impl; [exact Hrange|].
      unfold inRange. intros k. by rewrite length_insert.
    + constructor; [|done]. unfold unanimousSignatureOf.
      rewrite Hr, Hacc, Hs. simpl. by rewrite bool_decide_true.
  - right; left. exists e. split; [done|]. by apply turnedDown_cons.
  - right; right. by eexists.
Qed.

(** The round once the request went out to the followers. *)
Inductive AfterRequest env (req : UnanimousRequest)
  : list Event → Flow Result Result → Prop :=
| round_results_error err :
    botResults env = inr err →
    AfterRequest env req
      [cm_broadcast (unanimousNotification (UnanimousRequest_Hash req) rejected)]
      (Return (false, Some err))
| round_hash_error u h e :
    botResults env = inl u → assertHashOf u = (h, Some e) →
    AfterRequest env req
      [assertHashEvent u;
       cm_broadcast (unanimousNotification (UnanimousRequest_Hash req) rejected)]
      (Return (false, Some e))
| round_sign_error u h sig e :
    botResults env = inl u → assertHashOf u = (h, None) → Sign h = (sig, Some e) →
    AfterRequest env req
      [assertHashEvent u; Val_Sign h;
       cm_broadcast (unanimousNotification (UnanimousRequest_Hash req) rejected)]
      (Return (false, Some e))
| round_no_quorum u h sig :
    botResults env = inl u → assertHashOf u = (h, None) → Sign h = (sig, None) →
    Z.of_nat (length (unanResponses env)) ≠ ValidatorCount - 1 →
    AfterRequest env req
      [assertHashEvent u; Val_Sign h;
       cm_broadcast (unanimousNotification (UnanimousRequest_Hash req) rejected)]
      (Return (false, Some "some Validators didn't respond"))
| round_panic u h sig why :
    botResults env = inl u → assertHashOf u = (h, None) → Sign h = (sig, None) →
    Z.of_nat (length (unanResponses env)) = ValidatorCount - 1 →
    AfterRequest env req [assertHashEvent u; Val_Sign h] (Panic why)
| round_turned_down u h sig e :
    botResults env = inl u → assertHashOf u = (h, None) → Sign h = (sig, None) →
    Z.of_nat (length (unanResponses env)) = ValidatorCount - 1 →
    turnedDown h (unanResponses env) e →
    AfterRequest env req
      [assertHashEvent u; Val_Sign h;
       cm_broadcast (unanimousNotification (UnanimousRequest_Hash req) rejected)]
      (Return (false, Some e))
| round_confirmed u h sig ss raws :
    botResults env = inl u → assertHashOf u = (h, None) → Sign h = (sig, None) →
    Z.of_nat (length (unanResponses env)) = ValidatorCount - 1 →
    inRange (make zeroSignature ValidatorCount) (indexOf Val_Address) →
    Forall (inRange (make zeroSignature ValidatorCount)) (indices (unanResponses env)) →
    Forall2 (λ rsp s, unanimousSignatureOf h rsp = Some s) (unanResponses env) ss →
    AfterRequest env req
      [assertHashEvent u; Val_Sign h;
       cm_broadcast (unanimousNotification (UnanimousRequest_Hash req)
                       {| un_Accepted := true; un_Signatures := raws |});
       Bot_ConfirmOffchainUnanimousAssertion (UnanimousRequestData_ req)
         (assemble (<[Z.to_nat (indexOf Val_Address) := sig]>
                      (make zeroSignature ValidatorCount))
            (zip (indices (unanResponses env)) ss))]
      (match botConfirm env with
       | Some e => Return (false, Some e)
       | None => Return (bool_decide (effectiveSequenceNum u = MaxUint64), None)
       end).

(** Every way [_initiateUnanimousAssertionImpl] ends: the events of the
    round in program order and how it returned. *)
Inductive UnanimousOutcome env queued (forceFinal : bool)
  : list Event → Flow Result Result → Prop :=
| round_bot_error err :
    botRequest env = inr err →
    UnanimousOutcome env queued forceFinal
      [Bot_InitiateUnanimousRequest 10000 (om_Message <$> queued) forceFinal]
      (Return (false, Some err))
| round_index_panic req :
    botRequest env = inl req →
    signMessages queued 0 (NewMessages req) [] = None →
    UnanimousOutcome env queued forceFinal
      [Bot_InitiateUnanimousRequest 10000 (om_Message <$> queued) forceFinal]
      (Panic "index out of range")
| round_requested req rm evs fl :
    botRequest env = inl req →
    signMessages queued 0 (NewMessages req) [] = Some rm →
    AfterRequest env req evs fl →
    UnanimousOutcome env queued forceFinal
      (Bot_InitiateUnanimousRequest 10000 (om_Message <$> queued) forceFinal ::
       cm_gatherSignatures (unanimousRequestOf req rm) (UnanimousRequest_Hash req) :: evs)
      fl.


(** Closes the goal that a run left the world it is claimed to leave. *)
Ltac same_world :=
  unfold ctl_bind, notifyUnanimous, emit, return_, record; simpl;
  rewrite <- ?app_assoc; reflexivity.

Lemma _initiateUnanimousAssertionImpl_outcome env queued forceFinal (w : World) :
  ∃ evs fl,
    _initiateUnanimousAssertionImpl env queued forceFinal w = (record w evs, fl) ∧
    UnanimousOutcome env queued forceFinal evs fl.
Proof.
  unfold _initiateUnanimousAssertionImpl.
  unfold ctl_bind at 1. unfold emit at 1.
  destruct (botRequest env) as [req|err] eqn:Hreq.
  2:{ eexists _, _. split; [reflexivity|]. by constructor. }
  destruct (signMessages queued 0 (NewMessages req) []) as [rm|] eqn:Hrm.
  2:{ eexists _, _. split; [reflexivity|]. by eapply round_index_panic. }
  unfold ctl_bind at 1. unfold emit at 1.
  fold (unanimousRequestOf req rm).
  set (hashId := UnanimousRequest_Hash req).
  destruct (botResults env) as [u|err] eqn:Hres.
  2:{ eexists _, _. split; [same_world|].
      eapply round_requested; [done..|]. by constructor. }
  cbv zeta. fold (effectiveSequenceNum u). fold (assertHashEvent u). fold (assertHashOf u).
  unfold ctl_bind at 1. unfold emit at 1.
  destruct (assertHashOf u) as [h [e|]] eqn:Hh.
  { eexists _, _. split; [same_world|].
    eapply round_requested; [done..|]. by eapply round_hash_error. }
  unfold ctl_bind at 1. unfold emit at 1.
  destruct (Sign h) as [sig [e|]] eqn:Hsig.
  { eexists _, _. split; [same_world|].
    eapply round_requested; [done..|]. by eapply round_sign_error. }
  case_bool_decide as Hlen.
  { eexists _, _. split; [same_world|].
    eapply round_requested; [done..|]. by eapply round_no_quorum. }
  set (w2 := {| trace := _; mpq := _ |}).
  assert (∀ evs, record w2 evs =
    record w (Bot_InitiateUnanimousRequest 10000 (om_Message <$> queued) forceFinal ::
              cm_gatherSignatures (unanimousRequestOf req rm) hashId ::
              assertHashEvent u :: Val_Sign h :: evs)) as Hw2.
  { intros evs. unfold record, w2. simpl. by rewrite <- !app_assoc. }
  assert (w2 = record w2 []) as Hw2'.
  { unfold record. destruct w2. simpl. by rewrite app_nil_r. }
  unfold ctl_bind at 1.
  destruct (store_inv (R:=Result) (make zeroSignature ValidatorCount)
              (indexOf Val_Address) sig w2) as [[Hin ->]|[Hout ->]].
  2:{ eexists _, _. split; [by rewrite Hw2', Hw2|].
      eapply round_requested; [done..|]. by eapply round_panic. }
  unfold ctl_bind at 1.
  destruct (store_inv (R:=Result) (make (None : option RawSignature) ValidatorCount)
              (indexOf Val_Address) (Some (toRaw sig)) w2) as [[Hin' ->]|[Hout' ->]].
  2:{ eexists _, _. split; [by rewrite Hw2', Hw2|].
      eapply round_requested; [done..|]. by eapply round_panic. }
  unfold ctl_bind at 1.
  destruct (unanimousSignatures_cases hashId h (unanResponses env)
              (<[Z.to_nat (indexOf Val_Address) := sig]>
                 (make zeroSignature ValidatorCount))
              (<[Z.to_nat (indexOf Val_Address) := Some (toRaw sig)]>
                 (make None ValidatorCount)) w2)
    as [(ss & raws & -> & Hrange & Hss)|[(e & -> & Hdown)|[why ->]]].
  - eexists _, _. split.
    2:{ eapply round_requested; [done..|].
        eapply (round_confirmed _ _ u h sig ss raws); try done.
        eapply Forall_impl; [exact Hrange|]. unfold inRange. intros k.
        by rewrite length_insert. }
    unfold ctl_bind, notifyUnanimous, emit, return_. simpl.
    destruct (botConfirm env); simpl; rewrite <- Hw2; unfold record; simpl;
      by rewrite <- !app_assoc.
  - eexists _, _. split; [by rewrite Hw2|].
    eapply round_requested; [done..|]. by eapply round_turned_down.
  - eexists _, _. split; [by rewrite Hw2', Hw2|].
    eapply round_requested; [done..|]. by eapply round_panic.
Qed.


(** What [initiateUnanimousAssertionImpl] makes of the way its round ended:
    the batch goes back on an error, the channel is closed when the round
    was final.  A panic ends the goroutine where it stands. *)
Definition concluded env (w : World) (evs : list Event) (fl : Flow Result Result)
  : World * Flow Result Result :=
  let queued := MessageProcessingQueue.queuedMessages (mpq w) in
  let after (more : list Event) (q : list OffchainMessage) : World :=
    {| trace := trace w ++ mpq_Fetch :: evs ++ more;
       mpq := MessageProcessingQueue.Build q |} in
  match fl with
  | Panic why => (after [] [], Panic why)
  | Next (_, Some e) | Return (_, Some e) =>
      (after [mpq_Return queued] (queued ++ arrivals env), Return (false, Some e))
  | Next (true, None) | Return (true, None) =>
      (after [Bot_CloseUnanimousAssertionRequest] (arrivals env),
       Return (botClosed env, None))
  | Next (false, None) | Return (false, None) =>
      (after [] (arrivals env), Return (true, None))
  end.

Lemma initiateUnanimousAssertionImpl_outcome env forceFinal (w : World) :
  ∃ evs fl,
    UnanimousOutcome env (MessageProcessingQueue.queuedMessages (mpq w)) forceFinal evs fl ∧
    initiateUnanimousAssertionImpl env forceFinal w = concluded env w evs fl.
Proof.
  unfold initiateUnanimousAssertionImpl, ctl_bind at 1 2 3, emit at 1, ask at 1, call.
  simpl.
  set (w1 := {| trace := trace w ++ [mpq_Fetch]; mpq := _ |}).
  destruct (_initiateUnanimousAssertionImpl_outcome env
              (MessageProcessingQueue.queuedMessages (mpq w)) forceFinal w1)
    as (evs & fl & -> & Hout).
  exists evs, fl. split; [done|].
  assert (∀ more, (trace w ++ [mpq_Fetch]) ++ evs ++ more
                  = trace w ++ mpq_Fetch :: evs ++ more) as Happ.
  { intros more. by rewrite <- app_assoc. }
  unfold concluded, concurrentSends, ctl_bind, ask, emit, return_, record.
  destruct fl as [[[] [e|]]|[[] [e|]]|why]; simpl;
    rewrite ?serve_sends; simpl;
    rewrite ?app_nil_r, <- ?app_assoc, ?Happ; try reflexivity.
  all: by rewrite <- (Happ []), app_nil_r.
Qed.

End UnanimousProperties.

(** ** Finalized rounds *)

(** Splits a membership in an explicit list of events into its cases and
    drops the ones whose constructors differ. *)
Ltac in_trace H :=
  simpl in H;
  repeat (apply elem_of_cons in H as [H|H]; [try discriminate H|]);
  try (by apply elem_of_nil in H).

(** Finds an event in an explicit list of events. *)
Ltac has_event :=
  simpl; first [ apply list_elem_of_here | apply list_elem_of_further; has_event ].

Section Finalized.
Context `{V : EthValidator}.

(** A create notification is only ever broadcast for a round that fell
    short of responses, and then with [Approved = false]: neither a
    refusal nor a created VM is announced. *)
Lemma createVMImpl_notifies_only_shortfall (env : CreateEnv) (timeout : Z)
  (q : list OffchainMessage) (req : ValidatorRequest) :
  cm_broadcast req ∈ trace (createVMImpl env timeout (start q)).1 →
  req = createNotification false ∧
  Z.of_nat (length (createResponses env)) ≠ ValidatorCount - 1.
Proof.
  intros Hin.
  destruct (createVMImpl_cases env timeout (start q))
    as [[_ Heq]|[(_ & Hlen & Heq)|[(_ & _ & fl & Heq & _)|
        (_ & _ & _ & _ & ss & _ & _ & Heq)]]];
    rewrite Heq in Hin; in_trace Hin.
  split; [congruence|done].
Qed.

(** [C1, as amended]  A round that reaches [Bot.CreateVM], or
    [Bot.ConfirmOffchainUnanimousAssertion], does so with exactly N-1
    responses, all accepted; when moreover the responders' validator
    indices are pairwise distinct and differ from the coordinator's own,
    the vector handed over has length N, holds the coordinator's signature
    at its own index and each response's signature at the responder's
    index, and every one of its N slots was written. *)
Theorem finalized_vector_complete :
  (∀ (env : CreateEnv) timeout q createData signatures,
     Val_CreateVM createData signatures ∈ trace (createVMImpl env timeout (start q)).1 →
     NoDup (indexOf Val_Address :: indices (createResponses env)) →
     assembled signatures (Sign (CreateVMHash createData)).1
       (createResponses env) createSignatureOf) ∧
  (∀ (env : UnanimousEnv) queued forceFinal q data signatures,
     Bot_ConfirmOffchainUnanimousAssertion data signatures
       ∈ trace (_initiateUnanimousAssertionImpl env queued forceFinal (start q)).1 →
     NoDup (indexOf Val_Address :: indices (unanResponses env)) →
     ∃ u h, botResults env = inl u ∧ assertHashOf u = (h, None) ∧
            assembled signatures (Sign h).1 (unanResponses env) (unanimousSignatureOf h)).
Proof.
  split.
  - intros env timeout q createData signatures Hin Hnd.
    destruct (createVMImpl_cases env timeout (start q))
      as [[_ Heq]|[(_ & Hlen & Heq)|[(_ & _ & fl & Heq & _)|
          (_ & Hlen & Hown & Hsign & ss & Hrange & Hss & Heq)]]];
      rewrite Heq in Hin; in_trace Hin.
    injection Hin as -> ->. by apply assembled_intro.
  - intros env queued forceFinal q data signatures Hin Hnd.
    destruct (_initiateUnanimousAssertionImpl_outcome env queued forceFinal (start q))
      as (evs & fl & Heq & Hout).
    rewrite Heq in Hin. clear Heq.
    destruct Hout as [| |req rm evs fl Hreq Hrm Hafter]; in_trace Hin.
    destruct Hafter as
      [| | | | | |u h sig ss raws Hres Hh Hsig Hlen Hown Hrange Hss]; in_trace Hin.
    injection Hin as -> ->. exists u, h. do 2 (split; [done|]).
    replace sig with (Sign h).1 by (by rewrite Hsig).
    by apply assembled_intro.
Qed.

(** [C8]  When [WaitForFollowers] reports that not every other validator
    is connected, [createVMImpl] returns the error about it at once: the
    call of [WaitForFollowers] is the only thing it has done, so nothing
    was broadcast and the Bot was not consulted. *)
Theorem createVMImpl_requires_followers (env : CreateEnv) (timeout : Z) (w : World) :
  gotAll env = false →
  createVMImpl env timeout w =
    (record w [WaitForFollowers timeout],
     Return (false,
       Some "coordinator can only create VM when connected to all other validators")).
Proof.
  intros Hgot.
  destruct (createVMImpl_cases env timeout w)
    as [[_ Heq]|[(? & _)|[(? & _)|(? & _)]]]; [done|congruence..].
Qed.

End Finalized.

(** ** How a unanimous round ends *)

Section UnanimousEnd.
Context `{V : EthValidator}.
Implicit Types (env : UnanimousEnv) (q : list OffchainMessage).

(** [C5]  In a unanimous round that was confirmed, the one digest the
    coordinator computes is taken over the sequence number after the
    override, which is [MaxUint64] as soon as the Bot's results carry an
    outgoing message.  When that number is [MaxUint64] the round counts as
    final: [Bot.CloseUnanimousAssertionRequest] is called and its answer is
    what the caller gets; otherwise the caller gets [true] and the channel
    is not closed. *)
Theorem outgoing_messages_force_final env (forceFinal : bool) q (r : bool)
  (u : UnanimousUpdateResults) :
  (initiateUnanimousAssertionImpl env forceFinal (start q)).2 = Return (r, None) →
  botResults env = inl u →
  let events := trace (initiateUnanimousAssertionImpl env forceFinal (start q)).1 in
  ((0 < length (OutMsgs (uu_Assertion u)))%nat → effectiveSequenceNum u = MaxUint64) ∧
  ((length (OutMsgs (uu_Assertion u)) = 0)%nat →
     effectiveSequenceNum u = uu_SequenceNum u) ∧
  (∀ s b t i o a, (Val_UnanimousAssertHash s b t i o a) ∈ events →
     Val_UnanimousAssertHash s b t i o a = assertHashEvent u) ∧
  (∃ h, assertHashOf u = (h, None) ∧ Val_Sign h ∈ events) ∧
  (∃ data signatures, Bot_ConfirmOffchainUnanimousAssertion data signatures ∈ events) ∧
  (effectiveSequenceNum u = MaxUint64 →
     Bot_CloseUnanimousAssertionRequest ∈ events ∧ r = botClosed env) ∧
  (effectiveSequenceNum u ≠ MaxUint64 →
     (Bot_CloseUnanimousAssertionRequest ∉ events) ∧ r = true).
Proof.
  intros Hret Hres events. unfold events. clear events.
  destruct (initiateUnanimousAssertionImpl_outcome env forceFinal (start q))
    as (evs & fl & Hout & Heq).
  rewrite Heq in Hret |- *. clear Heq.
  split; [|split].
  { intros Hlen. unfold effectiveSequenceNum. by rewrite bool_decide_true. }
  { intros Hlen. unfold effectiveSequenceNum. rewrite bool_decide_false; [done|lia]. }
  destruct Hout as [err Hreq| |req rm evs fl Hreq Hrm Hafter];
    [simpl in Hret; discriminate..|].
  destruct Hafter as [| | | | | |u' h sig ss raws Hres' Hh Hsig Hlen Hown Hrange Hss];
    try (simpl in Hret; discriminate).
  assert (u' = u) as -> by congruence.
  destruct (botConfirm env) as [e|]; [simpl in Hret; discriminate|].
  unfold concluded in *.
  destruct (bool_decide (effectiveSequenceNum u = MaxUint64)) eqn:Hfinal;
    simpl in Hret |- *; injection Hret as <-.
  - apply bool_decide_eq_true in Hfinal. repeat split; try done.
    + intros s b t i o a Hin. by in_trace Hin.
    + exists h. split; [done|has_event].
    + eexists _, _. has_event.
    + has_event.
  - apply bool_decide_eq_false in Hfinal. repeat split; try done.
    + intros s b t i o a Hin. by in_trace Hin.
    + exists h. split; [done|has_event].
    + eexists _, _. has_event.
    + intros Hin. in_trace Hin.
Qed.


Lemma concluded_error env (w : World) (evs : list Event) (x : bool) (e : error) :
  concluded env w evs (Return (x, Some e)) =
    ({| trace := trace w ++ mpq_Fetch :: evs ++
                   [mpq_Return (MessageProcessingQueue.queuedMessages (mpq w))];
        mpq := MessageProcessingQueue.Build
                 (MessageProcessingQueue.queuedMessages (mpq w) ++ arrivals env) |},
     Return (false, Some e)).
Proof. by destruct x. Qed.

(** Why a round whose request had gone out to the followers failed before
    it came to the confirmation. *)
Definition failedAfterRequest env (e : error) : Prop :=
  botResults env = inr e ∨
  ∃ u h, botResults env = inl u ∧
    (assertHashOf u = (h, Some e) ∨
     assertHashOf u = (h, None) ∧
       ((Sign h).2 = Some e ∨
        (e = "some Validators didn't respond" ∧
         Z.of_nat (length (unanResponses env)) ≠ ValidatorCount - 1) ∨
        turnedDown h (unanResponses env) e)).

(** [C4, as amended]  When a unanimous round ends with an error, the
    caller gets [false] with that error, and the batch fetched at the start
    of the round is given back to the queue, where it stands in front of
    the messages sent meanwhile; so [HasMessages] afterwards answers [true]
    whenever the batch was not empty.  If the Bot's error came before it
    delivered the request, nothing is broadcast to the followers.
    Otherwise, unless the failure is that of the confirmation itself, the
    round failed for a Bot error on the results, a failed digest or
    signature, fewer than N-1 responses, a refusal or a disagreeing
    assertion hash, and the only notification broadcast is the one with
    [Accepted = false] under the round's id. *)
Theorem failed_round_returns_batch env (forceFinal : bool) q (b : bool) (e : error) :
  (initiateUnanimousAssertionImpl env forceFinal (start q)).2 = Return (b, Some e) →
  let w' := (initiateUnanimousAssertionImpl env forceFinal (start q)).1 in
  b = false ∧
  mpq_Return q ∈ trace w' ∧
  MessageProcessingQueue.queuedMessages (mpq w') = q ++ arrivals env ∧
  (q ≠ [] →
     (MessageProcessingQueue.run (mpq w') MessageProcessingQueue.ReqHasMessages).2
     = Some (MessageProcessingQueue.Flag true)) ∧
  ((botRequest env = inr e ∧ ∀ r, cm_broadcast r ∉ trace w') ∨
   (∃ req, botRequest env = inl req ∧
      ((botConfirm env = Some e ∧
        ∃ data signatures,
          Bot_ConfirmOffchainUnanimousAssertion data signatures ∈ trace w') ∨
       (failedAfterRequest env e ∧
        cm_broadcast (unanimousNotification (UnanimousRequest_Hash req) rejected)
          ∈ trace w' ∧
        ∀ r, cm_broadcast r ∈ trace w' →
             r = unanimousNotification (UnanimousRequest_Hash req) rejected)))).
Proof.
  intros Hret w'. unfold w'. clear w'.
  destruct (initiateUnanimousAssertionImpl_outcome env forceFinal (start q))
    as (evs & fl & Hout & Heq).
  rewrite Heq in Hret |- *. clear Heq. simpl in Hout.
  assert (q ≠ [] → bool_decide (0 < length (q ++ arrivals env))%nat = true) as Hhas.
  { destruct q; [done|]. intros _. apply bool_decide_eq_true. simpl. lia. }
  assert (∃ x, fl = Return (x, Some e)) as [x ->].
  { destruct Hout as [| |req rm evs fl Hreq Hrm Hafter]; [| |destruct Hafter];
      try (simpl in Hret; discriminate);
      try (simpl in Hret; injection Hret as <- <-; by eexists).
    destruct (botConfirm env) as [e'|];
      [simpl in Hret; injection Hret as <- <-; by eexists|].
    simpl in Hret.
    destruct (bool_decide (effectiveSequenceNum u = MaxUint64)); discriminate. }
  rewrite concluded_error in Hret |- *.
  simpl in Hret. injection Hret as <-. simpl.
  split; [done|]. split.
  { apply list_elem_of_further, elem_of_app. right. left. }
  split; [done|]. split; [intros Hq; by rewrite (Hhas Hq)|].
  inversion Hout as [err Hreq| |req rm evs' fl' Hreq Hrm Hafter]; subst.
  { left. split; [done|]. intros r Hin. in_trace Hin. }
  right. exists req. split; [done|].
  inversion Hafter as
    [err Hres|u h e' Hres Hh|u h sig e' Hres Hh Hsig|u h sig Hres Hh Hsig Hlen| |
     u h sig e' Hres Hh Hsig Hlen Hdown|u h sig ss raws Hres Hh Hsig Hlen Hown Hrange Hss];
    subst.
  - right. split; [by left|]. split; [has_event|]. intros r Hin. in_trace Hin. congruence.
  - right. split; [right; exists u, h; split; [done|by left]|].
    split; [has_event|]. intros r Hin. in_trace Hin. congruence.
  - right. split.
    { right. exists u, h. split; [done|]. right. split; [done|]. left. by rewrite Hsig. }
    split; [has_event|]. intros r Hin. in_trace Hin. congruence.
  - right. split.
    { right. exists u, h. split; [done|]. right. split; [done|]. right. by left. }
    split; [has_event|]. intros r Hin. in_trace Hin. congruence.
  - right. split.
    { right. exists u, h. split; [done|]. right. split; [done|]. right. by right. }
    split; [has_event|]. intros r Hin. in_trace Hin. congruence.
  - left.
    match goal with H : _ = Return (x, Some e) |- _ => rename H into Hfl end.
    destruct (botConfirm env) as [e'|] eqn:Hconf.
    + injection Hfl as <- <-. split; [done|]. eexists _, _. has_event.
    + destruct (bool_decide (effectiveSequenceNum u = MaxUint64)); discriminate.
Qed.

End UnanimousEnd.

(** ** Gathering signatures *)

Section Gathering.
Context `{V : EthValidator}.
Import ClientManager.
Implicit Types (sel pre suf : list selected) (acc got : list LabeledFollowerResponse).

(** The values a returned run of the loop has consumed: the responses it
    returns, in order, and then the timer if that is what ended it. *)
Definition consumed (out : gathered) : list selected :=
  (fromResponseChan <$> responseList out) ++ (if timedOut out then [fromTimer] else []).

Lemma gatherLoop_returned (n : Z) sel : ∀ acc out,
  gatherLoop n sel acc false = Some out →
  ∃ got, responseList out = acc ++ got ∧
    sel = (fromResponseChan <$> got) ++ (if timedOut out then [fromTimer] else [])
          ++ unread out ∧
    (timedOut out = false → Z.of_nat (length (responseList out)) = n) ∧
    (∀ pre suf,
       (fromResponseChan <$> got) ++ (if timedOut out then [fromTimer] else [])
         = pre ++ suf →
       suf ≠ [] → gatherLoop n pre acc false = None).
Proof.
  induction sel as [|s sel IH]; intros acc out Hout; [done|].
  simpl in Hout. destruct s as [r|].
  - case_bool_decide as Hn; simpl in Hout.
    + injection Hout as <-. simpl. exists [r]. repeat split; [done|].
      intros [|x pre] suf Heq Hsuf; [done|].
      injection Heq as _ Heq. by destruct pre, suf.
    + destruct (IH _ _ Hout) as (got & Hlist & Hsel & Hfull & Hwait).
      exists (r :: got). repeat split.
      * by rewrite Hlist, <- app_assoc.
      * by rewrite Hsel.
      * done.
      * intros [|x pre] suf Heq Hsuf; [done|].
        simpl in Heq. injection Heq as <- Heq. simpl.
        rewrite bool_decide_false by done. simpl. by eapply Hwait.
  - simpl in Hout. rewrite orb_true_r in Hout. injection Hout as <-. simpl.
    exists []. repeat split; [by rewrite app_nil_r|done|].
    intros [|x pre] suf Heq Hsuf; [done|].
    injection Heq as _ Heq. by destruct pre, suf.
Qed.

(** Once the timer has fired the loop returns, whatever arrived before. *)
Lemma gatherLoop_timer (n : Z) (rs : list LabeledFollowerResponse) sel : ∀ acc,
  is_Some (gatherLoop n ((fromResponseChan <$> rs) ++ fromTimer :: sel) acc false).
Proof.
  induction rs as [|r rs IH]; intros acc; simpl.
  - rewrite orb_true_r. by eexists.
  - case_bool_decide; simpl; [by eexists|apply IH].
Qed.

(** With N-1 responses in, and at least one follower, the loop returns
    them at once. *)
Lemma gatherLoop_full (n : Z) (rs : list LabeledFollowerResponse) sel : ∀ acc,
  Z.of_nat (length acc) < n →
  Z.of_nat (length acc + length rs) = n →
  gatherLoop n ((fromResponseChan <$> rs) ++ sel) acc false
    = Some {| responseList := acc ++ rs; timedOut := false; unread := sel |}.
Proof.
  induction rs as [|r rs IH]; intros acc Hacc Hlen; simpl in *; [lia|].
  case_bool_decide as Hn; simpl.
  - rewrite length_app in Hn. simpl in Hn.
    assert (rs = []) as -> by (destruct rs; [done|simpl in Hlen; lia]).
    done.
  - rewrite length_app in Hn. simpl in Hn.
    rewrite IH; [by rewrite <- app_assoc| |]; rewrite length_app; simpl; lia.
Qed.

(** With fewer than N-1 responses in, the loop returns them when the timer
    fires, and not before. *)
Lemma gatherLoop_short (n : Z) (rs : list LabeledFollowerResponse) sel : ∀ acc,
  Z.of_nat (length acc + length rs) < n →
  gatherLoop n ((fromResponseChan <$> rs) ++ fromTimer :: sel) acc false
    = Some {| responseList := acc ++ rs; timedOut := true; unread := sel |} ∧
  gatherLoop n (fromResponseChan <$> rs) acc false = None.
Proof.
  induction rs as [|r rs IH]; intros acc Hlen.
  - simpl. by rewrite orb_true_r, app_nil_r.
  - simpl in Hlen.
    destruct (IH (acc ++ [r])) as [Hfired Hwaits]; [rewrite length_app; simpl; lia|].
    rewrite <- app_assoc in Hfired. simpl.
    rewrite bool_decide_false by (rewrite length_app; simpl; lia). simpl.
    split; [exact Hfired|exact Hwaits].
Qed.

(** The clock at the [select]s of the loop: what each one received and how
    long after [time.NewTimer] it was received, in nanoseconds.  The loop
    does not look at the clock; a timer made by [time.NewTimer(d)] sends
    on its channel after at least [d]. *)
Definition timerKept (run : list (Z * selected)) : Prop :=
  ∀ t, (t, fromTimer) ∈ run → gatherTimer ≤ t.

(** A unanimous round that gets as far as reading the gathered list, and
    finds it short, ends with the error about it. *)
Lemma unanimous_no_quorum (env : UnanimousEnv) (queued : list OffchainMessage)
  (forceFinal : bool) (w : World) req rm u h :
  botRequest env = inl req →
  signMessages queued 0 (NewMessages req) [] = Some rm →
  botResults env = inl u → assertHashOf u = (h, None) → (Sign h).2 = None →
  Z.of_nat (length (unanResponses env)) ≠ ValidatorCount - 1 →
  (_initiateUnanimousAssertionImpl env queued forceFinal w).2
    = Return (false, Some "some Validators didn't respond").
Proof.
  intros Hreq Hrm Hres Hh Hsig Hlen.
  destruct (_initiateUnanimousAssertionImpl_outcome env queued forceFinal w)
    as (evs & fl & -> & Hout). simpl.
  destruct Hout as [| |req' rm' evs fl Hreq' Hrm' Hafter]; [congruence..|].
  destruct Hafter as
    [err Hres'|u' h' e' Hres' Hh'|u' h' sig e' Hres' Hh' Hsig'|
     u' h' sig Hres' Hh' Hsig' Hlen'|u' h' sig why Hres' Hh' Hsig' Hlen'|
     u' h' sig e' Hres' Hh' Hsig' Hlen'|u' h' sig ss raws Hres' Hh' Hsig' Hlen'];
    try congruence.
  assert (u' = u) as -> by congruence.
  assert (h' = h) as -> by congruence.
  rewrite Hsig' in Hsig. discriminate.
Qed.

(** What stops a unanimous round before it reads the gathered list: the
    Bot's error in place of the results, a failed digest, a failed
    signature. *)
Definition stoppedEarly (env : UnanimousEnv) (e : error) : Prop :=
  botResults env = inr e ∨
  ∃ u h, botResults env = inl u ∧
    (assertHashOf u = (h, Some e) ∨
     (assertHashOf u = (h, None) ∧ (Sign h).2 = Some e)).

(** Such a round ends with that error, whatever was gathered. *)
Lemma unanimous_stopped_early (env : UnanimousEnv) (queued : list OffchainMessage)
  (forceFinal : bool) (w : World) req rm (e : error) :
  botRequest env = inl req →
  signMessages queued 0 (NewMessages req) [] = Some rm →
  stoppedEarly env e →
  (_initiateUnanimousAssertionImpl env queued forceFinal w).2 = Return (false, Some e).
Proof.
  intros Hreq Hrm Hearly.
  destruct (_initiateUnanimousAssertionImpl_outcome env queued forceFinal w)
    as (evs & fl & -> & Hout). simpl.
  destruct Hout as [| |req' rm' evs fl Hreq' Hrm' Hafter]; [congruence..|].
  destruct Hearly as [Hres|(u & h & Hres & [Hh|[Hh Hsig]])];
    destruct Hafter as
      [err Hres'|u' h' e' Hres' Hh'|u' h' sig e' Hres' Hh' Hsig'|
       u' h' sig Hres' Hh' Hsig' Hlen'|u' h' sig why Hres' Hh' Hsig' Hlen'|
       u' h' sig e' Hres' Hh' Hsig' Hlen' Hdown|
       u' h' sig ss raws Hres' Hh' Hsig' Hlen'];
    try congruence.
  all: assert (u' = u) as -> by congruence.
  all: assert (h' = h) as -> by congruence.
  all: rewrite Hsig' in Hsig; simpl in Hsig; congruence.
Qed.

(** [C7]  [gatherSignatures] returns when N-1 responses are in or when its
    one timer has fired, and at no other time.  With at least one
    follower, N-1 responses make it return exactly these, whatever is
    still to come; fewer than N-1 responses followed by the timer make it
    return exactly these, and without the timer it goes on waiting.  The
    timer ends the loop at once, whatever arrived before: there is no
    second wait.  Whenever it returns, what it consumed is the responses
    it returns, in order, followed by the timer if it timed out; without
    a timeout it returns exactly N-1 responses, and never more than N-1
    when there is a follower; it did not return on any shorter run of
    what it received.  The timer is armed for twenty seconds: a short
    list is returned at the [select] that received the timer, twenty
    seconds or more after it was made.  [createVMImpl] ends a round that
    read fewer than N-1 responses with the error "some Validators didn't
    respond", and so does the unanimous round when it gets to read the
    list; a unanimous round stopped before that by the Bot's results, the
    digest or the signature ends with that error, whatever was
    gathered. *)
Theorem gatherSignatures_returns (m : ClientManager.t) (request : ValidatorRequest)
  (requestID : Hash) (ch : ChanId) :
  validators m = Validators →
  (1 ≤ ValidatorCount - 1 →
   ∀ rs sel, Z.of_nat (length rs) = ValidatorCount - 1 →
     (gatherSignatures m request requestID ch ((fromResponseChan <$> rs) ++ sel)).2
       = Some {| responseList := rs; timedOut := false; unread := sel |}) ∧
  (∀ rs sel, Z.of_nat (length rs) < ValidatorCount - 1 →
     (gatherSignatures m request requestID ch
        ((fromResponseChan <$> rs) ++ fromTimer :: sel)).2
       = Some {| responseList := rs; timedOut := true; unread := sel |} ∧
     (gatherSignatures m request requestID ch (fromResponseChan <$> rs)).2 = None) ∧
  (∀ rs sel,
     is_Some (gatherSignatures m request requestID ch
                ((fromResponseChan <$> rs) ++ fromTimer :: sel)).2) ∧
  (∀ sel out,
     (gatherSignatures m request requestID ch sel).2 = Some out →
     sel = consumed out ++ unread out ∧
     (timedOut out = false →
        Z.of_nat (length (responseList out)) = ValidatorCount - 1) ∧
     (1 ≤ ValidatorCount - 1 →
        Z.of_nat (length (responseList out)) ≤ ValidatorCount - 1) ∧
     (∀ pre suf, consumed out = pre ++ suf → suf ≠ [] →
        (gatherSignatures m request requestID ch pre).2 = None) ∧
     (Z.of_nat (length (responseList out)) < ValidatorCount - 1 →
        timedOut out = true ∧
        (∀ (env : CreateEnv) timeout w,
           gotAll env = true → createResponses env = responseList out →
           (createVMImpl env timeout w).2
             = Return (false, Some "some Validators didn't respond")) ∧
        (∀ (env : UnanimousEnv) queued forceFinal w req rm u h,
           unanResponses env = responseList out →
           botRequest env = inl req →
           signMessages queued 0 (NewMessages req) [] = Some rm →
           botResults env = inl u → assertHashOf u = (h, None) → (Sign h).2 = None →
           (_initiateUnanimousAssertionImpl env queued forceFinal w).2
             = Return (false, Some "some Validators didn't respond")))) ∧
  (∀ (run : list (Z * selected)) out,
     timerKept run →
     (gatherSignatures m request requestID ch run.*2).2 = Some out →
     Z.of_nat (length (responseList out)) < ValidatorCount - 1 →
     ∃ t, run !! length (responseList out) = Some (t, fromTimer) ∧
          20 * time_Second ≤ t) ∧
  (∀ (env : UnanimousEnv) queued forceFinal w req rm e,
     botRequest env = inl req →
     signMessages queued 0 (NewMessages req) [] = Some rm →
     stoppedEarly env e →
     (_initiateUnanimousAssertionImpl env queued forceFinal w).2
       = Return (false, Some e)).
Proof.
  intros Hvals.
  assert (followerCount m = ValidatorCount - 1) as Hn.
  { unfold followerCount, ValidatorCount. by rewrite Hvals. }
  assert (∀ sel out,
            (gatherSignatures m request requestID ch sel).2 = Some out →
            sel = consumed out ++ unread out ∧
            (timedOut out = false →
               Z.of_nat (length (responseList out)) = ValidatorCount - 1) ∧
            (∀ pre suf, consumed out = pre ++ suf → suf ≠ [] →
               (gatherSignatures m request requestID ch pre).2 = None)) as Hret.
  { intros sel out Hout. simpl in Hout. rewrite Hn in Hout.
    destruct (gatherLoop_returned _ _ _ _ Hout) as (got & Hlist & Hsel & Hfull & Hwait).
    simpl in Hlist. subst got. unfold consumed.
    split; [by rewrite <- app_assoc|]. split; [done|].
    intros pre suf Heq Hsuf. simpl. rewrite Hn. by eapply Hwait. }
  assert (∀ sel out,
            (gatherSignatures m request requestID ch sel).2 = Some out →
            Z.of_nat (length (responseList out)) < ValidatorCount - 1 →
            timedOut out = true) as Hshort.
  { intros sel out Hout Hlt. destruct (Hret _ _ Hout) as (_ & Hfull & _).
    destruct (timedOut out); [done|]. specialize (Hfull eq_refl). lia. }
  split.
  { intros Hone rs sel Hlen. simpl. rewrite Hn.
    apply (gatherLoop_full _ rs sel []); simpl; lia. }
  split.
  { intros rs sel Hlen. simpl. rewrite Hn.
    apply (gatherLoop_short _ rs sel []). simpl. lia. }
  split.
  { intros rs sel. apply gatherLoop_timer. }
  split.
  { intros sel out Hout. destruct (Hret _ _ Hout) as (Hsel & Hfull & Hwait).
    split; [done|]. split; [done|]. split.
    { intros Hone. destruct (timedOut out) eqn:Hto; [|specialize (Hfull eq_refl); lia].
      destruct (Z_lt_le_dec (ValidatorCount - 1) (Z.of_nat (length (responseList out))))
        as [Hmore|]; [exfalso|done].
      (* the first N-1 responses alone would have ended the loop *)
      set (k := Z.to_nat (ValidatorCount - 1)).
      assert (gatherSignatures m request requestID ch
                (fromResponseChan <$> take k (responseList out))
              = gatherSignatures m request requestID ch
                  ((fromResponseChan <$> take k (responseList out)) ++ []))
        as Heq by by rewrite app_nil_r.
      assert ((gatherSignatures m request requestID ch
                 (fromResponseChan <$> take k (responseList out))).2 = None) as Hnone.
      { apply (Hwait _ ((fromResponseChan <$> drop k (responseList out)) ++ [fromTimer])).
        - unfold consumed. rewrite Hto, app_assoc, <- fmap_app, take_drop. done.
        - by destruct (fromResponseChan <$> drop k (responseList out)). }
      rewrite Heq in Hnone. simpl in Hnone. rewrite Hn in Hnone.
      rewrite (gatherLoop_full _ _ [] []) in Hnone; [done|simpl; lia|].
      simpl. rewrite length_take. lia. }
    split; [done|].
    intros Hlt. split; [by eapply Hshort|]. split.
    - intros env timeout w Hgot Hresp.
      destruct (createVMImpl_cases env timeout w)
        as [[? _]|[(_ & _ & ->)|[(_ & Hlen & _)|(_ & Hlen & _)]]];
        [congruence|done|rewrite Hresp in Hlen; lia..].
    - intros env queued forceFinal w req rm u h Hresp Hreq Hrm Hres Hh Hsig.
      eapply unanimous_no_quorum; try done. rewrite Hresp. lia. }
  split.
  { intros run out Hkept Hout Hlt.
    pose proof (Hshort _ _ Hout Hlt) as Hto.
    destruct (Hret _ _ Hout) as (Hsel & _). unfold consumed in Hsel. rewrite Hto in Hsel.
    assert (run.*2 !! length (responseList out) = Some fromTimer) as Hat.
    { rewrite Hsel, <- app_assoc. rewrite lookup_app_r by (by rewrite length_fmap).
      by rewrite length_fmap, Nat.sub_diag. }
    rewrite list_lookup_fmap in Hat.
    destruct (run !! length (responseList out)) as [[t s]|] eqn:Hrun; [|done].
    simpl in Hat. injection Hat as ->. exists t. split; [done|].
    apply Hkept. by eapply list_elem_of_lookup_2. }
  intros env queued forceFinal w req rm e. apply unanimous_stopped_early.
Qed.

End Gathering.

(** ** The signed-messages list *)

Section SignedMessages.
Context `{V : EthValidator}.
Implicit Types (queued : list OffchainMessage) (newMessages : list Message).

(** A message of the request with the signature found at its position in
    the fetched batch. *)
Definition signedWith (msg : Message) (q : OffchainMessage) : SignedMessage :=
  {| sm_Message := NewMessageBuf msg; sm_Signature := om_Signature q |}.

Lemma signMessages_from queued newMessages : ∀ (i : nat) (acc : list SignedMessage),
  (i ≤ length queued)%nat →
  signMessages queued i newMessages acc =
    if bool_decide (i + length newMessages ≤ length queued)%nat
    then Some (acc ++ zip_with signedWith newMessages (drop i queued))
    else None.
Proof.
  induction newMessages as [|msg newMessages IH]; intros i acc Hi; simpl.
  - rewrite app_nil_r. rewrite bool_decide_true; [done|lia].
  - destruct (queued !! i) as [q|] eqn:Hq.
    + pose proof (lookup_lt_Some _ _ _ Hq) as Hlt.
      rewrite IH by lia. rewrite (drop_S _ _ _ Hq). simpl.
      case_bool_decide; case_bool_decide; try lia; [|done].
      by rewrite <- app_assoc.
    + apply lookup_ge_None in Hq. rewrite bool_decide_false; [done|lia].
Qed.

(** [C10]  The list of signed messages takes the signature of the i-th
    fetched message for the i-th message of the Bot's request, without a
    bounds check.  It panics exactly when the request has more messages
    than were fetched; otherwise it pairs by position, whatever the
    messages are.  So when the Bot's request carries exactly the submitted
    messages in their order, there is no panic and every message stands
    with the signature it was submitted with; and a request longer than
    the batch makes the round panic. *)
Theorem signMessages_by_position queued newMessages :
  (signMessages queued 0 newMessages [] = None ↔
     (length queued < length newMessages)%nat) ∧
  (∀ rm, signMessages queued 0 newMessages [] = Some rm →
     rm = zip_with signedWith newMessages queued ∧
     ∀ (i : nat) sm, rm !! i = Some sm →
       ∃ msg q, newMessages !! i = Some msg ∧ queued !! i = Some q ∧
                sm = signedWith msg q) ∧
  (newMessages = om_Message <$> queued →
     signMessages queued 0 newMessages []
       = Some ((λ q, signedWith (om_Message q) q) <$> queued)) ∧
  (∀ (env : UnanimousEnv) (forceFinal : bool) (w : World) req,
     botRequest env = inl req → NewMessages req = newMessages →
     (length queued < length newMessages)%nat →
     (_initiateUnanimousAssertionImpl env queued forceFinal w).2
       = Panic "index out of range").
Proof.
  pose proof (signMessages_from queued newMessages 0 []) as Heq.
  rewrite drop_0 in Heq. simpl in Heq. specialize (Heq ltac:(lia)).
  split; [|split; [|split]].
  - split.
    + intros Hnone. rewrite Hnone in Heq. case_bool_decide; [done|lia].
    + intros Hlt. rewrite Heq. rewrite bool_decide_false; [done|lia].
  - intros rm Hrm. rewrite Heq in Hrm. case_bool_decide; [|done].
    injection Hrm as <-. split; [done|].
    intros i sm Hsm. apply lookup_zip_with_Some in Hsm as (msg & q & -> & ? & ?).
    by exists msg, q.
  - intros ->. rewrite Heq. rewrite length_fmap, bool_decide_true by lia.
    f_equal. clear. induction queued as [|q queued IH]; [done|].
    csimpl. by rewrite IH.
  - intros env forceFinal w req Hreq Hnew Hlt.
    destruct (_initiateUnanimousAssertionImpl_outcome env queued forceFinal w)
      as (evs & fl & -> & Hout). simpl.
    destruct Hout as [| |req' rm evs fl Hreq' Hrm Hafter]; [congruence|done|].
    assert (req' = req) as -> by congruence.
    rewrite Hnew, Heq, bool_decide_false in Hrm by lia. done.
Qed.

End SignedMessages.

(** ** The pending-round map of the client manager *)

Section PendingRounds.
Context `{W : Wire}.
Import ClientManager.
Implicit Types (m : ClientManager.t) (ev : event) (evs : list event).

(** The digest a response names. *)
Definition requestIdOf (r : LabeledFollowerResponse) : Hash :=
  NewHashFromBuf (RequestId (response r)).

(** No case of the loop takes a digest out of the map; only a later
    [sigRequest] for the same digest changes the channel it maps to. *)
Lemma Run_keeps_responses m ev m1 (h : Hash) (ch : ChanId) :
  Run m ev = Stepped m1 → responses m !! h = Some ch →
  responses m1 !! h = Some ch ∨
  ∃ req, ev = sigRequest req ∧ requestID req = h ∧
         responses m1 !! h = Some (responseChan req).
Proof.
  intros Hrun Hh. destruct ev as [w|r|req|c cl|c|]; simpl in Hrun.
  - case_bool_decide; injection Hrun as <-; by left.
  - destruct (responses m !! _); [|done].
    case_bool_decide; [|done]. injection Hrun as <-. by left.
  - case_bool_decide; [|done]. injection Hrun as <-. simpl.
    destruct (decide (requestID req = h)) as [<-|Hne].
    + right. exists req. by rewrite lookup_insert_eq.
    + left. by rewrite lookup_insert_ne.
  - case_bool_decide; injection Hrun as <-; by left.
  - destruct (clients m !! c); injection Hrun as <-; by left.
  - destruct (broadcast m); [done|]. injection Hrun as <-. by left.
Qed.

Lemma RunLoop_keeps_responses evs : ∀ m (h : Hash),
  is_Some (responses m !! h) → is_Some (responses (RunLoop m evs).1 !! h).
Proof.
  induction evs as [|ev evs IH]; intros m h Hh; simpl; [done|].
  destruct (Run m ev) as [m1|why] eqn:Hrun; [|done].
  apply IH. destruct Hh as [ch Hch].
  destruct (Run_keeps_responses _ _ _ _ _ Hrun Hch) as [?|(req & _ & _ & ?)]; by eexists.
Qed.

(** A response naming a registered digest goes to the channel registered
    under that digest and to no other. *)
Lemma aggResponse_delivered m (r : LabeledFollowerResponse) m1 (ch : ChanId) :
  responses m !! requestIdOf r = Some ch →
  Run m (aggResponse r) = Stepped m1 →
  sinks m1 !! ch = Some (default [] (sinks m !! ch) ++ [r]) ∧
  (∀ ch', ch' ≠ ch → sinks m1 !! ch' = sinks m !! ch') ∧
  responses m1 = responses m.
Proof.
  unfold requestIdOf. intros Hch Hrun. simpl in Hrun. rewrite Hch in Hrun.
  case_bool_decide; [|done]. injection Hrun as <-. simpl. repeat split.
  - by rewrite lookup_insert_eq.
  - intros ch' Hne. by rewrite lookup_insert_ne.
Qed.

(** [C2]  A response whose request id is under no digest of the
    pending-round map is not dropped: the map lookup yields a nil channel,
    the send on it never completes, and the loop stands still in that
    case body with every later event unprocessed. *)
Theorem unknown_request_id_blocks m (r : LabeledFollowerResponse) evs :
  responses m !! requestIdOf r = None →
  Run m (aggResponse r) = Blocked SendOnNilChan ∧
  RunLoop m (aggResponse r :: evs) = (m, Some (SendOnNilChan, length evs)).
Proof.
  unfold requestIdOf. intros Hnone. simpl. by rewrite Hnone.
Qed.

(** [C9, as amended]  An entry of the pending-round map is never removed.
    Once a digest is registered, every case of the loop leaves it in the
    map, with the same channel unless a later [sigRequest] registers a new
    channel under the same digest; it is still there after any run of the
    loop, and after [gatherSignatures] has taken responses from the
    channel, whether its round completed or timed out. *)
Theorem pending_round_entries_stay m (h : Hash) (ch : ChanId) :
  responses m !! h = Some ch →
  (∀ ev m1, Run m ev = Stepped m1 →
     responses m1 !! h = Some ch ∨
     ∃ req, ev = sigRequest req ∧ requestID req = h ∧
            responses m1 !! h = Some (responseChan req)) ∧
  (∀ evs, is_Some (responses (RunLoop m evs).1 !! h)) ∧
  (∀ c r m1, recvResponse c m = Some (r, m1) → responses m1 !! h = Some ch) ∧
  (∀ req m1, Run m (sigRequest req) = Stepped m1 →
     responses m1 !! requestID req = Some (responseChan req)).
Proof.
  intros Hh. repeat split.
  - intros ev m1 Hrun. by eapply Run_keeps_responses.
  - intros evs. apply RunLoop_keeps_responses. by eexists.
  - intros c r m1 Hrecv. unfold recvResponse in Hrecv.
    destruct (default [] (sinks m !! c)); [done|]. by injection Hrecv as _ <-.
  - intros req m1 Hrun. simpl in Hrun. case_bool_decide; [|done].
    injection Hrun as <-. simpl. by rewrite lookup_insert_eq.
Qed.

End PendingRounds.

(* ===================================================================== *)
(** * Further properties of the queue, the manager and the rounds *)
(* ===================================================================== *)

(** ** The ingress queue over any run of requests *)

Section QueueRuns.
Context {OffchainMessage : Type}.
Import MessageProcessingQueue.
Implicit Types (m : MessageProcessingQueue.t OffchainMessage).
Implicit Types (reqs : list (request OffchainMessage)).
Implicit Types (reps : list (reply OffchainMessage)).

(** The messages a run of requests put into the queue: those sent and
    those of the batches given back. *)
Definition putIn reqs : list OffchainMessage :=
  reqs ≫= λ req,
    match req with
    | ReqSend x => [x]
    | ReqReturn b => b
    | ReqFetch | ReqHasMessages => []
    end.

(** The messages the replies of a run handed out. *)
Definition handedOut reps : list OffchainMessage :=
  reps ≫= λ rep, match rep with Batch b => b | Flag _ => [] end.

(** The requests of a run that are not [HasMessages] questions. *)
Definition withoutQuestions reqs : list (request OffchainMessage) :=
  reqs ≫= λ req, match req with ReqHasMessages => [] | _ => [req] end.

Lemma putIn_cons req reqs :
  putIn (req :: reqs) =
    match req with
    | ReqSend x => [x]
    | ReqReturn b => b
    | ReqFetch | ReqHasMessages => []
    end ++ putIn reqs.
Proof. reflexivity. Qed.

Lemma handedOut_cons rep reps :
  handedOut (rep :: reps) =
    match rep with Batch b => b | Flag _ => [] end ++ handedOut reps.
Proof. reflexivity. Qed.

Lemma serve_cons m req reqs :
  serve m (req :: reqs) =
    ((serve (run m req).1 reqs).1,
     match (run m req).2 with
     | Some x => x :: (serve (run m req).1 reqs).2
     | None => (serve (run m req).1 reqs).2
     end).
Proof.
  simpl. destruct (run m req) as [m1 r]. simpl.
  by destruct (serve m1 reqs) as [m2 rs], r.
Qed.

(** [X1]  Over any run of requests the queue neither loses nor invents a
    message: what it holds at the end together with what its [Fetch]
    replies handed out is, up to order, what it held at the start together
    with what was sent or given back. *)
Theorem queue_conserves_messages m reqs :
  queuedMessages (serve m reqs).1 ++ handedOut (serve m reqs).2
    ≡ₚ queuedMessages m ++ putIn reqs.
Proof.
  revert m. induction reqs as [|req reqs IH]; intros m.
  { simpl. by rewrite !app_nil_r. }
  rewrite serve_cons, putIn_cons. cbn [fst snd].
  specialize (IH (run m req).1).
  destruct req as [|b|x|]; simpl in *.
  - rewrite <- IH. apply Permutation_app_swap_app.
  - rewrite IH, <- app_assoc. apply Permutation_app_swap_app.
  - by rewrite IH, <- app_assoc.
  - exact IH.
Qed.

(** [X2]  Sends keep their order and a [Fetch] empties the queue: after
    any messages were sent, [Fetch] replies with the old contents followed
    by the sent messages in the order they were sent, and a [Fetch] right
    after it replies with the empty batch.  Questions asked in between
    change neither the queue nor any batch handed out. *)
Theorem queue_is_fifo m (sent : list OffchainMessage) reqs :
  (serve m ((ReqSend <$> sent) ++ [ReqFetch; ReqFetch])).2
    = [Batch (queuedMessages m ++ sent); Batch []] ∧
  (serve m (withoutQuestions reqs)).1 = (serve m reqs).1 ∧
  handedOut (serve m (withoutQuestions reqs)).2 = handedOut (serve m reqs).2.
Proof.
  split.
  { rewrite serve_app, serve_sends. reflexivity. }
  revert m. induction reqs as [|req reqs IH]; intros m; [done|].
  destruct (IH (run m req).1) as [IH1 IH2].
  destruct req as [|b|x|].
  1-3: change (withoutQuestions (?r :: reqs)) with (r :: withoutQuestions reqs);
    rewrite !serve_cons; cbn [run fst snd]; rewrite ?handedOut_cons;
    cbn [run fst snd] in IH1, IH2; by rewrite IH1, ?IH2.
  change (withoutQuestions (ReqHasMessages :: reqs)) with (withoutQuestions reqs).
  rewrite (serve_cons m ReqHasMessages). cbn [run fst snd] in *.
  rewrite handedOut_cons. simpl. by destruct m.
Qed.

End QueueRuns.

(** ** The manager's loop: buffers, broadcast and rounds *)

Section ManagerLoop.
Context `{W : Wire}.
Import ClientManager.
Implicit Types (m : ClientManager.t) (ev : event) (evs : list event).

(** [NewClient]: the record of a fresh connection; both its channels are
    empty. *)
Definition NewClient (address : Address) : Client :=
  {| Address_ := address; ToClient := [] |}.



Lemma Run_validators m ev m1 :
  Run m ev = Stepped m1 → validators m1 = validators m.
Proof.
  intros Hrun. destruct ev as [w|r|req|c cl|c|]; simpl in Hrun.
  - by case_bool_decide; injection Hrun as <-.
  - destruct (responses m !! _); [|done].
    case_bool_decide; [|done]. by injection Hrun as <-.
  - case_bool_decide; [|done]. by injection Hrun as <-.
  - by case_bool_decide; injection Hrun as <-.
  - by destruct (clients m !! c); injection Hrun as <-.
  - destruct (broadcast m); [done|]. by injection Hrun as <-.
Qed.



(** [X4]  Broadcast reaches every live follower or evicts it.  The
    broadcast case takes the oldest queued request; a client whose
    outbound buffer has room gets it appended and stays live, a client
    whose buffer is full is closed and dropped from the live set, and no
    client is added or skipped. *)
Theorem broadcast_reaches_or_evicts m (message : ValidatorRequest)
  (rest : list ValidatorRequest) :
  broadcast m = message :: rest →
  ∃ m1, Run m broadcastMessage = Stepped m1 ∧ broadcast m1 = rest ∧
    (∀ c, clients m !! c = None → clients m1 !! c = None) ∧
    (∀ c cl, clients m !! c = Some cl →
       if bool_decide (length (ToClient cl) < ToClient_cap)%nat
       then clients m1 !! c
              = Some {| Address_ := Address_ cl; ToClient := ToClient cl ++ [message] |} ∧
            (c ∈ closed m1 ↔ c ∈ closed m)
       else clients m1 !! c = None ∧ c ∈ closed m1).
Proof.
  intros Hq. simpl. rewrite Hq. eexists. split; [done|]. simpl.
  split; [done|]. split.
  - intros c Hc. by rewrite lookup_omap, Hc.
  - intros c cl Hc.
    assert (omap (offer message) (clients m) !! c = offer message cl) as Hkept
      by (by rewrite lookup_omap, Hc).
    destruct (decide (length (ToClient cl) < ToClient_cap)%nat) as [Hroom|Hfull].
    + rewrite bool_decide_true by done.
      unfold offer at 2 in Hkept. rewrite bool_decide_true in Hkept by done.
      split; [exact Hkept|]. rewrite elem_of_union, elem_of_difference, !elem_of_dom.
      split; [|by right].
      intros [[_ Hnot]|?]; [|done]. destruct Hnot. by eexists.
    + rewrite bool_decide_false by done.
      unfold offer at 2 in Hkept. rewrite bool_decide_false in Hkept by done.
      split; [exact Hkept|]. rewrite elem_of_union, elem_of_difference, !elem_of_dom.
      left. split; [by eexists|]. rewrite Hkept. by intros [? ?].
Qed.

(** [X5]  A signature request is broadcast and registered together: on a
    manager whose broadcast queue is empty, the [sigRequest] case followed
    by the broadcast case hands the request to every client with room in
    its buffer, and the response channel stands under the request's
    digest. *)
Theorem sigRequest_reaches_followers m (req : GatherSignatureRequest) :
  broadcast m = [] →
  ∃ m1 m2, Run m (sigRequest req) = Stepped m1 ∧
    Run m1 broadcastMessage = Stepped m2 ∧
    broadcast m2 = [] ∧
    responses m2 !! requestID req = Some (responseChan req) ∧
    ∀ c cl, clients m !! c = Some cl →
      (length (ToClient cl) < ToClient_cap)%nat →
      clients m2 !! c
        = Some {| Address_ := Address_ cl; ToClient := ToClient cl ++ [request req] |}.
Proof.
  intros Hq. simpl. rewrite Hq. simpl. eexists _, _.
  split; [done|]. split; [done|]. simpl. split; [done|].
  split; [by rewrite lookup_insert_eq|].
  intros c cl Hc Hroom. rewrite lookup_omap, Hc. simpl. unfold offer.
  by rewrite bool_decide_true.
Qed.

(** [X6]  A response finds the round it answers.  Once a round is
    registered, a response naming its digest is appended to the response
    channel of that round whenever the channel has room, every other
    channel keeps its contents, and the registration stays; when another
    channel stood under the same digest before, it gets nothing any more. *)
Theorem registered_round_receives m (req : GatherSignatureRequest)
  (r : LabeledFollowerResponse) m1 :
  Run m (sigRequest req) = Stepped m1 →
  requestIdOf r = requestID req →
  Z.of_nat (length (default [] (sinks m !! responseChan req))) < followerCount m →
  ∃ m2, Run m1 (aggResponse r) = Stepped m2 ∧
    sinks m2 !! responseChan req
      = Some (default [] (sinks m !! responseChan req) ++ [r]) ∧
    (∀ ch, ch ≠ responseChan req → sinks m2 !! ch = sinks m !! ch) ∧
    responses m2 !! requestID req = Some (responseChan req).
Proof.
  unfold requestIdOf. intros Hrun Hid Hroom. simpl in Hrun.
  case_bool_decide; [|done]. injection Hrun as <-. simpl.
  rewrite Hid, lookup_insert_eq. unfold followerCount. simpl.
  rewrite bool_decide_true by done. eexists. split; [done|]. simpl.
  split; [by rewrite lookup_insert_eq|]. split; [|by rewrite lookup_insert_eq].
  intros ch Hne. by rewrite lookup_insert_ne.
Qed.

End ManagerLoop.

(** ** The manager's loop: waiters and closed clients *)

Section ManagerWaiters.
Context `{W : Wire}.
Import ClientManager.
Implicit Types (m : ClientManager.t) (ev : event) (evs : list event) (w : ChanId).

(** The live set has exactly one client per other validator, or so the
    loop counts: [len(m.clients) == len(m.validators)-1]. *)
Definition allConnected m : Prop :=
  Z.of_nat (size (clients m)) = followerCount m.

Definition isRegister ev : Prop := ∃ c cl, ev = register c cl.

(** What one case of the loop does to a parked waiter: it is woken by a
    [register] that makes the count match, and stays parked otherwise. *)
Lemma Run_parked_waiter m ev m1 w :
  Run m ev = Stepped m1 → w ∈ waitingChans m → w ∉ woken m → ev ≠ waitRequest w →
  (isRegister ev ∧ allConnected m1 ∧ w ∈ woken m1 ∧ (w ∉ waitingChans m1)) ∨
  (¬ (isRegister ev ∧ allConnected m1) ∧ (w ∉ woken m1) ∧ w ∈ waitingChans m1).
Proof.
  intros Hrun Hpark Hnot Hne.
  pose proof (Run_validators _ _ _ Hrun) as Hvals.
  assert (followerCount m1 = followerCount m) as Hfc
    by (unfold followerCount; by rewrite Hvals).
  unfold allConnected. rewrite Hfc. clear Hvals Hfc.
  destruct ev as [w'|r|req|c cl|c|]; simpl in Hrun.
  - right. assert (w' ≠ w) by congruence.
    case_bool_decide; injection Hrun as <-; simpl;
      (split; [by intros [(? & ? & ?) _]|]); set_solver.
  - right. destruct (responses m !! _); [|done].
    case_bool_decide; [|done]. injection Hrun as <-.
    split; [by intros [(? & ? & ?) _]|done].
  - right. case_bool_decide; [|done]. injection Hrun as <-.
    split; [by intros [(? & ? & ?) _]|done].
  - case_bool_decide as Hcount; injection Hrun as <-; simpl.
    + left. split; [by eexists _, _|]. split; [done|]. set_solver.
    + right. split; [by intros [_ ?]|done].
  - right. destruct (clients m !! c); injection Hrun as <-;
      (split; [by intros [(? & ? & ?) _]|done]).
  - right. destruct (broadcast m); [done|]. injection Hrun as <-.
    split; [by intros [(? & ? & ?) _]|done].
Qed.

Lemma Run_woken_grows m ev m1 :
  Run m ev = Stepped m1 →
  woken m ⊆ woken m1 ∧ waitingChans m ∪ woken m ⊆ waitingChans m1 ∪ woken m1 ∧
  (∀ w, ev = waitRequest w → w ∈ waitingChans m1 ∪ woken m1).
Proof.
  intros Hrun. destruct ev as [w'|r|req|c cl|c|]; simpl in Hrun.
  - case_bool_decide; injection Hrun as <-; simpl;
      (split; [set_solver|]); (split; [set_solver|]); intros w [= ->]; set_solver.
  - destruct (responses m !! _); [|done].
    case_bool_decide; [|done]. injection Hrun as <-. done.
  - case_bool_decide; [|done]. injection Hrun as <-. done.
  - case_bool_decide; injection Hrun as <-; simpl; [|done].
    split; [set_solver|]. split; [set_solver|done].
  - destruct (clients m !! c); injection Hrun as <-; done.
  - destruct (broadcast m); [done|]. injection Hrun as <-. done.
Qed.

Lemma RunLoop_woken_grows evs : ∀ m, woken m ⊆ woken (RunLoop m evs).1.
Proof.
  induction evs as [|ev evs IH]; intros m; [done|]. simpl.
  destruct (Run m ev) as [m1|why] eqn:Hrun; [|done].
  etrans; [|apply IH]. by eapply Run_woken_grows.
Qed.

(** [X7]  No waiter is lost.  After any run of the loop that was not
    blocked, every wait channel that was handed in by a [waitRequest], or
    was already parked or signalled, is either parked or has been sent
    [true]; a channel once signalled stays so. *)
Theorem waiters_never_lost m evs m1 :
  RunLoop m evs = (m1, None) →
  woken m ⊆ woken m1 ∧
  ∀ w, waitRequest w ∈ evs ∨ w ∈ waitingChans m ∪ woken m →
       w ∈ waitingChans m1 ∪ woken m1.
Proof.
  intros Hloop. split.
  { replace m1 with (RunLoop m evs).1 by (by rewrite Hloop).
    apply RunLoop_woken_grows. }
  revert m Hloop. induction evs as [|ev evs IH]; intros m Hloop w Hw.
  { simpl in Hloop. injection Hloop as <-. destruct Hw as [Hw|Hw]; [|done].
    by apply elem_of_nil in Hw. }
  simpl in Hloop. destruct (Run m ev) as [m2|why] eqn:Hrun; [|done].
  destruct (Run_woken_grows _ _ _ Hrun) as (_ & Hkeep & Hnew).
  apply (IH m2 Hloop). destruct Hw as [Hw|Hw].
  - apply elem_of_cons in Hw as [<-|Hw]; [right; by apply Hnew|by left].
  - right. by apply Hkeep.
Qed.

(** What the [select] of [WaitForFollowers] took. *)
Inductive waitSelected :=
| onWaitChan       (* case <-waitChan *)
| onTimeAfter.     (* case <-time.After(timeout) *)

(** [WaitForFollowers] as its [select] decides it.  The caller makes a
    fresh wait channel of capacity one, puts it on [waitRequestChan] and
    then selects between that channel and the timeout.  [m] is the manager
    as the request goes on [waitRequestChan]; [evs] is what the loop has
    handled by the time the [select] completes, the caller's [waitRequest]
    among it if the loop got that far; [taken] is the case the [select]
    took.  The timeout gives [false].  The case [<-waitChan] gives [true]
    and can only be taken once the loop has sent on the channel: [None]
    says that the [select] cannot have taken it.  When both cases are
    ready, either may be taken. *)
Definition cm_WaitForFollowers m (waitChan : ChanId) evs (taken : waitSelected)
  : option bool :=
  match taken with
  | onWaitChan =>
      if bool_decide (waitChan ∈ woken (RunLoop m evs).1) then Some true else None
  | onTimeAfter => Some false
  end.

Lemma parked_waiter_woken evs : ∀ m w,
  w ∈ waitingChans m → w ∉ woken m → waitRequest w ∉ evs →
  w ∈ woken (RunLoop m evs).1 ↔
  ∃ pre ev m2, (pre ++ [ev]) `prefix_of` evs ∧ isRegister ev ∧
               RunLoop m (pre ++ [ev]) = (m2, None) ∧ allConnected m2.
Proof.
  induction evs as [|ev evs IH]; intros m w Hpark Hnot Hfresh.
  { simpl. split; [done|]. intros (pre & ev & m2 & [k Hk] & _).
    by destruct pre. }
  apply not_elem_of_cons in Hfresh as [Hne Hfresh].
  simpl. destruct (Run m ev) as [m1|why] eqn:Hrun.
  2:{ split; [done|]. intros (pre & ev' & m2 & [k Hk] & _ & Hloop & _).
      destruct pre as [|ev0 pre]; simpl in Hk; injection Hk as -> _;
        simpl in Hloop; by rewrite Hrun in Hloop. }
  destruct (Run_parked_waiter _ _ _ w Hrun Hpark Hnot) as
    [(Hreg & Hall & Hw & _)|(Hnreg & Hw & Hpark1)]; [congruence| |].
  - split; [intros _|intros _; by apply RunLoop_woken_grows].
    exists [], ev, m1. split; [by exists evs|]. split; [done|].
    split; [|done]. simpl. by rewrite Hrun.
  - rewrite (IH m1 w Hpark1 Hw Hfresh). split.
    + intros (pre & ev' & m2 & [k Hk] & Hreg & Hloop & Hall).
      exists (ev :: pre), ev', m2. split; [exists k; simpl; by rewrite Hk|].
      split; [done|]. split; [|done]. simpl. by rewrite Hrun.
    + intros (pre & ev' & m2 & [k Hk] & Hreg & Hloop & Hall).
      destruct pre as [|ev0 pre]; simpl in Hk; injection Hk as -> Hk.
      * simpl in Hloop. rewrite Hrun in Hloop. injection Hloop as ->.
        by destruct Hnreg.
      * simpl in Hloop. rewrite Hrun in Hloop.
        exists pre, ev', m2. split; [by exists k|done].
Qed.

(** The loop run over two stretches of events. *)
Lemma RunLoop_app evs1 evs2 : ∀ m,
  RunLoop m (evs1 ++ evs2) =
    match RunLoop m evs1 with
    | (m1, None) => RunLoop m1 evs2
    | (m1, Some (why, k)) => (m1, Some (why, (k + length evs2)%nat))
    end.
Proof.
  induction evs1 as [|ev evs1 IH]; intros m; simpl.
  - by destruct (RunLoop m evs2).
  - destruct (Run m ev) as [m1|why]; [apply IH|]. by rewrite length_app.
Qed.

(** A wait channel the loop has not been handed is neither parked nor
    signalled. *)
Lemma Run_unknown_waiter m ev m1 w :
  Run m ev = Stepped m1 → ev ≠ waitRequest w →
  w ∉ waitingChans m → w ∉ woken m →
  (w ∉ waitingChans m1) ∧ (w ∉ woken m1).
Proof.
  intros Hrun Hne Hpark Hnot. destruct ev as [w'|r|req|c cl|c|]; simpl in Hrun.
  - assert (w' ≠ w) by congruence.
    case_bool_decide; injection Hrun as <-; simpl; set_solver.
  - destruct (responses m !! _); [|done].
    case_bool_decide; [|done]. by injection Hrun as <-.
  - case_bool_decide; [|done]. by injection Hrun as <-.
  - case_bool_decide; injection Hrun as <-; simpl; set_solver.
  - destruct (clients m !! c); by injection Hrun as <-.
  - destruct (broadcast m); [done|]. by injection Hrun as <-.
Qed.

Lemma RunLoop_unknown_waiter evs w : ∀ m,
  waitRequest w ∉ evs → w ∉ waitingChans m → w ∉ woken m →
  (w ∉ waitingChans (RunLoop m evs).1) ∧ (w ∉ woken (RunLoop m evs).1).
Proof.
  induction evs as [|ev evs IH]; intros m Hfresh Hpark Hnot; [done|].
  apply not_elem_of_cons in Hfresh as [Hne Hfresh].
  simpl. destruct (Run m ev) as [m1|why] eqn:Hrun; [|done].
  destruct (Run_unknown_waiter _ _ _ w Hrun) as [Hpark1 Hnot1]; [congruence|done..|].
  by apply IH.
Qed.

(** When the loop signals a waiter it has just been handed. *)
Lemma served_waiter_woken m w evs :
  w ∉ waitingChans m → w ∉ woken m → waitRequest w ∉ evs →
  w ∈ woken (RunLoop m (waitRequest w :: evs)).1 ↔
  allConnected m ∨
  ∃ pre ev m2, (pre ++ [ev]) `prefix_of` evs ∧ isRegister ev ∧
               RunLoop m (waitRequest w :: pre ++ [ev]) = (m2, None) ∧
               allConnected m2.
Proof.
  intros Hnpark Hnot Hfresh. simpl.
  destruct (decide (allConnected m)) as [Hall|Hnall].
  - rewrite bool_decide_true by done. split; [by left|intros _].
    apply RunLoop_woken_grows. simpl. set_solver.
  - rewrite bool_decide_false by done.
    rewrite parked_waiter_woken; [|simpl; set_solver|done..].
    split; [by right|]. by intros [?|?].
Qed.

(** [X8]  What [WaitForFollowers] answers.  It answers [false] exactly
    when its [select] took the timeout, which is open to it whatever the
    manager holds: also with N-1 clients live, when the timeout comes
    before the loop's signal or together with it.  It answers [true] only
    by taking the loop's signal, and the loop signals the caller's channel
    exactly when it got to the caller's request unblocked and then either
    counted N-1 live clients as it took the request, or a later [register]
    brought the count to N-1 with the loop not blocked on the way.
    Nothing else signals the waiter: not a count that reaches N-1 by an
    [unregister] or an eviction, and nothing at all as long as the loop
    has not taken the request. *)
Theorem WaitForFollowers_true_iff m w pre post (taken : waitSelected) :
  w ∉ waitingChans m → w ∉ woken m → waitRequest w ∉ pre → waitRequest w ∉ post →
  (∀ evs, cm_WaitForFollowers m w evs taken = Some false ↔ taken = onTimeAfter) ∧
  cm_WaitForFollowers m w pre taken ≠ Some true ∧
  (cm_WaitForFollowers m w (pre ++ waitRequest w :: post) taken = Some true ↔
   taken = onWaitChan ∧
   ∃ m1, RunLoop m pre = (m1, None) ∧
     (allConnected m1 ∨
      ∃ pre' ev m2, (pre' ++ [ev]) `prefix_of` post ∧ isRegister ev ∧
                    RunLoop m1 (waitRequest w :: pre' ++ [ev]) = (m2, None) ∧
                    allConnected m2)).
Proof.
  intros Hnpark Hnot Hpre Hpost.
  destruct (RunLoop_unknown_waiter pre w m Hpre Hnpark Hnot) as [Hnpark1 Hnot1].
  split; [|split].
  - intros evs. unfold cm_WaitForFollowers.
    destruct taken; [|done]. by case_bool_decide.
  - unfold cm_WaitForFollowers. destruct taken; [|done].
    by rewrite bool_decide_false.
  - unfold cm_WaitForFollowers. destruct taken.
    2:{ split; [done|]. by intros [? _]. }
    rewrite RunLoop_app.
    destruct (RunLoop m pre) as [m1 [[why k]|]] eqn:Hloop; simpl in Hnpark1, Hnot1.
    + simpl. rewrite bool_decide_false by done.
      split; [done|]. by intros (_ & ? & ? & _).
    + pose proof (served_waiter_woken m1 w post Hnpark1 Hnot1 Hpost) as Hserved.
      case_bool_decide as Hwoken.
      * split; [intros _|done]. split; [done|]. exists m1. split; [done|].
        by apply Hserved.
      * split; [done|]. intros (_ & m1' & [= <-] & Hsignal).
        by apply Hserved in Hsignal.
Qed.

(** The clients a run of events hands in for registration. *)
Definition registrations evs : list ClientId :=
  evs ≫= λ ev, match ev with register c _ => [c] | _ => [] end.

(** A case of the loop closes a client's channel only as it drops the
    client from the live set. *)
Lemma Run_closes_live m ev m1 :
  Run m ev = Stepped m1 →
  closed m ⊆ closed m1 ∧
  (∀ c, c ∈ closed m1 → c ∉ closed m →
        c ∈ dom (clients m) ∧ (c ∉ dom (clients m1))) ∧
  (∀ c, c ∈ dom (clients m1) → c ∈ dom (clients m) ∨ ∃ cl, ev = register c cl).
Proof.
  intros Hrun. destruct ev as [w'|r|req|c cl|c|]; simpl in Hrun.
  - case_bool_decide; injection Hrun as <-; simpl; set_solver.
  - destruct (responses m !! _); [|done].
    case_bool_decide; [|done]. injection Hrun as <-. simpl. set_solver.
  - case_bool_decide; [|done]. injection Hrun as <-. simpl. set_solver.
  - case_bool_decide; injection Hrun as <-; simpl.
    all: split; [done|]; split; [done|]; intros c';
      rewrite dom_insert, elem_of_union, elem_of_singleton;
      intros [->|?]; [right; by eexists|by left].
  - destruct (clients m !! c) eqn:Hc; injection Hrun as <-; simpl; [|set_solver].
    split; [set_solver|]. split.
    + intros c'. rewrite elem_of_union, elem_of_singleton, dom_delete.
      intros [->|?] ?; [|done]. split; [by apply elem_of_dom|set_solver].
    + intros c'. rewrite dom_delete. set_solver.
  - destruct (broadcast m) as [|message rest]; [done|]. injection Hrun as <-. simpl.
    assert (dom (omap (offer message) (clients m)) ⊆ dom (clients m)) as Hsub.
    { intros c'. rewrite !elem_of_dom, lookup_omap.
      destruct (clients m !! c'); [by eexists|]. by intros [? ?]. }
    split; [set_solver|]. split; [set_solver|]. intros c' Hc'. left. by apply Hsub.
Qed.

(** [X9]  No client's channel is closed twice.  Each case of the loop
    closes a channel only together with dropping its client from the live
    set; so when no live client is closed to begin with and the clients
    handed in for registration are new ones, each handed in once, then
    after any run of the loop no live client is closed. *)
Theorem live_clients_not_closed m evs :
  dom (clients m) ## closed m →
  NoDup (registrations evs) →
  (∀ c, c ∈ registrations evs → (c ∉ dom (clients m)) ∧ (c ∉ closed m)) →
  dom (clients (RunLoop m evs).1) ## closed (RunLoop m evs).1 ∧
  closed m ⊆ closed (RunLoop m evs).1.
Proof.
  revert m. induction evs as [|ev evs IH]; intros m Hdisj Hnd Hnew; [done|].
  simpl. destruct (Run m ev) as [m1|why] eqn:Hrun; [|done].
  destruct (Run_closes_live _ _ _ Hrun) as (Hgrow & Hclose & Hlive).
  unfold registrations in Hnd, Hnew. rewrite bind_cons in Hnd, Hnew.
  fold (registrations evs) in Hnd, Hnew.
  apply NoDup_app in Hnd as (_ & Hfirst & Hnd).
  destruct (IH m1) as [IH1 IH2]; [| |.. |split; [done|by etrans]]; [|done|].
  - intros c Hc1 Hc2.
    destruct (decide (c ∈ closed m)) as [Hold|Hnold].
    + destruct (Hlive c Hc1) as [Hc|[cl ->]]; [by apply (Hdisj c)|].
      simpl in Hnew. destruct (Hnew c) as [_ ?]; [left|done].
    + by destruct (Hclose c Hc2 Hnold).
  - intros c Hc.
    assert ((c ∉ dom (clients m)) ∧ (c ∉ closed m)) as [Hc1 Hc2].
    { apply Hnew, elem_of_app. by right. }
    split.
    + intros Hin. destruct (Hlive c Hin) as [?|[cl ->]]; [done|].
      simpl in Hfirst. apply (Hfirst c); [left|done].
    + intros Hin. by destruct (Hclose c Hin Hc2).
Qed.

End ManagerWaiters.

(** ** How many responses are gathered *)

Section GatherBound.
Context `{W : Wire}.
Import ClientManager.
Implicit Types (sel : list selected) (acc : list LabeledFollowerResponse).

Lemma gatherLoop_bound (n : Z) sel : ∀ acc out,
  Z.of_nat (length acc) < n →
  gatherLoop n sel acc false = Some out →
  (timedOut out = true → Z.of_nat (length (responseList out)) < n) ∧
  (timedOut out = false → Z.of_nat (length (responseList out)) = n).
Proof.
  induction sel as [|s sel IH]; intros acc out Hacc Hout; [done|].
  simpl in Hout. destruct s as [r|].
  - case_bool_decide as Hn; simpl in Hout.
    + injection Hout as <-. simpl. by split.
    + apply (IH (acc ++ [r])); [|done]. rewrite length_app in *. simpl in *. lia.
  - rewrite orb_true_r in Hout. injection Hout as <-. simpl. by split.
Qed.

Lemma gatherLoop_alone (n : Z) sel : ∀ acc out,
  n ≤ 0 → gatherLoop n sel acc false = Some out → timedOut out = true.
Proof.
  induction sel as [|s sel IH]; intros acc out Hn Hout; [done|].
  simpl in Hout. destruct s as [r|].
  - rewrite bool_decide_false in Hout by (rewrite length_app; simpl; lia).
    simpl in Hout. by eapply IH.
  - rewrite orb_true_r in Hout. by injection Hout as <-.
Qed.

(** [X10]  With at least one other validator, [gatherSignatures] never
    returns more than N-1 responses, and it returns fewer than N-1 exactly
    when it timed out: the caller's test of the length against N-1 is a
    test for the timeout.  With no other validator (a table of one) it
    returns only by the timeout, however many responses arrived. *)
Theorem gathered_short_iff_timed_out (m : ClientManager.t) (request : ValidatorRequest)
  (requestID : Hash) (ch : ChanId) sel (out : gathered) :
  (gatherSignatures m request requestID ch sel).2 = Some out →
  (1 ≤ followerCount m →
     Z.of_nat (length (responseList out)) ≤ followerCount m ∧
     (timedOut out = true ↔ Z.of_nat (length (responseList out)) < followerCount m)) ∧
  (followerCount m ≤ 0 → timedOut out = true).
Proof.
  simpl. intros Hout. split.
  - intros Hn.
    destruct (gatherLoop_bound (followerCount m) sel [] out) as [Hshort Hfull];
      [simpl; lia|done|].
    destruct (timedOut out).
    + specialize (Hshort eq_refl). split; [lia|done].
    + specialize (Hfull eq_refl). split; [lia|]. split; [done|lia].
  - intros Hn. by eapply gatherLoop_alone.
Qed.

End GatherBound.

(** ** What a finalized round has checked *)

Section RoundChecks.
Context `{V : EthValidator}.
Implicit Types (rsp : LabeledFollowerResponse) (q queued : list OffchainMessage).

(** A create response that carries an acceptance and a signature. *)
Definition signedCreate rsp : Prop :=
  ∃ r raw, Response (response rsp) = FollowerResponse_Create r ∧
           cf_Accepted r = true ∧ cf_Signature r = Some raw.

(** A unanimous response that accepts the assertion hash [h] and carries a
    signature. *)
Definition signedUnanimous (h : Hash) rsp : Prop :=
  ∃ r raw, Response (response rsp) = FollowerResponse_Unanimous r ∧
           uf_Accepted r = true ∧ NewHashFromBuf (uf_AssertionHash r) = h ∧
           uf_Signature r = Some raw.

Lemma createSignatureOf_signed rsp (s : Signature) :
  createSignatureOf rsp = Some s → signedCreate rsp.
Proof.
  unfold createSignatureOf, signedCreate.
  destruct (Response (response rsp)) as [r|u]; [|done].
  destruct (cf_Accepted r) eqn:Hacc; [|done].
  destruct (cf_Signature r) as [raw|] eqn:Hraw; [|done]. by exists r, raw.
Qed.

Lemma unanimousSignatureOf_signed (h : Hash) rsp (s : Signature) :
  unanimousSignatureOf h rsp = Some s → signedUnanimous h rsp.
Proof.
  unfold unanimousSignatureOf, signedUnanimous.
  destruct (Response (response rsp)) as [c|r]; [done|].
  destruct (uf_Accepted r) eqn:Hacc; [|done]. simpl.
  case_bool_decide as Hh; [|done].
  destruct (uf_Signature r) as [raw|] eqn:Hraw; [|done]. by exists r, raw.
Qed.

Lemma Forall2_signed {P : LabeledFollowerResponse → Prop}
  (sigOf : LabeledFollowerResponse → option Signature)
  (responses : list LabeledFollowerResponse) (ss : list Signature) :
  (∀ rsp s, sigOf rsp = Some s → P rsp) →
  Forall2 (λ rsp s, sigOf rsp = Some s) responses ss → Forall P responses.
Proof.
  intros HP Hss. induction Hss as [|rsp s responses ss Hs _ IH]; constructor; eauto.
Qed.

(** [X11]  [Bot.CreateVM] is called only on a fully signed round: all
    followers were connected, exactly N-1 responses came back, every one
    is a create response with [Accepted] set and a signature, with a
    responder index inside the vector, and the coordinator's own signing
    succeeded.  The vector has N slots, nothing was broadcast, and the
    round returns [true] together with whatever error [CreateVM] gave. *)
Theorem createVM_only_when_all_signed (env : CreateEnv) (timeout : Z) q
  (createData : CreateVMValidatorRequest) (signatures : list Signature) :
  Val_CreateVM createData signatures ∈ trace (createVMImpl env timeout (start q)).1 →
  gotAll env = true ∧ createData = createDataOf env ∧
  (Sign (CreateVMHash createData)).2 = None ∧
  Z.of_nat (length (createResponses env)) = ValidatorCount - 1 ∧
  Forall signedCreate (createResponses env) ∧
  Forall (λ i, 0 ≤ i < ValidatorCount) (indices (createResponses env)) ∧
  Z.of_nat (length signatures) = ValidatorCount ∧
  (createVMImpl env timeout (start q)).2 = Return (true, createErr env) ∧
  ∀ req, cm_broadcast req ∉ trace (createVMImpl env timeout (start q)).1.
Proof.
  intros Hin.
  pose proof ValidatorCount_nonneg as HN.
  destruct (createVMImpl_cases env timeout (start q))
    as [[_ Heq]|[(_ & Hlen & Heq)|[(_ & _ & fl & Heq & _)|
        (Hgot & Hlen & Hown & Hsign & ss & Hrange & Hss & Heq)]]];
    rewrite Heq in Hin |- *; in_trace Hin.
  injection Hin as -> ->.
  split; [done|]. split; [done|]. split; [done|]. split; [done|].
  split; [by eapply Forall2_signed, Hss; apply createSignatureOf_signed|].
  split.
  { eapply Forall_impl; [exact Hrange|]. unfold inRange. intros i.
    by rewrite length_make. }
  split; [by rewrite assemble_length, length_insert, length_make|].
  split; [done|]. intros req Hreq. in_trace Hreq.
Qed.

(** [X12]  When the coordinator cannot sign the create digest, the round
    ends with the signer's error right after the signing: [Bot.CreateVM]
    is not called and, unlike after too few responses, the followers are
    not notified. *)
Theorem createVMImpl_sign_failure (env : CreateEnv) (timeout : Z) (w : World) (e : error) :
  gotAll env = true →
  Z.of_nat (length (createResponses env)) = ValidatorCount - 1 →
  0 ≤ indexOf Val_Address < ValidatorCount →
  (Sign (CreateVMHash (createDataOf env))).2 = Some e →
  createVMImpl env timeout w =
    (record w [WaitForFollowers timeout; Bot_RequestVMState;
               cm_gatherSignatures (createRequestOf env) (CreateVMHash (createDataOf env));
               Val_Sign (CreateVMHash (createDataOf env))],
     Return (false, Some e)).
Proof.
  intros Hgot Hlen Hown Hsign.
  unfold createVMImpl, ctl_bind, emit, return_, record. rewrite Hgot. simpl.
  fold (createDataOf env). rewrite bool_decide_false by (intros Hne; by apply Hne).
  destruct (Sign (CreateVMHash (createDataOf env))) as [sig err]. simpl in Hsign.
  subst err. unfold store. rewrite bool_decide_true by (by rewrite length_make; lia).
  simpl. by rewrite <- !app_assoc.
Qed.

(** [X13]  [Bot.ConfirmOffchainUnanimousAssertion] is called only when
    the Bot delivered request and results, the digest and the
    coordinator's signature were made, exactly N-1 responses came back and
    every one is a unanimous response that accepts, repeats the
    coordinator's assertion hash and carries a signature.  It is called
    with the request's own data, after the followers were told
    [Accepted = true]: the broadcast of that notification is the step
    right before the call, the call is the last step of the round, and
    there is no call of the confirmation before it. *)
Theorem confirm_only_when_all_agree (env : UnanimousEnv) queued (forceFinal : bool) q
  (data : UnanimousRequestData) (signatures : list Signature) :
  Bot_ConfirmOffchainUnanimousAssertion data signatures
    ∈ trace (_initiateUnanimousAssertionImpl env queued forceFinal (start q)).1 →
  ∃ req u h,
    botRequest env = inl req ∧ data = UnanimousRequestData_ req ∧
    botResults env = inl u ∧ assertHashOf u = (h, None) ∧ (Sign h).2 = None ∧
    Z.of_nat (length (unanResponses env)) = ValidatorCount - 1 ∧
    Forall (signedUnanimous h) (unanResponses env) ∧
    Z.of_nat (length signatures) = ValidatorCount ∧
    ∃ raws,
      cm_broadcast (unanimousNotification (UnanimousRequest_Hash req)
                      {| un_Accepted := true; un_Signatures := raws |})
        ∈ trace (_initiateUnanimousAssertionImpl env queued forceFinal (start q)).1 ∧
      ∃ before,
        trace (_initiateUnanimousAssertionImpl env queued forceFinal (start q)).1
          = before ++
              [cm_broadcast (unanimousNotification (UnanimousRequest_Hash req)
                               {| un_Accepted := true; un_Signatures := raws |});
               Bot_ConfirmOffchainUnanimousAssertion data signatures] ∧
        ∀ data' signatures',
          Bot_ConfirmOffchainUnanimousAssertion data' signatures' ∉ before.
Proof.
  intros Hin.
  pose proof ValidatorCount_nonneg as HN.
  destruct (_initiateUnanimousAssertionImpl_outcome env queued forceFinal (start q))
    as (evs & fl & Heq & Hout).
  rewrite Heq in Hin |- *. clear Heq.
  destruct Hout as [| |req rm evs fl Hreq Hrm Hafter]; in_trace Hin.
  destruct Hafter as
    [| | | | | |u h sig ss raws Hres Hh Hsig Hlen Hown Hrange Hss]; in_trace Hin.
  injection Hin as -> ->. exists req, u, h.
  do 4 (split; [done|]). split; [by rewrite Hsig|]. split; [done|].
  split; [by eapply Forall2_signed, Hss; apply unanimousSignatureOf_signed|].
  split; [by rewrite assemble_length, length_insert, length_make|].
  exists raws. split; [has_event|].
  exists [Bot_InitiateUnanimousRequest 10000 (om_Message <$> queued) forceFinal;
          cm_gatherSignatures (unanimousRequestOf req rm) (UnanimousRequest_Hash req);
          assertHashEvent u; Val_Sign h].
  split; [reflexivity|].
  intros data' signatures' Hbefore. unfold assertHashEvent in Hbefore. in_trace Hbefore.
Qed.

(** The requests a run put on the manager's [broadcast] channel, in
    order. *)
Definition broadcasts (evs : list Event) : list ValidatorRequest :=
  evs ≫= λ e, match e with cm_broadcast r => [r] | _ => [] end.

(** [X14]  A unanimous round notifies the followers at most once, always
    under the id of the round, and tells them [Accepted = true] exactly
    when it goes on to call the Bot's confirmation.  A round that got the
    Bot's request and returns has notified them once: the list of what
    the round broadcast has at most one entry, and exactly one for such a
    round. *)
Theorem unanimous_notifies_once (env : UnanimousEnv) queued (forceFinal : bool) q :
  let out := _initiateUnanimousAssertionImpl env queued forceFinal (start q) in
  (length (broadcasts (trace out.1)) ≤ 1)%nat ∧
  (∀ req res, botRequest env = inl req → out.2 = Return res →
     length (broadcasts (trace out.1)) = 1%nat) ∧
  (∀ r1 r2, cm_broadcast r1 ∈ trace out.1 → cm_broadcast r2 ∈ trace out.1 → r1 = r2) ∧
  (∀ r, cm_broadcast r ∈ trace out.1 →
     ∃ req n, botRequest env = inl req ∧
       r = unanimousNotification (UnanimousRequest_Hash req) n ∧
       (un_Accepted n = true ↔
        ∃ data signatures,
          Bot_ConfirmOffchainUnanimousAssertion data signatures ∈ trace out.1)) ∧
  (∀ req res, botRequest env = inl req → out.2 = Return res →
     ∃ r, cm_broadcast r ∈ trace out.1).
Proof.
  intros out. unfold out. clear out.
  destruct (_initiateUnanimousAssertionImpl_outcome env queued forceFinal (start q))
    as (evs & fl & -> & Hout).
  destruct Hout as [err Hreq|req Hreq Hrm|req rm evs fl Hreq Hrm Hafter].
  - split; [simpl; lia|]. split; [intros req res Hreq'; congruence|].
    split; [intros r1 r2 Hb1; in_trace Hb1|]. split; [intros r Hb1; in_trace Hb1|].
    intros req res Hreq'. congruence.
  - split; [simpl; lia|].
    split; [intros req' res _ Hret; simpl in Hret; discriminate|].
    split; [intros r1 r2 Hb1; in_trace Hb1|]. split; [intros r Hb1; in_trace Hb1|].
    intros req' res _ Hret. simpl in Hret. discriminate.
  - destruct Hafter as
      [err Hres|u h e Hres Hh|u h sig e Hres Hh Hsig|u h sig Hres Hh Hsig Hlen|
       u h sig why Hres Hh Hsig Hlen|u h sig e Hres Hh Hsig Hlen Hdown|
       u h sig ss raws Hres Hh Hsig Hlen Hown Hrange Hss].
    1-4,6: split; [unfold assertHashEvent; simpl; lia|];
      (split; [intros req' res _ _; unfold assertHashEvent; reflexivity|]);
      (split; [intros r1 r2 Hb1 Hb2; in_trace Hb1; in_trace Hb2; congruence|]);
      (split; [|intros req' res _ _; eexists; has_event]);
      intros r Hb1; in_trace Hb1; injection Hb1 as ->; exists req, rejected;
      (split; [done|]); (split; [done|]); simpl;
      (split; [done|]); intros (d & s & Hc); in_trace Hc.
    + split; [unfold assertHashEvent; simpl; lia|].
      split; [intros req' res _ Hret; simpl in Hret; discriminate|].
      split; [intros r1 r2 Hb1; in_trace Hb1|]. split; [intros r Hb1; in_trace Hb1|].
      intros req' res _ Hret. simpl in Hret. discriminate.
    + split; [unfold assertHashEvent; simpl; lia|].
      split; [intros req' res _ _; unfold assertHashEvent; reflexivity|].
      split; [intros r1 r2 Hb1 Hb2; in_trace Hb1; in_trace Hb2; congruence|].
      split; [|intros req' res _ _; eexists; has_event].
      intros r Hb1. in_trace Hb1. injection Hb1 as ->. eexists req, _.
      split; [done|]. split; [reflexivity|]. simpl. split; [|done].
      intros _. eexists _, _. has_event.
Qed.

End RoundChecks.

(** ** The batch of a unanimous round *)

Section RoundBatch.
Context `{V : EthValidator}.
Implicit Types (env : UnanimousEnv) (q : list OffchainMessage).

(** [X15]  A confirmed round uses its batch up.  When
    [initiateUnanimousAssertionImpl] returns without an error, the Bot's
    confirmation was called and answered, the fetched batch is not given
    back, and the queue holds just the messages sent while the round was
    under way. *)
Theorem confirmed_round_consumes_batch env (forceFinal : bool) q (r : bool) :
  (initiateUnanimousAssertionImpl env forceFinal (start q)).2 = Return (r, None) →
  let w' := (initiateUnanimousAssertionImpl env forceFinal (start q)).1 in
  MessageProcessingQueue.queuedMessages (mpq w') = arrivals env ∧
  (∀ b, mpq_Return b ∉ trace w') ∧
  botConfirm env = None ∧
  ∃ data signatures, Bot_ConfirmOffchainUnanimousAssertion data signatures ∈ trace w'.
Proof.
  intros Hret w'. unfold w'. clear w'.
  destruct (initiateUnanimousAssertionImpl_outcome env forceFinal (start q))
    as (evs & fl & Hout & Heq).
  rewrite Heq in Hret |- *. clear Heq.
  destruct Hout as [err Hreq| |req rm evs fl Hreq Hrm Hafter];
    [simpl in Hret; discriminate..|].
  destruct Hafter as [| | | | | |u h sig ss raws Hres Hh Hsig Hlen Hown Hrange Hss];
    try (simpl in Hret; discriminate).
  destruct (botConfirm env) as [e|]; [simpl in Hret; discriminate|].
  unfold concluded in *.
  destruct (bool_decide (effectiveSequenceNum u = MaxUint64)); simpl in *.
  all: split; [done|]; split; [intros b Hin; in_trace Hin|]; split; [done|];
    eexists _, _; has_event.
Qed.

(** [X16]  A round that fails in the Bot's confirmation has already told
    the followers [Accepted = true]; it still returns the Bot's error and
    gives the fetched batch back to the head of the queue, so the same
    messages go into the next round. *)
Theorem confirmation_failure_requeues env (forceFinal : bool) q (e : error)
  (data : UnanimousRequestData) (signatures : list Signature) :
  botConfirm env = Some e →
  Bot_ConfirmOffchainUnanimousAssertion data signatures
    ∈ trace (initiateUnanimousAssertionImpl env forceFinal (start q)).1 →
  let w' := (initiateUnanimousAssertionImpl env forceFinal (start q)).1 in
  (initiateUnanimousAssertionImpl env forceFinal (start q)).2 = Return (false, Some e) ∧
  MessageProcessingQueue.queuedMessages (mpq w') = q ++ arrivals env ∧
  mpq_Return q ∈ trace w' ∧
  ∃ req raws, botRequest env = inl req ∧
    cm_broadcast (unanimousNotification (UnanimousRequest_Hash req)
                    {| un_Accepted := true; un_Signatures := raws |}) ∈ trace w'.
Proof.
  intros Hconf Hin w'. unfold w'. clear w'.
  destruct (initiateUnanimousAssertionImpl_outcome env forceFinal (start q))
    as (evs & fl & Hout & Heq).
  rewrite Heq in Hin |- *. clear Heq.
  destruct Hout as [err Hreq| |req rm evs fl Hreq Hrm Hafter];
    [simpl in Hin; in_trace Hin..|].
  destruct Hafter as [| | | | | |u h sig ss raws Hres Hh Hsig Hlen Hown Hrange Hss];
    try (rewrite ?concluded_error in Hin; simpl in Hin; in_trace Hin).
  rewrite Hconf. rewrite concluded_error. simpl.
  split; [done|]. split; [done|]. split; [has_event|].
  exists req, raws. split; [done|has_event].
Qed.

End RoundBatch.

(** ** The controller's loop ([ValidatorCoordinator.Run]) *)

Section ControllerLoop.
Context `{V : EthValidator}.

(** The requests of the three API calls, as they travel on [requestChan];
    each carries its own reply channels. *)
Inductive ValidatorLeaderRequest :=
| CoordinatorCreateRequest (timeout : Z)
| CoordinatorDisputableRequest
| CoordinatorUnanimousRequest (final : bool).

(** What the handler puts on the channels of the request it served. *)
Inductive Answer :=
| onRetChan (ret : bool)
| onErrChan (err : error).

(** What the loop does outside the rounds, and the events of its rounds. *)
Inductive LoopEvent :=
| InRound (e : Event)
| Bot_RequestDisputableAssertion (maxSteps : Z) (final : bool)
| Bot_HasPendingMessages
| mpq_HasMessages.

(** The loop's own variable, the ingress queue it works on, and what it
    has done so far. *)
Record Controller := {
  pendingForProcessing : bool;
  queue : MessageProcessingQueue.t OffchainMessage;
  log : list LoopEvent;
}.

(** What the collaborators answer during one turn of the loop. *)
Record TurnEnv := {
  hasPending : bool;             (* <-m.Val.Bot.HasPendingMessages() *)
  disputable : bool;             (* <-resultChan of RequestDisputableAssertion *)
  createEnv : CreateEnv;
  unanimousEnv : UnanimousEnv;
}.

(** The [select] of the loop: a request, or the one-second timer. *)
Inductive turn :=
| fromRequestChan (request : ValidatorLeaderRequest)
| fromTimeAfter.

(** How a turn ends: the loop goes on, having answered the request if
    there was one, or the goroutine panicked. *)
Inductive Turned :=
| GoesOn (c : Controller) (answer : option Answer)
| Crashed (why : string).

(** A round function run by the loop on its queue. *)
Definition inRound (round : Ctl Result Result) (c : Controller)
  : Controller * Flow Result Result :=
  let '(w, fl) := round {| trace := []; mpq := queue c |} in
  ({| pendingForProcessing := pendingForProcessing c;
      queue := mpq w;
      log := log c ++ (InRound <$> trace w) |}, fl).

Definition noted (c : Controller) (e : LoopEvent) : Controller :=
  {| pendingForProcessing := pendingForProcessing c; queue := queue c;
     log := log c ++ [e] |}.

Definition setPending (c : Controller) (b : bool) : Controller :=
  {| pendingForProcessing := b; queue := queue c; log := log c |}.

(** [initiateDisputableAssertionImpl] *)
Definition initiateDisputableAssertionImpl (env : TurnEnv) (c : Controller)
  : Controller * bool :=
  (noted c (Bot_RequestDisputableAssertion 10000 false), disputable env).

(** One turn of the loop of [Run]. *)
Definition Run_turn (env : TurnEnv) (c : Controller) (t : turn) : Turned :=
  match t with
  | fromRequestChan (CoordinatorCreateRequest timeout) =>
      match inRound (createVMImpl (createEnv env) timeout) c with
      | (c, Next (ret, err)) | (c, Return (ret, err)) =>
          match err with
          | Some e => GoesOn c (Some (onErrChan e))
          | None => GoesOn c (Some (onRetChan ret))
          end
      | (_, Panic why) => Crashed why
      end
  | fromRequestChan CoordinatorDisputableRequest =>
      let '(c, res) := initiateDisputableAssertionImpl env c in
      GoesOn c (Some (onRetChan res))
  | fromRequestChan (CoordinatorUnanimousRequest final) =>
      match inRound (initiateUnanimousAssertionImpl (unanimousEnv env) final) c with
      | (c, Next (ret, err)) | (c, Return (ret, err)) =>
          match err with
          | Some e => GoesOn c (Some (onErrChan e))
          | None => GoesOn (setPending c false) (Some (onRetChan ret))
          end
      | (_, Panic why) => Crashed why
      end
  | fromTimeAfter =>
      let c := noted c Bot_HasPendingMessages in
      if hasPending env then
        (* Force onchain assertion if there are pending on chain messages,
           then force an offchain assertion *)
        match inRound (initiateUnanimousAssertionImpl (unanimousEnv env) true) c with
        | (_, Panic why) => Crashed why
        | (c, _) => GoesOn (setPending c true) None
        end
      else
        let c := noted c mpq_HasMessages in
        let has :=
          match (MessageProcessingQueue.run (queue c)
                   MessageProcessingQueue.ReqHasMessages).2 with
          | Some (MessageProcessingQueue.Flag b) => b
          | _ => false
          end in
        if has || pendingForProcessing c then
          match inRound (initiateUnanimousAssertionImpl (unanimousEnv env) false) c with
          | (_, Panic why) => Crashed why
          | (c, _) => GoesOn (setPending c false) None
          end
        else GoesOn c None
  end.

End ControllerLoop.

Section ControllerTurns.
Context `{V : EthValidator}.
Implicit Types (env : TurnEnv) (c : Controller) (q : list OffchainMessage).

(** [SendMessage]: the message goes to the queue's goroutine. *)
Definition SendMessage (c : Controller) (msg : OffchainMessage) : Controller :=
  {| pendingForProcessing := pendingForProcessing c;
     queue := (MessageProcessingQueue.run (queue c)
                 (MessageProcessingQueue.ReqSend msg)).1;
     log := log c |}.

(** Every unanimous round begins by fetching the queue and handing all of
    it to the Bot, with the flag it was started with. *)
Lemma unanimous_round_begins (uenv : UnanimousEnv) (forceFinal : bool) q :
  ∃ rest,
    trace (initiateUnanimousAssertionImpl uenv forceFinal (start q)).1 =
      mpq_Fetch :: Bot_InitiateUnanimousRequest 10000 (om_Message <$> q) forceFinal
        :: rest.
Proof.
  destruct (initiateUnanimousAssertionImpl_outcome uenv forceFinal (start q))
    as (evs & fl & Hout & ->).
  assert (∃ evs', evs = Bot_InitiateUnanimousRequest 10000 (om_Message <$> q) forceFinal
                          :: evs') as [evs' ->]
    by (destruct Hout; by eexists).
  unfold concluded. destruct fl as [[[] [e|]]|[[] [e|]]|why]; simpl; by eexists.
Qed.

Lemma inRound_start (round : Ctl Result Result) c :
  inRound round c =
    ({| pendingForProcessing := pendingForProcessing c;
        queue := mpq (round (start (MessageProcessingQueue.queuedMessages (queue c)))).1;
        log := log c ++ (InRound <$> trace (round (start
                 (MessageProcessingQueue.queuedMessages (queue c)))).1) |},
     (round (start (MessageProcessingQueue.queuedMessages (queue c)))).2).
Proof.
  unfold inRound, start. destruct c as [p [l] lg]. simpl.
  by destruct (round _).
Qed.

(** A unanimous round run by the loop leaves its first call of the Bot in
    the loop's log. *)
Lemma inRound_unanimous_begins (uenv : UnanimousEnv) (forceFinal : bool) c :
  InRound (Bot_InitiateUnanimousRequest 10000
             (om_Message <$> MessageProcessingQueue.queuedMessages (queue c)) forceFinal)
    ∈ log (inRound (initiateUnanimousAssertionImpl uenv forceFinal) c).1.
Proof.
  rewrite inRound_start. simpl.
  destruct (unanimous_round_begins uenv forceFinal
              (MessageProcessingQueue.queuedMessages (queue c))) as [rest ->].
  apply elem_of_app. right. has_event.
Qed.

(** [X17]  What a tick does.  A tick never answers anybody.  It runs a
    unanimous round exactly when the Bot has pending on-chain messages,
    the ingress queue is not empty, or the flag [pendingForProcessing] was
    set; the round is handed the whole queue and is forced final exactly
    when the Bot had pending messages.  Afterwards the flag says whether
    the Bot had pending messages, whatever the round did; an idle tick
    leaves the queue and the flag alone. *)
Theorem tick_policy env c c' (a : option Answer) :
  Run_turn env c fromTimeAfter = GoesOn c' a →
  a = None ∧ pendingForProcessing c' = hasPending env ∧
  ((hasPending env = true ∨ MessageProcessingQueue.queuedMessages (queue c) ≠ [] ∨
    pendingForProcessing c = true) →
   InRound (Bot_InitiateUnanimousRequest 10000
              (om_Message <$> MessageProcessingQueue.queuedMessages (queue c))
              (hasPending env)) ∈ log c') ∧
  (hasPending env = false → MessageProcessingQueue.queuedMessages (queue c) = [] →
   pendingForProcessing c = false →
   c' = {| pendingForProcessing := false; queue := queue c;
           log := log c ++ [Bot_HasPendingMessages; mpq_HasMessages] |}).
Proof.
  unfold Run_turn. intros Hturn.
  destruct (hasPending env) eqn:Hpend.
  - pose proof (inRound_unanimous_begins (unanimousEnv env) true
                  (noted c Bot_HasPendingMessages)) as Hbegins.
    destruct (inRound _ _) as [c1 fl] eqn:Hround. simpl in Hbegins.
    destruct fl as [r|r|why]; [| |done]; injection Hturn as <- <-;
      (split; [done|]); (split; [done|]); (split; [done|]); done.
  - simpl in Hturn.
    destruct (bool_decide (0 < length (MessageProcessingQueue.queuedMessages (queue c)))%nat
              || pendingForProcessing c) eqn:Hrun.
    + pose proof (inRound_unanimous_begins (unanimousEnv env) false
                    (noted (noted c Bot_HasPendingMessages) mpq_HasMessages)) as Hbegins.
      destruct (inRound _ _) as [c1 fl] eqn:Hround. simpl in Hbegins.
      destruct fl as [r|r|why]; [| |done]; injection Hturn as <- <-;
        (split; [done|]); (split; [done|]); (split; [done|]);
        intros _ Hq Hp; rewrite Hq, Hp in Hrun; done.
    + injection Hturn as <- <-. apply orb_false_iff in Hrun as [Hq Hp].
      apply bool_decide_eq_false in Hq.
      split; [done|]. split; [done|]. split.
      * intros [?|[Hne|?]]; [done| |congruence].
        destruct (MessageProcessingQueue.queuedMessages (queue c)); [done|].
        simpl in Hq. lia.
      * intros _ _ _. unfold noted. simpl. by rewrite Hp, <- app_assoc.
Qed.

(** [X18]  A message sent is in the next round.  After [SendMessage], the
    next tick runs a unanimous round, and the Bot is handed the messages
    that were queued before followed by the new one. *)
Theorem sent_message_reaches_bot env c (msg : OffchainMessage) c' (a : option Answer) :
  Run_turn env (SendMessage c msg) fromTimeAfter = GoesOn c' a →
  InRound (Bot_InitiateUnanimousRequest 10000
             ((om_Message <$> MessageProcessingQueue.queuedMessages (queue c))
                ++ [om_Message msg])
             (hasPending env)) ∈ log c'.
Proof.
  unfold Run_turn. intros Hturn.
  assert (om_Message <$> MessageProcessingQueue.queuedMessages (queue (SendMessage c msg))
          = (om_Message <$> MessageProcessingQueue.queuedMessages (queue c))
              ++ [om_Message msg]) as Hq by (simpl; by rewrite fmap_app).
  destruct (hasPending env).
  - pose proof (inRound_unanimous_begins (unanimousEnv env) true
                  (noted (SendMessage c msg) Bot_HasPendingMessages)) as Hbegins.
    destruct (inRound _ _) as [c1 fl]. simpl in Hbegins. rewrite fmap_app in Hbegins.
    by destruct fl as [r|r|why]; [| |done]; injection Hturn as <- <-.
  - simpl in Hturn. rewrite length_app in Hturn. simpl in Hturn.
    rewrite bool_decide_true in Hturn by lia. simpl in Hturn.
    pose proof (inRound_unanimous_begins (unanimousEnv env) false
                  (noted (noted (SendMessage c msg) Bot_HasPendingMessages)
                     mpq_HasMessages)) as Hbegins.
    destruct (inRound _ _) as [c1 fl]. simpl in Hbegins. rewrite fmap_app in Hbegins.
    by destruct fl as [r|r|why]; [| |done]; injection Hturn as <- <-.
Qed.

(** [X19]  What the answers to [CreateVM] mean.  The result channel only
    ever yields [true], and only after [Bot.CreateVM] was called and gave
    no error; every other end of the round that is not a panic is
    answered on the error channel. *)
Theorem create_answer env c (timeout : Z) c' (answer : option Answer) :
  Run_turn env c (fromRequestChan (CoordinatorCreateRequest timeout)) = GoesOn c' answer →
  pendingForProcessing c' = pendingForProcessing c ∧
  ((answer = Some (onRetChan true) ∧ createErr (createEnv env) = None ∧
    ∃ createData signatures, InRound (Val_CreateVM createData signatures) ∈ log c') ∨
   (∃ e, answer = Some (onErrChan e))).
Proof.
  unfold Run_turn. rewrite inRound_start. intros Hturn.
  destruct (createVMImpl_cases (createEnv env) timeout
              (start (MessageProcessingQueue.queuedMessages (queue c))))
    as [[_ Heq]|[(_ & _ & Heq)|[(_ & _ & fl & Heq & [[why ->]|[e ->]])|
        (_ & _ & _ & _ & ss & _ & _ & Heq)]]];
    rewrite Heq in Hturn; simpl in Hturn; try discriminate.
  1-3: injection Hturn as <- <-; split; [done|]; right; by eexists.
  destruct (createErr (createEnv env)) as [e|] eqn:Herr; injection Hturn as <- <-;
    (split; [done|]); [right; by eexists|left].
  split; [done|]. split; [done|]. eexists _, _. simpl.
  apply elem_of_app. right. has_event.
Qed.

(** [X20]  What the answers to [InitiateUnanimousAssertion] mean.  An
    answer on the result channel says the round was confirmed: the flag
    [pendingForProcessing] is cleared, the batch is used up, and the
    value is [true] unless the round was final and the Bot answered
    [false] to the request to close the channel.  An answer on the error
    channel leaves the flag as it was and the batch back in the queue. *)
Theorem unanimous_answer env c (final : bool) c' (answer : option Answer) :
  Run_turn env c (fromRequestChan (CoordinatorUnanimousRequest final))
    = GoesOn c' answer →
  (∃ ret, answer = Some (onRetChan ret) ∧ pendingForProcessing c' = false ∧
     MessageProcessingQueue.queuedMessages (queue c') = arrivals (unanimousEnv env) ∧
     (∃ data signatures,
        InRound (Bot_ConfirmOffchainUnanimousAssertion data signatures) ∈ log c') ∧
     (ret = false →
        botClosed (unanimousEnv env) = false ∧
        InRound Bot_CloseUnanimousAssertionRequest ∈ log c')) ∨
  (∃ e, answer = Some (onErrChan e) ∧
     pendingForProcessing c' = pendingForProcessing c ∧
     MessageProcessingQueue.queuedMessages (queue c')
       = MessageProcessingQueue.queuedMessages (queue c) ++ arrivals (unanimousEnv env)).
Proof.
  unfold Run_turn. rewrite inRound_start. intros Hturn.
  destruct (initiateUnanimousAssertionImpl_outcome (unanimousEnv env) final
              (start (MessageProcessingQueue.queuedMessages (queue c))))
    as (evs & fl & Hout & Heq).
  rewrite Heq in Hturn. clear Heq. simpl in Hout.
  assert (∀ x e, fl = Return (x, Some e) →
            ∃ e', answer = Some (onErrChan e') ∧
              pendingForProcessing c' = pendingForProcessing c ∧
              MessageProcessingQueue.queuedMessages (queue c')
                = MessageProcessingQueue.queuedMessages (queue c)
                    ++ arrivals (unanimousEnv env)) as Hfailed.
  { intros x e ->. rewrite concluded_error in Hturn. simpl in Hturn.
    injection Hturn as <- <-. by exists e. }
  destruct Hout as [err Hreq| |req rm evs fl Hreq Hrm Hafter];
    [right; by eapply Hfailed|simpl in Hturn; discriminate|].
  destruct Hafter as [| | | | | |u h sig ss raws Hres Hh Hsig Hlen Hown Hrange Hss];
    try (simpl in Hturn; discriminate); try (right; by eapply Hfailed).
  destruct (botConfirm (unanimousEnv env)) as [e|]; [right; by eapply Hfailed|].
  clear Hfailed. left. unfold concluded in Hturn.
  destruct (bool_decide (effectiveSequenceNum u = MaxUint64)); simpl in Hturn;
    injection Hturn as <- <-; eexists; (split; [done|]); (split; [done|]);
    (split; [done|]); simpl.
  - split; [eexists _, _; apply elem_of_app; right; has_event|].
    intros Hclosed. split; [done|]. apply elem_of_app; right; has_event.
  - split; [eexists _, _; apply elem_of_app; right; has_event|]. done.
Qed.

End ControllerTurns.

(** ** The flag [forceFinal] *)

Section ForceFinal.
Context `{V : EthValidator}.
Implicit Types (env : UnanimousEnv) (queued : list OffchainMessage) (w : World).

(** How the loop over the responses ends does not depend on what was
    recorded before. *)
Lemma unanimousSignatures_flow hashId unanHash (responses : list LabeledFollowerResponse) :
  ∀ (signatures : list Signature) (rawSignatures : list (option RawSignature)) w w',
    (unanimousSignatures hashId unanHash responses signatures rawSignatures w).2 =
    (unanimousSignatures hashId unanHash responses signatures rawSignatures w').2.
Proof.
  induction responses as [|rsp responses IH]; intros signatures rawSignatures w w';
    [done|].
  simpl. destruct (Response (response rsp)) as [c|r]; [done|].
  destruct (uf_Accepted r); [|done]. simpl.
  case_bool_decide; [done|]. simpl.
  unfold ctl_bind at 1 3. unfold store at 1 3.
  case_bool_decide; [|done]. simpl.
  destruct (uf_Signature r) as [s|]; [|done].
  unfold ctl_bind, store. case_bool_decide; [|done]. simpl. apply IH.
Qed.

Lemma bind_emit {A} (e : Event) (k : unit → Ctl Result A) w :
  ctl_bind (emit e) k w = k tt (record w [e]).
Proof. reflexivity. Qed.

Lemma bind_store {A B} (s : list A) (i : Z) (x : A) (k : list A → Ctl Result B) w :
  ctl_bind (store s i x) k w =
    if bool_decide (0 ≤ i < Z.of_nat (length s))
    then k (<[Z.to_nat i := x]> s) w else (w, Panic "index out of range").
Proof. unfold ctl_bind, store. by case_bool_decide. Qed.

(** How the round ends does not depend on the flag it was started with,
    nor on what was recorded before. *)
Lemma _initiateUnanimousAssertionImpl_flow env queued (ff ff' : bool) w w' :
  (_initiateUnanimousAssertionImpl env queued ff w).2 =
  (_initiateUnanimousAssertionImpl env queued ff' w').2.
Proof.
  unfold _initiateUnanimousAssertionImpl. rewrite !bind_emit. cbn beta.
  destruct (botRequest env) as [req|err]; [|done].
  destruct (signMessages queued 0 (NewMessages req) []) as [rm|]; [|done].
  rewrite !bind_emit. cbn beta.
  destruct (botResults env) as [u|err]; [|done].
  cbv zeta. rewrite !bind_emit. cbn beta.
  destruct (UnanimousAssertHash _ _ _ _ _ _) as [h [e|]]; [done|].
  rewrite !bind_emit. cbn beta.
  destruct (Sign h) as [sig [e|]]; [done|].
  case_bool_decide; [done|]. cbv zeta.
  rewrite !(bind_store (make zeroSignature ValidatorCount)).
  case_bool_decide; [|done]. cbn beta.
  rewrite !(bind_store (make None ValidatorCount)).
  case_bool_decide; [|done]. cbn beta.
  unfold ctl_bind.
  match goal with
  | |- context [unanimousSignatures ?a ?b ?c ?d ?e ?wa] =>
      match goal with
      | |- context [unanimousSignatures a b c d e ?wb] =>
          assert_fails (unify wa wb);
          pose proof (unanimousSignatures_flow a b c d e wa wb) as Hflow;
          destruct (unanimousSignatures a b c d e wa) as [wa' fla];
          destruct (unanimousSignatures a b c d e wb) as [wb' flb]
      end
  end.
  simpl in Hflow. subst flb. destruct fla as [sigs|r|why]; [|done..].
  unfold notifyUnanimous, emit. simpl. by destruct (botConfirm env).
Qed.

(** What [initiateUnanimousAssertionImpl] returns and leaves in the queue,
    from how its round ended. *)
Lemma initiateUnanimousAssertionImpl_via_round env (ff : bool) w :
  ∃ evs,
    initiateUnanimousAssertionImpl env ff w =
      concluded env w evs
        (_initiateUnanimousAssertionImpl env
           (MessageProcessingQueue.queuedMessages (mpq w)) ff
           {| trace := trace w ++ [mpq_Fetch];
              mpq := MessageProcessingQueue.Build [] |}).2.
Proof.
  unfold initiateUnanimousAssertionImpl, ctl_bind at 1 2 3, emit at 1, ask at 1, call.
  simpl.
  set (w1 := {| trace := trace w ++ [mpq_Fetch]; mpq := _ |}).
  destruct (_initiateUnanimousAssertionImpl_outcome env
              (MessageProcessingQueue.queuedMessages (mpq w)) ff w1)
    as (evs & fl & -> & _).
  exists evs. simpl.
  assert (∀ more, (trace w ++ [mpq_Fetch]) ++ evs ++ more
                  = trace w ++ mpq_Fetch :: evs ++ more) as Happ.
  { intros more. by rewrite <- app_assoc. }
  unfold concluded, concurrentSends, ctl_bind, ask, emit, return_, record.
  destruct fl as [[[] [e|]]|[[] [e|]]|why]; simpl;
    rewrite ?serve_sends; simpl;
    rewrite ?app_nil_r, <- ?app_assoc, ?Happ; try reflexivity.
  all: by rewrite <- (Happ []), app_nil_r.
Qed.

Lemma concluded_by_flow env w (evs evs' : list Event) (fl : Flow Result Result) :
  (concluded env w evs fl).2 = (concluded env w evs' fl).2 ∧
  mpq (concluded env w evs fl).1 = mpq (concluded env w evs' fl).1.
Proof. by destruct fl as [[[] [e|]]|[[] [e|]]|why]. Qed.

(** [X21]  The flag [forceFinal] reaches the Bot and nothing else.  With
    the same answers from the Bot and the followers, a round started with
    [forceFinal = true] ends as the one started with [false]: the same
    result or error or panic, so the same decision to close the channel,
    and the same queue afterwards. *)
Theorem forceFinal_only_reaches_bot env queued w w' :
  (_initiateUnanimousAssertionImpl env queued true w).2
    = (_initiateUnanimousAssertionImpl env queued false w').2 ∧
  (initiateUnanimousAssertionImpl env true w).2
    = (initiateUnanimousAssertionImpl env false w).2 ∧
  mpq (initiateUnanimousAssertionImpl env true w).1
    = mpq (initiateUnanimousAssertionImpl env false w).1.
Proof.
  split; [apply _initiateUnanimousAssertionImpl_flow|].
  destruct (initiateUnanimousAssertionImpl_via_round env true w) as [evs ->].
  destruct (initiateUnanimousAssertionImpl_via_round env false w) as [evs' ->].
  rewrite (_initiateUnanimousAssertionImpl_flow env _ true false _
             {| trace := trace w ++ [mpq_Fetch];
                mpq := MessageProcessingQueue.Build [] |}).
  apply concluded_by_flow.
Qed.

End ForceFinal.

(** ** Creating a VM with a follower missing *)

Section CreateNeedsFollowers.
Context `{V : EthValidator}.
Import ClientManager.


End CreateNeedsFollowers.

(** ** A round that panics *)

Section LoopCrash.
Context `{V : EthValidator}.
Implicit Types (env : TurnEnv) (c : Controller) (uenv : UnanimousEnv).

Lemma oversized_request_panics uenv (queued : list OffchainMessage) (ff : bool)
  (w : World) (req : UnanimousRequest) :
  botRequest uenv = inl req →
  (length queued < length (NewMessages req))%nat →
  (_initiateUnanimousAssertionImpl uenv queued ff w).2 = Panic "index out of range".
Proof.
  intros Hreq Hlt.
  pose proof (signMessages_from queued (NewMessages req) 0 []) as Heq.
  simpl in Heq. specialize (Heq ltac:(lia)).
  destruct (_initiateUnanimousAssertionImpl_outcome uenv queued ff w)
    as (evs & fl & -> & Hout). simpl.
  destruct Hout as [| |req' rm evs fl Hreq' Hrm Hafter]; [congruence|done|].
  assert (req' = req) as -> by congruence.
  rewrite Heq, bool_decide_false in Hrm by lia. done.
Qed.

Lemma oversized_round_panics uenv (ff : bool) (w : World) (req : UnanimousRequest) :
  botRequest uenv = inl req →
  (length (MessageProcessingQueue.queuedMessages (mpq w)) < length (NewMessages req))%nat →
  (initiateUnanimousAssertionImpl uenv ff w).2 = Panic "index out of range".
Proof.
  intros Hreq Hlt.
  destruct (initiateUnanimousAssertionImpl_via_round uenv ff w) as [evs ->].
  by rewrite (oversized_request_panics uenv _ ff _ req Hreq Hlt).
Qed.

(** [X23]  Nothing recovers from a panic of a round.  When the Bot's
    request names more new messages than the queue held, the index past
    the end of the batch takes the loop's goroutine down with it: a
    unanimous request gets no answer on either channel, and so does every
    tick that runs a round. *)
Theorem oversized_request_crashes_loop env c (req : UnanimousRequest) :
  botRequest (unanimousEnv env) = inl req →
  (length (MessageProcessingQueue.queuedMessages (queue c)) < length (NewMessages req))%nat →
  (∀ final, Run_turn env c (fromRequestChan (CoordinatorUnanimousRequest final))
              = Crashed "index out of range") ∧
  (hasPending env = true ∨ MessageProcessingQueue.queuedMessages (queue c) ≠ [] ∨
   pendingForProcessing c = true →
   Run_turn env c fromTimeAfter = Crashed "index out of range").
Proof.
  intros Hreq Hlt.
  assert (∀ ff c1, queue c1 = queue c →
            (inRound (initiateUnanimousAssertionImpl (unanimousEnv env) ff) c1).2
              = Panic "index out of range") as Hpanic.
  { intros ff c1 Hq. rewrite inRound_start. simpl.
    apply (oversized_round_panics _ _ _ req Hreq). simpl. by rewrite Hq. }
  split.
  - intros final. unfold Run_turn.
    specialize (Hpanic final c eq_refl).
    destruct (inRound _ c) as [c1 fl]. simpl in Hpanic. by subst fl.
  - intros Hruns. unfold Run_turn. destruct (hasPending env).
    + specialize (Hpanic true (noted c Bot_HasPendingMessages) eq_refl).
      destruct (inRound _ _) as [c1 fl]. simpl in Hpanic. by subst fl.
    + simpl.
      assert (bool_decide
                (0 < length (MessageProcessingQueue.queuedMessages (queue c)))%nat
              || pendingForProcessing c = true) as ->.
      { destruct Hruns as [?|[Hne| ->]]; [done| |by rewrite orb_true_r].
        rewrite bool_decide_true; [done|].
        destruct (MessageProcessingQueue.queuedMessages (queue c)); [done|simpl; lia]. }
      specialize (Hpanic false (noted (noted c Bot_HasPendingMessages) mpq_HasMessages)
                    eq_refl).
      destruct (inRound _ _) as [c1 fl]. simpl in Hpanic. by subst fl.
Qed.

End LoopCrash.
(* ===================================================================== *)
(** * Runs on the sample validator set *)
(* ===================================================================== *)

Import Sample.

(** Decides a closed proposition by evaluation. *)
Ltac by_evaluation := apply (bool_decide_unpack _); vm_compute; exact I.

(** ** Create *)

Lemma createVMImpl_requires_followers_run :
  gotAll missing = false ∧
  createVMImpl missing 1000 (start []) =
    (record (start []) [WaitForFollowers 1000],
     Return (false,
       Some "coordinator can only create VM when connected to all other validators")).
Proof.
  split; [reflexivity|].
  apply (createVMImpl_requires_followers missing 1000 (start [])). reflexivity.
Defined.

(** [C3]  Three validators, both followers connected and answering,
    follower 12 with [Accepted = false]: the round ends with the error
    "some Validators refused to sign" and has broadcast nothing at all, so
    no follower is sent a create notification with [Approved = false]. *)
Theorem createVMImpl_refusal_unannounced :
  (createVMImpl refusing 1000 (start [])).2
    = Return (false, Some "some Validators refused to sign") ∧
  ∀ req, cm_broadcast req ∉ trace (createVMImpl refusing 1000 (start [])).1.
Proof.
  split; [reflexivity|].
  intros req Hin.
  apply createVMImpl_notifies_only_shortfall in Hin as [_ Hlen].
  by apply Hlen.
Qed.

(** Neither is a created VM announced: the round that succeeds broadcasts
    nothing either. *)
Lemma createVMImpl_success_unannounced :
  (createVMImpl created 1000 (start [])).2 = Return (true, None) ∧
  ∀ req, cm_broadcast req ∉ trace (createVMImpl created 1000 (start [])).1.
Proof.
  split; [reflexivity|].
  intros req Hin.
  apply createVMImpl_notifies_only_shortfall in Hin as [_ Hlen].
  by apply Hlen.
Qed.

(** The vector of the round in which follower 11 answered twice. *)
Definition duplicatedVector : list Signature :=
  [ {| sig_R := 12; sig_S := 13; sig_V := 27 |};
    {| sig_R := 3; sig_S := 4; sig_V := 28 |};
    zeroSignature ].

(** [C1, as stated, fails]  Two responses arrive, which is N-1, and both
    are accepted, but both come from follower 11.  The round is finalized:
    [Bot.CreateVM] gets a vector whose slot 2 was never written and whose
    slot 1 holds the second answer, not the signature of the first. *)
Lemma finalized_with_empty_slot :
  Z.of_nat (length (createResponses duplicated)) = ValidatorCount - 1 ∧
  Forall (λ rsp, is_Some (createSignatureOf rsp)) (createResponses duplicated) ∧
  (createVMImpl duplicated 1000 (start [])).2 = Return (true, None) ∧
  Val_CreateVM (createDataOf duplicated) duplicatedVector
    ∈ trace (createVMImpl duplicated 1000 (start [])).1 ∧
  duplicatedVector !! 2%nat = Some zeroSignature ∧
  ¬ assembled duplicatedVector (Sign (CreateVMHash (createDataOf duplicated))).1
      (createResponses duplicated) createSignatureOf.
Proof.
  split; [reflexivity|]. split; [repeat constructor; by eexists|].
  split; [reflexivity|]. split; [vm_compute; has_event|]. split; [reflexivity|].
  intros (_ & _ & _ & Hall & _).
  destruct (Hall (createReply 11 createHash true (Some (rawSig 1 2 27))))
    as (s & Hs & Hslot); [left|].
  vm_compute in Hs, Hslot. congruence.
Qed.

Definition createdVector : list Signature :=
  [ {| sig_R := 12; sig_S := 13; sig_V := 27 |};
    {| sig_R := 1; sig_S := 2; sig_V := 27 |};
    {| sig_R := 5; sig_S := 6; sig_V := 28 |} ].

Lemma finalized_vector_complete_run :
  Val_CreateVM (createDataOf created) createdVector
    ∈ trace (createVMImpl created 1000 (start [])).1 ∧
  NoDup (indexOf Val_Address :: indices (createResponses created)) ∧
  assembled createdVector (Sign (CreateVMHash (createDataOf created))).1
    (createResponses created) createSignatureOf.
Proof.
  assert (Val_CreateVM (createDataOf created) createdVector
            ∈ trace (createVMImpl created 1000 (start [])).1) as Hin
    by (vm_compute; has_event).
  assert (NoDup (indexOf Val_Address :: indices (createResponses created))) as Hnd
    by by_evaluation.
  split; [exact Hin|]. split; [exact Hnd|].
  exact (proj1 finalized_vector_complete created 1000 [] _ _ Hin Hnd).
Defined.

(** ** Unanimous *)

Lemma outgoing_messages_force_final_run :
  (initiateUnanimousAssertionImpl closing false (start batch)).2 = Return (true, None) ∧
  botResults closing = inl (unanUpdate 4 [9%N]) ∧
  Val_UnanimousAssertHash MaxUint64 40 0%N 2 1 [9%N]
    = assertHashEvent (unanUpdate 4 [9%N]) ∧
  Bot_CloseUnanimousAssertionRequest
    ∈ trace (initiateUnanimousAssertionImpl closing false (start batch)).1 ∧
  true = botClosed closing.
Proof.
  assert ((initiateUnanimousAssertionImpl closing false (start batch)).2
            = Return (true, None)) as Hret by reflexivity.
  assert (botResults closing = inl (unanUpdate 4 [9%N])) as Hres by reflexivity.
  destruct (outgoing_messages_force_final closing false batch true _ Hret Hres)
    as (Hforce & _ & Hhash & _ & _ & Hfinal & _).
  split; [exact Hret|]. split; [exact Hres|]. split.
  - apply Hhash. vm_compute. has_event.
  - apply Hfinal, Hforce. vm_compute. lia.
Defined.

(** The same round without an out-message keeps the channel open. *)
Definition keeping : UnanimousEnv := {|
  botRequest := botRequest closing;
  botResults := inl (unanUpdate 4 []);
  unanResponses := accepting openHash;
  botConfirm := None; botClosed := false; arrivals := [] |}.

Example kept_open :
  (initiateUnanimousAssertionImpl keeping false (start batch)).2 = Return (true, None) ∧
  Bot_CloseUnanimousAssertionRequest
    ∉ trace (initiateUnanimousAssertionImpl keeping false (start batch)).1.
Proof. split; [reflexivity|]. vm_compute. intros Hin. in_trace Hin. Qed.

(** [C4, as stated, fails]  When the Bot reports its error instead of the
    request, the round fails before confirmation and the batch goes back,
    but no follower is notified: nothing was broadcast.  And when the
    round had fetched an empty batch, giving it back leaves the queue
    empty, so [HasMessages] answers [false]. *)
Lemma failed_round_unnotified_or_empty :
  ((initiateUnanimousAssertionImpl botFails false (start batch)).2
     = Return (false, Some "bot failed") ∧
   ∀ r, cm_broadcast r
          ∉ trace (initiateUnanimousAssertionImpl botFails false (start batch)).1) ∧
  ((initiateUnanimousAssertionImpl refused false (start [])).2
     = Return (false, Some "some Validators refused to sign") ∧
   (MessageProcessingQueue.run
      (mpq (initiateUnanimousAssertionImpl refused false (start [])).1)
      MessageProcessingQueue.ReqHasMessages).2
     = Some (MessageProcessingQueue.Flag false)).
Proof.
  split; split; try reflexivity.
  intros r Hin. vm_compute in Hin. in_trace Hin.
Qed.

Lemma failed_round_returns_batch_run :
  (initiateUnanimousAssertionImpl mismatch false (start batch)).2
    = Return (false, Some "some Validators signed the wrong assertion") ∧
  MessageProcessingQueue.queuedMessages
    (mpq (initiateUnanimousAssertionImpl mismatch false (start batch)).1)
    = batch ++ [msg 102 Byte.x03] ∧
  (MessageProcessingQueue.run
     (mpq (initiateUnanimousAssertionImpl mismatch false (start batch)).1)
     MessageProcessingQueue.ReqHasMessages).2
    = Some (MessageProcessingQueue.Flag true).
Proof.
  assert ((initiateUnanimousAssertionImpl mismatch false (start batch)).2
            = Return (false, Some "some Validators signed the wrong assertion"))
    as Hret by reflexivity.
  destruct (failed_round_returns_batch mismatch false batch false _ Hret)
    as (_ & _ & Hqueue & Hhas & _).
  split; [exact Hret|]. split; [exact Hqueue|]. by apply Hhas.
Defined.

(** A request that lists the messages in another order gets each message
    the signature of the message fetched at its position. *)
Example signMessages_reordered :
  signMessages batch 0 [101; 100]%N []
    = Some [ {| sm_Message := 101%N; sm_Signature := [Byte.x01] |};
             {| sm_Message := 100%N; sm_Signature := [Byte.x02] |} ].
Proof. reflexivity. Qed.

Lemma signMessages_by_position_run :
  [100; 101]%N = om_Message <$> batch ∧
  signMessages batch 0 [100; 101]%N []
    = Some [ {| sm_Message := 100%N; sm_Signature := [Byte.x01] |};
             {| sm_Message := 101%N; sm_Signature := [Byte.x02] |} ].
Proof.
  split; [reflexivity|].
  exact (proj1 (proj2 (proj2 (signMessages_by_position batch [100; 101]%N))) eq_refl).
Defined.

(** ** Gathering and the pending-round map *)

Definition gatherRequest : ValidatorRequest := ClientManager.request sig40.

(** The one response of the create round that fell short. *)
Definition createReply11 : LabeledFollowerResponse :=
  createReply 11 createHash true (Some (rawSig 1 2 27)).

(** The clock of a run in which follower 11 answers after three seconds
    and the timer fires after twenty. *)
Definition slowRun : list (Z * ClientManager.selected) :=
  [(3 * time_Second, ClientManager.fromResponseChan createReply11);
   (20 * time_Second, ClientManager.fromTimer)].

Lemma gatherSignatures_returns_run :
  ClientManager.validators (ClientManager.NewClientManager table) = Validators ∧
  (ClientManager.gatherSignatures (ClientManager.NewClientManager table) gatherRequest 40
     1%positive [ClientManager.fromResponseChan createReply11; ClientManager.fromTimer]).2
    = Some {| ClientManager.responseList := [createReply11];
              ClientManager.timedOut := true;
              ClientManager.unread := [] |} ∧
  (ClientManager.gatherSignatures (ClientManager.NewClientManager table) gatherRequest 40
     1%positive [ClientManager.fromResponseChan createReply11]).2 = None ∧
  (ClientManager.gatherSignatures (ClientManager.NewClientManager table) gatherRequest 40
     1%positive [ClientManager.fromResponseChan reply11;
                 ClientManager.fromResponseChan reply12; ClientManager.fromTimer]).2
    = Some {| ClientManager.responseList := [reply11; reply12];
              ClientManager.timedOut := false;
              ClientManager.unread := [ClientManager.fromTimer] |} ∧
  timerKept slowRun ∧
  (∃ t, slowRun !! 1%nat = Some (t, ClientManager.fromTimer) ∧ 20 * time_Second ≤ t) ∧
  (createVMImpl short 1000 (start [])).2
    = Return (false, Some "some Validators didn't respond").
Proof.
  assert (ClientManager.validators (ClientManager.NewClientManager table) = Validators)
    as Hvals by reflexivity.
  destruct (gatherSignatures_returns (ClientManager.NewClientManager table)
              gatherRequest 40 1%positive Hvals)
    as (Hfull & Hshort & _ & Hret & Htimer & _).
  assert (Z.of_nat (length [createReply11]) < ValidatorCount - 1) as Hone
    by by_evaluation.
  assert (timerKept slowRun) as Hkept.
  { intros t Hin. unfold slowRun in Hin. in_trace Hin.
    injection Hin as ->. unfold ClientManager.gatherTimer. lia. }
  destruct (Hshort [createReply11] [] Hone) as [Hout Hwait].
  split; [exact Hvals|]. split; [exact Hout|]. split; [exact Hwait|]. split.
  { apply (Hfull ltac:(by_evaluation) [reply11; reply12] [ClientManager.fromTimer]).
    by_evaluation. }
  split; [exact Hkept|]. split.
  { exact (Htimer slowRun _ Hkept Hout Hone). }
  destruct (Hret _ _ Hout) as (_ & _ & _ & _ & Hcallers).
  destruct (Hcallers Hone) as (_ & Hcreate & _).
  exact (Hcreate short 1000 (start []) eq_refl eq_refl).
Defined.

(** The Bot's results fail while only follower 11 has answered. *)
Definition resultsFail : UnanimousEnv := {|
  botRequest := inl (unanRequest [100; 101]%N);
  botResults := inr "results failed";
  unanResponses := [reply11];
  botConfirm := None; botClosed := false; arrivals := [] |}.

(** [C7, as stated, fails]  Follower 11 answers the round under digest 40,
    follower 12 does not, and the timer fires: [gatherSignatures] returns
    a list of one response, fewer than N-1.  The Bot has reported an error
    in place of the results, so the round that called it has ended with
    the Bot's error, not with "some Validators didn't respond". *)
Lemma short_list_other_error :
  (∀ request,
     (ClientManager.gatherSignatures (ClientManager.NewClientManager table) request 40
        1%positive [ClientManager.fromResponseChan reply11; ClientManager.fromTimer]).2
       = Some {| ClientManager.responseList := [reply11];
                 ClientManager.timedOut := true;
                 ClientManager.unread := [] |}) ∧
  unanResponses resultsFail = [reply11] ∧
  Z.of_nat (length (unanResponses resultsFail)) < ValidatorCount - 1 ∧
  (_initiateUnanimousAssertionImpl resultsFail batch false (start [])).2
    = Return (false, Some "results failed") ∧
  (initiateUnanimousAssertionImpl resultsFail false (start batch)).2
    = Return (false, Some "results failed").
Proof.
  split; [intros request; reflexivity|]. split; [reflexivity|].
  split; [by_evaluation|]. split; reflexivity.
Qed.

(** The manager once the round under digest 40 is registered. *)
Definition registered : ClientManager.t :=
  (ClientManager.RunLoop (ClientManager.NewClientManager table)
     [ClientManager.sigRequest sig40]).1.

Lemma unknown_request_id_blocks_run :
  ClientManager.responses registered !! requestIdOf stray = None ∧
  ClientManager.RunLoop registered
    [ClientManager.aggResponse stray; ClientManager.aggResponse reply11;
     ClientManager.broadcastMessage]
    = (registered, Some (ClientManager.SendOnNilChan, 2%nat)).
Proof.
  assert (ClientManager.responses registered !! requestIdOf stray = None) as Hnone
    by reflexivity.
  split; [exact Hnone|].
  exact (proj2 (unknown_request_id_blocks registered stray
                  [ClientManager.aggResponse reply11; ClientManager.broadcastMessage]
                  Hnone)).
Defined.

(** The state after both followers answered the round under digest 40. *)
Definition answered : ClientManager.t :=
  (ClientManager.RunLoop registered
     [ClientManager.broadcastMessage; ClientManager.aggResponse reply11;
      ClientManager.aggResponse reply12]).1.

(** [C9, as stated, fails]  The round under digest 40 is registered.  In
    one run its timer fires at once and [gatherSignatures] returns; in
    another both followers answer, [gatherSignatures] takes the two
    responses from its channel and returns.  Either way the round is over
    and the map still holds its channel under digest 40. *)
Lemma pending_round_left_behind :
  ((ClientManager.gatherSignatures registered gatherRequest 40 1%positive
      [ClientManager.fromTimer]).2
     = Some {| ClientManager.responseList := []; ClientManager.timedOut := true;
               ClientManager.unread := [] |} ∧
   ClientManager.responses registered !! 40%N = Some 1%positive) ∧
  (∃ m1 m2,
     ClientManager.recvResponse 1%positive answered = Some (reply11, m1) ∧
     ClientManager.recvResponse 1%positive m1 = Some (reply12, m2) ∧
     ClientManager.recvResponse 1%positive m2 = None ∧
     (ClientManager.gatherSignatures registered gatherRequest 40 1%positive
        [ClientManager.fromResponseChan reply11; ClientManager.fromResponseChan reply12]).2
       = Some {| ClientManager.responseList := [reply11; reply12];
                 ClientManager.timedOut := false; ClientManager.unread := [] |} ∧
     ClientManager.responses m2 !! 40%N = Some 1%positive).
Proof.
  split; [split; reflexivity|].
  eexists _, _. split; [reflexivity|]. split; [reflexivity|]. repeat split.
Qed.

Lemma pending_round_entries_stay_run :
  ClientManager.responses registered !! 40%N = Some 1%positive ∧
  is_Some (ClientManager.responses answered !! 40%N).
Proof.
  assert (ClientManager.responses registered !! 40%N = Some 1%positive) as Hreg
    by reflexivity.
  split; [exact Hreg|].
  exact (proj1 (proj2 (pending_round_entries_stay registered 40 1%positive Hreg)) _).
Defined.

(** ** Further runs: the manager *)

Definition follower11 : ClientManager.Client := NewClient 11.
Definition follower12 : ClientManager.Client := NewClient 12.

(** A client whose outbound buffer is full. *)
Definition slow12 : ClientManager.Client :=
  {| ClientManager.Address_ := 12;
     ClientManager.ToClient := replicate 128 gatherRequest |}.

(** A manager with one request to broadcast, a follower with room and a
    follower without. *)
Definition crowded : ClientManager.t := {|
  ClientManager.clients := {[ 1%positive := follower11; 2%positive := slow12 ]};
  ClientManager.broadcast := [gatherRequest];
  ClientManager.waitingChans := ∅;
  ClientManager.responses := ∅;
  ClientManager.validators := table;
  ClientManager.sinks := ∅;
  ClientManager.woken := ∅;
  ClientManager.closed := ∅ |}.

Definition bothRegister : list ClientManager.event :=
  [ClientManager.register 1%positive follower11;
   ClientManager.register 2%positive follower12].


Lemma broadcast_reaches_or_evicts_run :
  ClientManager.broadcast crowded = [gatherRequest] ∧
  ∃ m1, ClientManager.Run crowded ClientManager.broadcastMessage
          = ClientManager.Stepped m1 ∧
        ClientManager.clients m1 !! 1%positive
          = Some {| ClientManager.Address_ := 11;
                    ClientManager.ToClient := [gatherRequest] |} ∧
        ClientManager.clients m1 !! 2%positive = None ∧
        2%positive ∈ ClientManager.closed m1.
Proof.
  split; [reflexivity|].
  destruct (broadcast_reaches_or_evicts crowded gatherRequest [] eq_refl)
    as (m1 & Hrun & _ & _ & Hall).
  exists m1. split; [exact Hrun|].
  pose proof (Hall 1%positive follower11 eq_refl) as H1.
  pose proof (Hall 2%positive slow12 eq_refl) as H2.
  rewrite bool_decide_true in H1 by (vm_compute; lia).
  rewrite bool_decide_false in H2 by (vm_compute; lia).
  split; [exact (proj1 H1)|]. exact H2.
Defined.

(** The manager with both followers connected. *)
Definition connected : ClientManager.t :=
  (ClientManager.RunLoop (ClientManager.NewClientManager table) bothRegister).1.

Lemma sigRequest_reaches_followers_run :
  ClientManager.broadcast connected = [] ∧
  ∃ m1 m2, ClientManager.Run connected (ClientManager.sigRequest sig40)
             = ClientManager.Stepped m1 ∧
           ClientManager.Run m1 ClientManager.broadcastMessage
             = ClientManager.Stepped m2 ∧
           ClientManager.clients m2 !! 1%positive
             = Some {| ClientManager.Address_ := 11;
                       ClientManager.ToClient := [gatherRequest] |}.
Proof.
  split; [reflexivity|].
  destruct (sigRequest_reaches_followers connected sig40 eq_refl)
    as (m1 & m2 & Hrun1 & Hrun2 & _ & _ & Hall).
  exists m1, m2. split; [exact Hrun1|]. split; [exact Hrun2|].
  apply (Hall 1%positive follower11); [reflexivity|vm_compute; lia].
Defined.

Lemma registered_round_receives_run :
  ClientManager.Run (ClientManager.NewClientManager table) (ClientManager.sigRequest sig40)
    = ClientManager.Stepped registered ∧
  requestIdOf reply11 = ClientManager.requestID sig40 ∧
  ∃ m2, ClientManager.Run registered (ClientManager.aggResponse reply11)
          = ClientManager.Stepped m2 ∧
        ClientManager.sinks m2 !! 1%positive = Some [reply11].
Proof.
  assert (ClientManager.Run (ClientManager.NewClientManager table)
            (ClientManager.sigRequest sig40) = ClientManager.Stepped registered)
    as Hrun by reflexivity.
  destruct (registered_round_receives _ sig40 reply11 _ Hrun eq_refl)
    as (m2 & Hrun2 & Hsink & _); [vm_compute; reflexivity|].
  split; [exact Hrun|]. split; [reflexivity|]. exists m2. split; [exact Hrun2|exact Hsink].
Defined.

(** A waiter comes before the second follower. *)
Definition waitThenRegister : list ClientManager.event :=
  [ClientManager.register 1%positive follower11; ClientManager.waitRequest 5%positive;
   ClientManager.register 2%positive follower12].

Lemma waiters_never_lost_run :
  ∃ m1, ClientManager.RunLoop (ClientManager.NewClientManager table) waitThenRegister
          = (m1, None) ∧
        5%positive ∈ ClientManager.waitingChans m1 ∪ ClientManager.woken m1.
Proof.
  destruct (ClientManager.RunLoop (ClientManager.NewClientManager table) waitThenRegister)
    as [m1 [blocked|]] eqn:Hloop; [vm_compute in Hloop; discriminate|].
  exists m1. split; [reflexivity|].
  apply (proj2 (waiters_never_lost _ _ _ Hloop)). left.
  unfold waitThenRegister. has_event.
Defined.

(** Follower 11 has registered, follower 12 has not. *)
Definition oneRegistered : ClientManager.t :=
  (ClientManager.RunLoop (ClientManager.NewClientManager table)
     [ClientManager.register 1%positive follower11]).1.

(** The loop handles an unregistration before it gets to the caller's
    request, and the second follower registers after it. *)
Lemma WaitForFollowers_true_iff_run :
  5%positive ∉ ClientManager.waitingChans oneRegistered ∧
  5%positive ∉ ClientManager.woken oneRegistered ∧
  cm_WaitForFollowers oneRegistered 5%positive
    [ClientManager.unregister 3%positive; ClientManager.waitRequest 5%positive;
     ClientManager.register 2%positive follower12] onWaitChan = Some true ∧
  cm_WaitForFollowers oneRegistered 5%positive
    [ClientManager.unregister 3%positive; ClientManager.waitRequest 5%positive;
     ClientManager.register 2%positive follower12] onTimeAfter = Some false ∧
  cm_WaitForFollowers oneRegistered 5%positive
    [ClientManager.unregister 3%positive] onWaitChan = None.
Proof.
  assert (5%positive ∉ ClientManager.waitingChans oneRegistered) as Hpark
    by by_evaluation.
  assert (5%positive ∉ ClientManager.woken oneRegistered) as Hwoken by by_evaluation.
  assert (ClientManager.waitRequest 5%positive ∉ [ClientManager.unregister 3%positive])
    as Hpre by (intros Hin; in_trace Hin).
  assert (ClientManager.waitRequest 5%positive
            ∉ [ClientManager.register 2%positive follower12])
    as Hpost by (intros Hin; in_trace Hin).
  split; [exact Hpark|]. split; [exact Hwoken|].
  split; [|split].
  - apply (proj2 (proj2 (WaitForFollowers_true_iff oneRegistered 5%positive
                           [ClientManager.unregister 3%positive]
                           [ClientManager.register 2%positive follower12]
                           onWaitChan Hpark Hwoken Hpre Hpost))).
    split; [reflexivity|]. eexists. split; [reflexivity|]. right.
    exists [], (ClientManager.register 2%positive follower12).
    eexists. split; [by exists []|]. split; [by eexists _, _|].
    split; [reflexivity|]. vm_compute. reflexivity.
  - by apply (proj1 (WaitForFollowers_true_iff oneRegistered 5%positive
                       [ClientManager.unregister 3%positive]
                       [ClientManager.register 2%positive follower12]
                       onTimeAfter Hpark Hwoken Hpre Hpost)).
  - pose proof (proj1 (proj2 (WaitForFollowers_true_iff oneRegistered 5%positive
                                [ClientManager.unregister 3%positive]
                                [ClientManager.register 2%positive follower12]
                                onWaitChan Hpark Hwoken Hpre Hpost))) as Hnever.
    destruct (cm_WaitForFollowers oneRegistered 5%positive
                [ClientManager.unregister 3%positive] onWaitChan) as [[]|] eqn:Hwait;
      [done|vm_compute in Hwait; discriminate|reflexivity].
Defined.

(** A follower connects a second time before its old connection is
    gone: three clients are live when the loop takes the waiter's request,
    so it is parked, and the unregistration that brings the count back to
    N-1 does not signal it.  The [select] of [WaitForFollowers] cannot
    take the wait channel; the timeout is all that is left to it. *)
Example reconnection_hides_followers :
  cm_WaitForFollowers
    (ClientManager.RunLoop connected
       [ClientManager.register 3%positive follower12]).1
    5%positive
    [ClientManager.waitRequest 5%positive; ClientManager.unregister 2%positive]
    onWaitChan = None.
Proof. vm_compute. reflexivity. Qed.

Lemma live_clients_not_closed_run :
  dom (ClientManager.clients crowded) ## ClientManager.closed crowded ∧
  NoDup (registrations
           [ClientManager.broadcastMessage;
            ClientManager.register 3%positive follower12;
            ClientManager.unregister 2%positive]) ∧
  dom (ClientManager.clients
         (ClientManager.RunLoop crowded
            [ClientManager.broadcastMessage;
             ClientManager.register 3%positive follower12;
             ClientManager.unregister 2%positive]).1)
    ## ClientManager.closed
         (ClientManager.RunLoop crowded
            [ClientManager.broadcastMessage;
             ClientManager.register 3%positive follower12;
             ClientManager.unregister 2%positive]).1.
Proof.
  assert (dom (ClientManager.clients crowded) ## ClientManager.closed crowded) as Hdisj
    by (simpl; set_solver).
  assert (NoDup (registrations
                   [ClientManager.broadcastMessage;
                    ClientManager.register 3%positive follower12;
                    ClientManager.unregister 2%positive])) as Hnd
    by by_evaluation.
  split; [exact Hdisj|]. split; [exact Hnd|].
  refine (proj1 (live_clients_not_closed _ _ Hdisj Hnd _)).
  intros c Hc. change (c ∈ [3%positive]) in Hc.
  assert (c = 3%positive) as -> by set_solver. simpl.
  split; [|set_solver]. rewrite dom_insert, dom_singleton. set_solver.
Defined.

Lemma gathered_short_iff_timed_out_run :
  (ClientManager.gatherSignatures (ClientManager.NewClientManager table) gatherRequest 40
     1%positive [ClientManager.fromResponseChan createReply11; ClientManager.fromTimer]).2
    = Some {| ClientManager.responseList := [createReply11];
              ClientManager.timedOut := true;
              ClientManager.unread := [] |} ∧
  (1 < ClientManager.followerCount (ClientManager.NewClientManager table))%Z.
Proof.
  assert ((ClientManager.gatherSignatures (ClientManager.NewClientManager table)
             gatherRequest 40 1%positive
             [ClientManager.fromResponseChan createReply11; ClientManager.fromTimer]).2
          = Some {| ClientManager.responseList := [createReply11];
                    ClientManager.timedOut := true;
                    ClientManager.unread := [] |}) as Hout by reflexivity.
  split; [exact Hout|].
  destruct (proj1 (gathered_short_iff_timed_out _ _ _ _ _ _ Hout)) as [_ Hiff].
  - vm_compute. discriminate.
  - apply Hiff. reflexivity.
Defined.

(** ** Rounds and the loop of the coordinator *)

Lemma createVM_only_when_all_signed_run :
  Val_CreateVM (createDataOf created) createdVector
    ∈ trace (createVMImpl created 1000 (start [])).1 ∧
  Forall signedCreate (createResponses created) ∧
  (createVMImpl created 1000 (start [])).2 = Return (true, None).
Proof.
  assert (Val_CreateVM (createDataOf created) createdVector
            ∈ trace (createVMImpl created 1000 (start [])).1) as Hin
    by (vm_compute; has_event).
  destruct (createVM_only_when_all_signed created 1000 [] _ _ Hin)
    as (_ & _ & _ & _ & Hsigned & _ & _ & Hret & _).
  split; [exact Hin|]. split; [exact Hsigned|exact Hret].
Defined.

(** The sample validator without its key: signing fails. *)
Definition unsigning : EthValidator := {|
  VmId := 7%N;
  Validators := table;
  Val_Address := 10%N;
  Sign := λ h, (zeroSignature, Some "no key");
  UnanimousAssertHash := λ seq before _ newInbox _ _,
    ((Z.to_N seq + before + newInbox)%N, None);
  CreateVMHash := λ c, (cv_VmId c + cv_VmState c)%N;
  UnanimousRequest_Hash := λ r, ur_BeforeHash (UnanimousRequestData_ r);
|}.

Lemma createVMImpl_sign_failure_run :
  gotAll created = true ∧
  Z.of_nat (length (createResponses created)) = ValidatorCount (V:=unsigning) - 1 ∧
  0 ≤ indexOf (V:=unsigning) (Val_Address (EthValidator:=unsigning))
    < ValidatorCount (V:=unsigning) ∧
  (Sign (EthValidator:=unsigning)
     (CreateVMHash (EthValidator:=unsigning) (createDataOf (V:=unsigning) created))).2
    = Some "no key" ∧
  (createVMImpl (V:=unsigning) created 1000 (start [])).2
    = Return (false, Some "no key") ∧
  ∀ createData signatures,
    Val_CreateVM createData signatures
      ∉ trace (createVMImpl (V:=unsigning) created 1000 (start [])).1.
Proof.
  assert (Z.of_nat (length (createResponses created)) = ValidatorCount (V:=unsigning) - 1)
    as Hlen by (vm_compute; reflexivity).
  assert (0 ≤ indexOf (V:=unsigning) (Val_Address (EthValidator:=unsigning))
            < ValidatorCount (V:=unsigning)) as Hown by by_evaluation.
  split; [reflexivity|]. split; [exact Hlen|]. split; [exact Hown|].
  split; [reflexivity|].
  rewrite (createVMImpl_sign_failure (V:=unsigning) created 1000 (start []) "no key"
             eq_refl Hlen Hown eq_refl).
  split; [reflexivity|]. intros createData signatures Hin. in_trace Hin.
Defined.

(** The vector of the round that closes the channel. *)
Definition closingVector : list Signature :=
  [ {| sig_R := finalHash; sig_S := finalHash + 1; sig_V := 27 |};
    {| sig_R := 1; sig_S := 2; sig_V := 27 |};
    {| sig_R := 5; sig_S := 6; sig_V := 28 |} ].

Lemma confirm_only_when_all_agree_run :
  Bot_ConfirmOffchainUnanimousAssertion
      (UnanimousRequestData_ (unanRequest [100; 101]%N)) closingVector
    ∈ trace (_initiateUnanimousAssertionImpl closing batch false (start [])).1 ∧
  Forall (signedUnanimous finalHash) (unanResponses closing) ∧
  ∃ raws before,
    trace (_initiateUnanimousAssertionImpl closing batch false (start [])).1
      = before ++
          [cm_broadcast (unanimousNotification 40
                           {| un_Accepted := true; un_Signatures := raws |});
           Bot_ConfirmOffchainUnanimousAssertion
             (UnanimousRequestData_ (unanRequest [100; 101]%N)) closingVector].
Proof.
  assert (Bot_ConfirmOffchainUnanimousAssertion
              (UnanimousRequestData_ (unanRequest [100; 101]%N)) closingVector
            ∈ trace (_initiateUnanimousAssertionImpl closing batch false (start [])).1)
    as Hin by (vm_compute; has_event).
  split; [exact Hin|].
  destruct (confirm_only_when_all_agree closing batch false [] _ _ Hin)
    as (req & u & h & Hreq & _ & Hres & Hh & _ & _ & Hall & _ & raws & _ & before
        & Htrace & _).
  injection Hreq as <-. injection Hres as <-. vm_compute in Hh. injection Hh as <-.
  split; [exact Hall|]. exists raws, before. exact Htrace.
Defined.

Lemma unanimous_notifies_once_run :
  botRequest closing = inl (unanRequest [100; 101]%N) ∧
  (_initiateUnanimousAssertionImpl closing batch false (start [])).2
    = Return (true, None) ∧
  length (broadcasts
            (trace (_initiateUnanimousAssertionImpl closing batch false (start [])).1))
    = 1%nat.
Proof.
  split; [reflexivity|]. split; [reflexivity|].
  exact (proj1 (proj2 (unanimous_notifies_once closing batch false []))
           _ _ eq_refl eq_refl).
Defined.

Lemma confirmed_round_consumes_batch_run :
  (initiateUnanimousAssertionImpl closing false (start batch)).2 = Return (true, None) ∧
  MessageProcessingQueue.queuedMessages
    (mpq (initiateUnanimousAssertionImpl closing false (start batch)).1)
    = [msg 102 Byte.x03] ∧
  ∀ b, mpq_Return b ∉ trace (initiateUnanimousAssertionImpl closing false (start batch)).1.
Proof.
  assert ((initiateUnanimousAssertionImpl closing false (start batch)).2
            = Return (true, None)) as Hret by reflexivity.
  destruct (confirmed_round_consumes_batch closing false batch true Hret)
    as (Hqueue & Hkept & _).
  split; [exact Hret|]. split; [exact Hqueue|exact Hkept].
Defined.

(** Everybody signs, and the Bot's confirmation comes back with an error. *)
Definition unconfirmed : UnanimousEnv := {|
  botRequest := botRequest closing;
  botResults := botResults closing;
  unanResponses := unanResponses closing;
  botConfirm := Some "confirm failed"; botClosed := true;
  arrivals := [msg 102 Byte.x03] |}.

Lemma confirmation_failure_requeues_run :
  botConfirm unconfirmed = Some "confirm failed" ∧
  Bot_ConfirmOffchainUnanimousAssertion
      (UnanimousRequestData_ (unanRequest [100; 101]%N)) closingVector
    ∈ trace (initiateUnanimousAssertionImpl unconfirmed false (start batch)).1 ∧
  (initiateUnanimousAssertionImpl unconfirmed false (start batch)).2
    = Return (false, Some "confirm failed") ∧
  MessageProcessingQueue.queuedMessages
    (mpq (initiateUnanimousAssertionImpl unconfirmed false (start batch)).1)
    = batch ++ [msg 102 Byte.x03].
Proof.
  assert (Bot_ConfirmOffchainUnanimousAssertion
              (UnanimousRequestData_ (unanRequest [100; 101]%N)) closingVector
            ∈ trace (initiateUnanimousAssertionImpl unconfirmed false (start batch)).1)
    as Hin by (vm_compute; has_event).
  destruct (confirmation_failure_requeues unconfirmed false batch "confirm failed"
              _ _ eq_refl Hin) as (Hret & Hqueue & _).
  split; [reflexivity|]. split; [exact Hin|]. split; [exact Hret|exact Hqueue].
Defined.

(** A controller at rest, with an empty queue and with the sample batch
    waiting, and collaborators that report nothing pending on chain. *)
Definition idle : Controller := {|
  pendingForProcessing := false;
  queue := MessageProcessingQueue.NewMessageProcessingQueue;
  log := [] |}.

Definition loaded : Controller := {|
  pendingForProcessing := false;
  queue := MessageProcessingQueue.Build batch;
  log := [] |}.

Definition quiet : TurnEnv := {|
  hasPending := false; disputable := true;
  createEnv := created; unanimousEnv := closing |}.

Lemma tick_policy_run :
  (∃ c', Run_turn quiet loaded fromTimeAfter = GoesOn c' None ∧
         InRound (Bot_InitiateUnanimousRequest 10000 [100; 101]%N false) ∈ log c') ∧
  Run_turn quiet idle fromTimeAfter
    = GoesOn {| pendingForProcessing := false; queue := queue idle;
                log := [Bot_HasPendingMessages; mpq_HasMessages] |} None.
Proof.
  split.
  - destruct (Run_turn quiet loaded fromTimeAfter) as [c' a|why] eqn:Hturn;
      [|vm_compute in Hturn; discriminate].
    destruct (tick_policy _ _ _ _ Hturn) as (-> & _ & Hround & _).
    exists c'. split; [reflexivity|]. apply Hround. right. left. by simpl.
  - destruct (Run_turn quiet idle fromTimeAfter) as [c' a|why] eqn:Hturn;
      [|vm_compute in Hturn; discriminate].
    destruct (tick_policy _ _ _ _ Hturn) as (-> & _ & _ & Hrest).
    by rewrite (Hrest eq_refl eq_refl eq_refl).
Defined.

(** The Bot asks for the one message it was handed; everybody signs. *)
Definition single : UnanimousEnv := {|
  botRequest := inl (unanRequest [100%N]);
  botResults := inl (unanUpdate 4 []);
  unanResponses := accepting openHash;
  botConfirm := None; botClosed := false; arrivals := [] |}.

Definition calm : TurnEnv := {|
  hasPending := false; disputable := true;
  createEnv := created; unanimousEnv := single |}.

Lemma sent_message_reaches_bot_run :
  ∃ c' a, Run_turn calm (SendMessage idle (msg 100 Byte.x01)) fromTimeAfter
            = GoesOn c' a ∧
          InRound (Bot_InitiateUnanimousRequest 10000 [100%N] false) ∈ log c'.
Proof.
  destruct (Run_turn calm (SendMessage idle (msg 100 Byte.x01)) fromTimeAfter)
    as [c' a|why] eqn:Hturn; [|vm_compute in Hturn; discriminate].
  exists c', a. split; [reflexivity|].
  exact (sent_message_reaches_bot _ _ _ _ _ Hturn).
Defined.

Lemma create_answer_run :
  ∃ c', Run_turn quiet idle (fromRequestChan (CoordinatorCreateRequest 1000))
          = GoesOn c' (Some (onRetChan true)) ∧
        ∃ createData signatures, InRound (Val_CreateVM createData signatures) ∈ log c'.
Proof.
  destruct (Run_turn quiet idle (fromRequestChan (CoordinatorCreateRequest 1000)))
    as [c' a|why] eqn:Hturn; [|vm_compute in Hturn; discriminate].
  pose proof Hturn as Hrun. vm_compute in Hrun. injection Hrun as _ Ha.
  destruct (create_answer _ _ _ _ _ Hturn) as [_ [(_ & _ & Hin)|(e & He)]];
    [|congruence].
  exists c'. split; [by rewrite Ha|exact Hin].
Defined.

Lemma unanimous_answer_run :
  ∃ c', Run_turn quiet loaded (fromRequestChan (CoordinatorUnanimousRequest false))
          = GoesOn c' (Some (onRetChan true)) ∧
        MessageProcessingQueue.queuedMessages (queue c') = [msg 102 Byte.x03].
Proof.
  destruct (Run_turn quiet loaded (fromRequestChan (CoordinatorUnanimousRequest false)))
    as [c' a|why] eqn:Hturn; [|vm_compute in Hturn; discriminate].
  pose proof Hturn as Hrun. vm_compute in Hrun. injection Hrun as _ Ha.
  destruct (unanimous_answer _ _ _ _ _ Hturn)
    as [(ret & _ & _ & Hqueue & _)|(e & He & _)]; [|congruence].
  exists c'. split; [by rewrite Ha|exact Hqueue].
Defined.

(** The Bot's request names two messages where one was queued. *)
Lemma oversized_request_crashes_loop_run :
  botRequest (unanimousEnv quiet) = inl (unanRequest [100; 101]%N) ∧
  (length (MessageProcessingQueue.queuedMessages
             (queue (SendMessage idle (msg 100 Byte.x01))))
     < length (NewMessages (unanRequest [100; 101]%N)))%nat ∧
  Run_turn quiet (SendMessage idle (msg 100 Byte.x01)) fromTimeAfter
    = Crashed "index out of range".
Proof.
  assert (length (MessageProcessingQueue.queuedMessages
                    (queue (SendMessage idle (msg 100 Byte.x01))))
            < length (NewMessages (unanRequest [100; 101]%N)))%nat as Hlt
    by (simpl; lia).
  split; [reflexivity|]. split; [exact Hlt|].
  apply (proj2 (oversized_request_crashes_loop quiet _ _ eq_refl Hlt)).
  right. left. by simpl.
Defined.

(** ** A create request before the followers are there *)

